(** * Authentication core of the community management API

    A shallow embedding of the authentication service, the user repository,
    the two gates (authenticate / authorize) and the authentication
    controller, followed by the properties the design document states
    about them.

    JavaScript objects live in a store of cells addressed by references, so
    that copying ([{ ...user }]) and mutation ([delete o.k], [req.user = ..])
    are distinguishable from sharing.  Asynchronous code is modelled in the
    order its [await]s sequence it; a rejected promise is a thrown error.
    A JavaScript string is held as the bytes of its UTF-8 encoding. *)

From stdpp Require Import base option list strings gmap fin_maps.
From Stdlib Require Import ZArith.

Local Open Scope Z_scope.
Local Open Scope string_scope.

(** ** JavaScript values *)

Definition loc := nat.

Inductive value :=
| VUndefined
| VNull
| VBool (b : bool)
| VNum (n : Z)
| VStr (s : string)
| VRef (l : loc).

#[global] Instance value_eq_dec : EqDecision value.
Proof. solve_decision. Defined.

(** A store cell is a plain object (own enumerable properties) or an array. *)
Inductive cell :=
| CObj (o : gmap string value)
| CArr (a : list value).

(** [Error] objects: only [name] and [message] are ever inspected. *)
Record js_error := JsError { err_name : string; err_message : string }.

#[global] Instance js_error_eq_dec : EqDecision js_error.
Proof. solve_decision. Defined.

Definition Error (msg : string) : js_error := JsError "Error" msg.
Definition TypeError (msg : string) : js_error := JsError "TypeError" msg.

Inductive result (A : Type) :=
| Ok (a : A)
| Throw (e : js_error).
Arguments Ok {A} a.
Arguments Throw {A} e.

(** ToBoolean *)
Definition truthy (v : value) : bool :=
  match v with
  | VUndefined | VNull => false
  | VBool b => b
  | VNum n => negb (Z.eqb n 0)
  | VStr s => negb (String.eqb s "")
  | VRef _ => true
  end.

(** [a || b] *)
Definition js_or (a b : value) : value := if truthy a then a else b.

(** [a === b]: same type and same value, objects by identity; numbers are
    the integers, so there is no NaN case. *)
Definition strict_eq (a b : value) : bool :=
  match a, b with
  | VUndefined, VUndefined => true
  | VNull, VNull => true
  | VBool x, VBool y => Bool.eqb x y
  | VNum x, VNum y => Z.eqb x y
  | VStr x, VStr y => String.eqb x y
  | VRef x, VRef y => Nat.eqb x y
  | _, _ => false
  end.

(** [typeof v === 'string'] *)
Definition is_string (v : value) : bool :=
  match v with VStr _ => true | _ => false end.

(** [s.length] counts UTF-16 code units.  Read off the UTF-8 bytes of a
    well-formed string: a byte below 0x80 and a lead byte below 0xF0 start
    a character of the basic plane (one unit), a lead byte from 0xF0 on
    starts a character beyond it (a surrogate pair, two units), and a
    continuation byte (0x80 to 0xBF) adds nothing. *)
Definition utf16_units (c : Ascii.ascii) : nat :=
  match c with
  | Ascii.Ascii _ _ _ _ b4 b5 b6 b7 =>
      if negb b7 then 1%nat
      else if negb b6 then 0%nat
      else if b5 && b4 then 2%nat
      else 1%nat
  end.

Fixpoint js_length (s : string) : nat :=
  match s with
  | EmptyString => 0%nat
  | String c rest => (utf16_units c + js_length rest)%nat
  end.

(** ** The relational store behind [pool.query] *)

(** The schema is not part of the sources; the columns are the ones the
    repository's statements name.  A column holds the value the driver
    hands back for it ([null] for SQL NULL); the engine's own typing,
    coercions and constraints are outside the model, as are its faults. *)
Record user_row := UserRow {
  u_id : Z;
  u_username : value;
  u_email : value;
  u_password_hash : value;
  u_role_id : value;
  u_municipality_id : value;
  u_first_name : value;
  u_last_name : value;
  u_phone : value;
  u_profile_image_url : value;
  u_is_active : bool;
  u_last_login : value;
  u_email_verified : value;
  u_created_at : value;
  u_updated_at : value;
  u_deleted_at : option Z
}.

Record role_row := RoleRow {
  r_id : Z;
  r_role_name : value;
  r_permissions : value
}.

Record database := Database {
  db_users : list user_row;
  db_roles : list role_row;
  db_next_id : Z
}.

(** ** Observable calls into the libraries and the store *)

Inductive db_op :=
| OpFindByEmail (email : value)
| OpFindByUsername (username : value)
| OpFindById (id : value)
| OpCreate (row : user_row)
| OpUpdateLastLogin (id : value)
| OpEmailExists (email : value)
| OpUsernameExists (username : value).

Inductive event :=
| EvDb (op : db_op)
| EvHash (password : value)
| EvCompare (password hash : value)
| EvSign (payload : gmap string value) (secret : value)
| EvVerify (token : value) (secret : value)
| EvConsoleError (label : string) (e : js_error).

Definition is_write (op : db_op) : bool :=
  match op with
  | OpCreate _ | OpUpdateLastLogin _ => true
  | _ => false
  end.

Definition is_db_write (e : event) : bool :=
  match e with EvDb op => is_write op | _ => false end.

Definition is_hash (e : event) : bool :=
  match e with EvHash _ => true | _ => false end.

Definition is_compare (e : event) : bool :=
  match e with EvCompare _ _ => true | _ => false end.

(** ** The world a request runs in *)

Record world := World {
  w_heap : gmap loc cell;
  w_db : database;
  w_trace : list event;
  w_now : Z;
  w_entropy : nat
}.

Definition set_heap (h : gmap loc cell) (w : world) : world :=
  World h (w_db w) (w_trace w) (w_now w) (w_entropy w).
Definition set_db (d : database) (w : world) : world :=
  World (w_heap w) d (w_trace w) (w_now w) (w_entropy w).
Definition log_event (e : event) (w : world) : world :=
  World (w_heap w) (w_db w) (w_trace w ++ [e]) (w_now w) (w_entropy w).
Definition tick_entropy (w : world) : world :=
  World (w_heap w) (w_db w) (w_trace w) (w_now w) (S (w_entropy w)).

(** ** State-and-exception monad *)

Definition M (A : Type) : Type := world -> result A * world.

Definition ret {A} (a : A) : M A := fun w => (Ok a, w).
Definition throw {A} (e : js_error) : M A := fun w => (Throw e, w).
Definition bind {A B} (m : M A) (k : A -> M B) : M B :=
  fun w => match m w with
           | (Ok a, w') => k a w'
           | (Throw e, w') => (Throw e, w')
           end.
(** [try { m } catch (error) { h error }] *)
Definition try_catch {A} (m : M A) (h : js_error -> M A) : M A :=
  fun w => match m w with
           | (Ok a, w') => (Ok a, w')
           | (Throw e, w') => h e w'
           end.
Definition lift {A} (r : result A) : M A := fun w => (r, w).
Definition get_world : M world := fun w => (Ok w, w).
Definition emit (e : event) : M unit := fun w => (Ok tt, log_event e w).

Declare Scope js_scope.
Delimit Scope js_scope with js.
Notation "'let*' x ':=' m 'in' k" := (bind m (fun x => k))
  (at level 10, x name, m at level 100, k at level 200) : js_scope.
Notation "m ';;' k" := (bind m (fun _ => k))
  (at level 100, k at level 200, right associativity) : js_scope.
Local Open Scope js_scope.

(** ** Store operations *)

(** A fresh reference for [{...}] / [[...]] literals. *)
Definition alloc (c : cell) : M value :=
  fun w => let l := fresh (dom (w_heap w)) in
           (Ok (VRef l), set_heap (<[l := c]> (w_heap w)) w).

Definition new_object (props : list (string * value)) : M value :=
  alloc (CObj (list_to_map props)).

Definition new_array (items : list value) : M value := alloc (CArr items).

(** [o.k] on the properties of an object: [undefined] when absent. *)
Definition prop_of (o : gmap string value) (k : string) : value :=
  default VUndefined (o !! k).

(** Own properties of the object behind a reference; arrays are not
    spread or indexed by name anywhere in this code. *)
Definition own_props (h : gmap loc cell) (v : value) : gmap string value :=
  match v with
  | VRef l => match h !! l with Some (CObj o) => o | _ => ∅ end
  | _ => ∅
  end.

(** [v.k]: throws on [undefined] and [null], yields [undefined] for a
    missing property and for primitives (none of the property names read
    here is defined on a primitive's prototype). *)
Definition get_prop (v : value) (k : string) : M value :=
  fun w => match v with
           | VUndefined => (Throw (TypeError "Cannot read properties of undefined"), w)
           | VNull => (Throw (TypeError "Cannot read properties of null"), w)
           | _ => (Ok (prop_of (own_props (w_heap w) v) k), w)
           end.

(** [delete v.k] on an object reference. *)
Definition delete_prop (v : value) (k : string) : M unit :=
  fun w => match v with
           | VRef l =>
               match w_heap w !! l with
               | Some (CObj o) => (Ok tt, set_heap (<[l := CObj (delete k o)]> (w_heap w)) w)
               | _ => (Ok tt, w)
               end
           | _ => (Ok tt, w)
           end.

(** [{ ...v }]: a new object with the own properties of [v]; spreading
    [null], [undefined], a boolean or a number gives the empty object (a
    string would spread its characters; no caller passes one). *)
Definition spread_copy (v : value) : M value :=
  fun w => alloc (CObj (own_props (w_heap w) v)) w.


(** ** External libraries and configuration

    [bcrypt], [jsonwebtoken], the string built-ins and the two regular
    expressions are not part of the sources: they are taken as parameters.
    [config/auth] is a record of constants, a parameter as well. *)

Inductive jwt_payload :=
| PayloadObj (o : gmap string value)
| PayloadStr (s : string).

Record libraries := Libraries {
  (* bcrypt.hash(data, saltRounds); the salt is drawn from the entropy *)
  bcrypt_hash : value -> value -> nat -> result string;
  (* bcrypt.compare(data, encrypted) *)
  bcrypt_compare : value -> value -> result bool;
  (* jwt.sign(payload, secret, { expiresIn }) at the current time *)
  jwt_sign : gmap string value -> value -> value -> Z -> result string;
  (* jwt.verify(token, secret) at the current time *)
  jwt_verify : value -> value -> Z -> result jwt_payload;
  (* String.prototype.trim *)
  str_trim : string -> string;
  (* /^[^\s@]+@[^\s@]+\.[^\s@]+$/.test *)
  emailRegex_test : string -> bool;
  (* /^[a-zA-Z0-9_-]{3,100}$/.test *)
  usernameRegex_test : string -> bool
}.

Record auth_config := AuthConfig {
  jwt_accessSecret : value;
  jwt_accessExpiresIn : value;
  jwt_refreshSecret : value;
  jwt_refreshExpiresIn : value;
  bcrypt_saltRounds : value
}.

(** ** UserRepository *)

Module UserRepository.

(** SQL [a = b]: never true when a side is NULL ([undefined] parameters are
    sent as NULL). *)
Definition sql_eq (a b : value) : bool :=
  match a, b with
  | (VNull | VUndefined), _ => false
  | _, (VNull | VUndefined) => false
  | _, _ => strict_eq a b
  end.

(** A query parameter as the driver binds it. *)
Definition sql_param (v : value) : value :=
  match v with VUndefined => VNull | _ => v end.

Definition not_deleted (u : user_row) : bool :=
  match u_deleted_at u with None => true | Some _ => false end.

(** [users u LEFT JOIN roles r ON u.role_id = r.id], for one user row. *)
Definition left_join_roles (d : database) (u : user_row)
  : list (user_row * option role_row) :=
  match List.filter (fun r => sql_eq (u_role_id u) (VNum (r_id r))) (db_roles d) with
  | [] => [(u, None)]
  | rs => map (fun r => (u, Some r)) rs
  end.

(** [cond AND deleted_at IS NULL] *)
Definition live (cond : user_row -> bool) (u : user_row) : bool :=
  cond u && not_deleted u.

(** The three WHERE conditions: [email = $1], [username = $1], [id = $1]. *)
Definition by_email (email : value) (u : user_row) : bool :=
  sql_eq (u_email u) email.

Definition by_username (username : value) (u : user_row) : bool :=
  sql_eq (u_username u) username.

Definition by_id (id : value) (u : user_row) : bool :=
  sql_eq (VNum (u_id u)) id.

(** [SELECT ... FROM users u LEFT JOIN roles r ON u.role_id = r.id
     WHERE cond AND u.deleted_at IS NULL] *)
Definition select_users (d : database) (cond : user_row -> bool)
  : list (user_row * option role_row) :=
  flat_map (left_join_roles d) (List.filter (live cond) (db_users d)).

Definition role_columns (r : option role_row) : list (string * value) :=
  match r with
  | Some r => [("role_name", r_role_name r); ("permissions", r_permissions r)]
  | None => [("role_name", VNull); ("permissions", VNull)]
  end.

(** The SELECT list of [findByEmail] and [findByUsername]. *)
Definition columns_with_hash (row : user_row * option role_row)
  : list (string * value) :=
  let u := row.1 in
  [("id", VNum (u_id u)); ("username", u_username u); ("email", u_email u);
   ("password_hash", u_password_hash u); ("role_id", u_role_id u);
   ("municipality_id", u_municipality_id u);
   ("first_name", u_first_name u); ("last_name", u_last_name u);
   ("phone", u_phone u); ("profile_image_url", u_profile_image_url u);
   ("is_active", VBool (u_is_active u));
   ("last_login", u_last_login u); ("email_verified", u_email_verified u);
   ("created_at", u_created_at u); ("updated_at", u_updated_at u)]
  ++ role_columns row.2.

(** The SELECT list of [findById]: no [password_hash]. *)
Definition columns_without_hash (row : user_row * option role_row)
  : list (string * value) :=
  let u := row.1 in
  [("id", VNum (u_id u)); ("username", u_username u); ("email", u_email u);
   ("role_id", u_role_id u); ("municipality_id", u_municipality_id u);
   ("first_name", u_first_name u); ("last_name", u_last_name u);
   ("phone", u_phone u); ("profile_image_url", u_profile_image_url u);
   ("is_active", VBool (u_is_active u));
   ("last_login", u_last_login u); ("email_verified", u_email_verified u);
   ("created_at", u_created_at u); ("updated_at", u_updated_at u)]
  ++ role_columns row.2.

(** [result.rows[0] || null] *)
Definition first_row_or_null (cols : user_row * option role_row -> list (string * value))
    (rows : list (user_row * option role_row)) : M value :=
  match rows with
  | row :: _ => new_object (cols row)
  | [] => ret VNull
  end.

Definition findByEmail (email : value) : M value :=
  emit (EvDb (OpFindByEmail email));;
  let* w := get_world in
  first_row_or_null columns_with_hash (select_users (w_db w) (by_email email)).

Definition findByUsername (username : value) : M value :=
  emit (EvDb (OpFindByUsername username));;
  let* w := get_world in
  first_row_or_null columns_with_hash (select_users (w_db w) (by_username username)).

Definition findById (id : value) : M value :=
  emit (EvDb (OpFindById id));;
  let* w := get_world in
  first_row_or_null columns_without_hash (select_users (w_db w) (by_id id)).

(** The row an INSERT of [create] adds.  Columns the statement does not
    name take their defaults, which the sources do not show: the creation
    and update stamps are taken to be the current time, the rest NULL. *)
Definition inserted_row (d : database) (now : Z)
    (username email passwordHash roleId municipalityId firstName lastName phone : value)
  : user_row :=
  {| u_id := db_next_id d;
     u_username := sql_param username;
     u_email := sql_param email;
     u_password_hash := sql_param passwordHash;
     u_role_id := sql_param roleId;
     u_municipality_id := js_or municipalityId VNull;
     u_first_name := js_or firstName VNull;
     u_last_name := js_or lastName VNull;
     u_phone := js_or phone VNull;
     u_profile_image_url := VNull;
     u_is_active := true;
     u_last_login := VNull;
     u_email_verified := VNull;
     u_created_at := VNum now;
     u_updated_at := VNum now;
     u_deleted_at := None |}.

Definition insert_user (row : user_row) (d : database) : database :=
  {| db_users := db_users d ++ [row];
     db_roles := db_roles d;
     db_next_id := db_next_id d + 1 |}.

Definition run_db (f : database -> database) : M unit :=
  fun w => (Ok tt, set_db (f (w_db w)) w).

Definition create (userData : value) : M value :=
  let* username := get_prop userData "username" in
  let* email := get_prop userData "email" in
  let* passwordHash := get_prop userData "passwordHash" in
  let* roleId := get_prop userData "roleId" in
  let* municipalityId := get_prop userData "municipalityId" in
  let* firstName := get_prop userData "firstName" in
  let* lastName := get_prop userData "lastName" in
  let* phone := get_prop userData "phone" in
  let* w := get_world in
  let row := inserted_row (w_db w) (w_now w) username email passwordHash roleId
                          municipalityId firstName lastName phone in
  emit (EvDb (OpCreate row));;
  run_db (insert_user row);;
  (* RETURNING id, username, email, role_id, municipality_id,
               first_name, last_name, phone, is_active, created_at *)
  new_object
    [("id", VNum (u_id row)); ("username", u_username row); ("email", u_email row);
     ("role_id", u_role_id row); ("municipality_id", u_municipality_id row);
     ("first_name", u_first_name row); ("last_name", u_last_name row);
     ("phone", u_phone row); ("is_active", VBool (u_is_active row));
     ("created_at", u_created_at row)].

Definition touch_last_login (id : value) (now : Z) (u : user_row) : user_row :=
  if sql_eq (VNum (u_id u)) id then
    {| u_id := u_id u; u_username := u_username u; u_email := u_email u;
       u_password_hash := u_password_hash u; u_role_id := u_role_id u;
       u_municipality_id := u_municipality_id u;
       u_first_name := u_first_name u; u_last_name := u_last_name u;
       u_phone := u_phone u; u_profile_image_url := u_profile_image_url u;
       u_is_active := u_is_active u; u_last_login := VNum now;
       u_email_verified := u_email_verified u;
       u_created_at := u_created_at u; u_updated_at := u_updated_at u;
       u_deleted_at := u_deleted_at u |}
  else u.

(** [UPDATE users SET last_login = CURRENT_TIMESTAMP WHERE id = $1] *)
Definition updateLastLogin (userId : value) : M unit :=
  emit (EvDb (OpUpdateLastLogin userId));;
  let* w := get_world in
  run_db (fun d => {| db_users := map (touch_last_login userId (w_now w)) (db_users d);
                      db_roles := db_roles d;
                      db_next_id := db_next_id d |}).

(** [result.rows.length > 0] *)
Definition has_rows {A} (rows : list A) : bool :=
  match rows with [] => false | _ => true end.

Definition emailExists (email : value) : M bool :=
  emit (EvDb (OpEmailExists email));;
  let* w := get_world in
  ret (has_rows (List.filter (live (by_email email)) (db_users (w_db w)))).

Definition usernameExists (username : value) : M bool :=
  emit (EvDb (OpUsernameExists username));;
  let* w := get_world in
  ret (has_rows (List.filter (live (by_username username)) (db_users (w_db w)))).

End UserRepository.

(** ** AuthService *)

Module AuthService.
Import UserRepository.

Section Service.

Variable L : libraries.
Variable cfg : auth_config.

Definition hashPassword (password : value) : M value :=
  emit (EvHash password);;
  let* w := get_world in
  (fun w' => (Ok tt, tick_entropy w'));;
  match bcrypt_hash L password (bcrypt_saltRounds cfg) (w_entropy w) with
  | Ok h => ret (VStr h)
  | Throw e => throw e
  end.

Definition comparePassword (password hash : value) : M bool :=
  emit (EvCompare password hash);;
  lift (bcrypt_compare L password hash).

(** [jwt.sign(payload, secret, { expiresIn })] on the payload object. *)
Definition sign (payload secret expiresIn : value) : M value :=
  let* w := get_world in
  let claims := own_props (w_heap w) payload in
  emit (EvSign claims secret);;
  match jwt_sign L claims secret expiresIn (w_now w) with
  | Ok t => ret (VStr t)
  | Throw e => throw e
  end.

(** [jwt.verify(token, secret)]; a decoded object payload is a new object. *)
Definition verify (token secret : value) : M value :=
  emit (EvVerify token secret);;
  let* w := get_world in
  match jwt_verify L token secret (w_now w) with
  | Ok (PayloadObj o) => alloc (CObj o)
  | Ok (PayloadStr s) => ret (VStr s)
  | Throw e => throw e
  end.

Definition generateAccessToken (user : value) : M value :=
  let* id := get_prop user "id" in
  let* username := get_prop user "username" in
  let* email := get_prop user "email" in
  let* role_id := get_prop user "role_id" in
  let* role_name := get_prop user "role_name" in
  let* municipality_id := get_prop user "municipality_id" in
  let* payload :=
    new_object [("userId", id); ("username", username); ("email", email);
                ("roleId", role_id); ("roleName", role_name);
                ("municipalityId", municipality_id); ("type", VStr "access")] in
  sign payload (jwt_accessSecret cfg) (jwt_accessExpiresIn cfg).

Definition generateRefreshToken (user : value) : M value :=
  let* id := get_prop user "id" in
  let* payload := new_object [("userId", id); ("type", VStr "refresh")] in
  sign payload (jwt_refreshSecret cfg) (jwt_refreshExpiresIn cfg).

Definition verifyAccessToken (token : value) : M value :=
  verify token (jwt_accessSecret cfg).

Definition verifyRefreshToken (token : value) : M value :=
  verify token (jwt_refreshSecret cfg).

Definition sanitizeUser (user : value) : M value :=
  let* sanitized := spread_copy user in
  delete_prop sanitized "password_hash";;
  ret sanitized.

Definition register (userData : value) : M value :=
  let* username := get_prop userData "username" in
  let* email := get_prop userData "email" in
  let* password := get_prop userData "password" in
  let* roleId := get_prop userData "roleId" in
  let* municipalityId := get_prop userData "municipalityId" in
  let* firstName := get_prop userData "firstName" in
  let* lastName := get_prop userData "lastName" in
  let* phone := get_prop userData "phone" in
  (* Promise.all: both checks run before either result is looked at *)
  let* emailExists := emailExists email in
  let* usernameExists := usernameExists username in
  if emailExists then throw (Error "Email already registered") else
  if usernameExists then throw (Error "Username already taken") else
  let* passwordHash := hashPassword password in
  let* candidate :=
    new_object [("username", username); ("email", email);
                ("passwordHash", passwordHash);
                ("roleId", js_or roleId (VNum 5));
                ("municipalityId", municipalityId);
                ("firstName", firstName); ("lastName", lastName);
                ("phone", phone)] in
  let* user := create candidate in
  let* user_id := get_prop user "id" in
  let* fullUser := findById user_id in
  let* accessToken := generateAccessToken fullUser in
  let* refreshToken := generateRefreshToken fullUser in
  let* sanitized := sanitizeUser fullUser in
  new_object [("user", sanitized); ("accessToken", accessToken);
              ("refreshToken", refreshToken)].

Definition login (login password : value) : M value :=
  let* byEmail := findByEmail login in
  let* user := (if negb (truthy byEmail) then findByUsername login
                else ret byEmail) in
  if negb (truthy user) then throw (Error "Invalid credentials") else
  let* is_active := get_prop user "is_active" in
  if negb (truthy is_active) then throw (Error "Account is inactive") else
  let* password_hash := get_prop user "password_hash" in
  let* isPasswordValid := comparePassword password password_hash in
  if negb isPasswordValid then throw (Error "Invalid credentials") else
  let* id := get_prop user "id" in
  updateLastLogin id;;
  let* accessToken := generateAccessToken user in
  let* refreshToken := generateRefreshToken user in
  let* sanitized := sanitizeUser user in
  new_object [("user", sanitized); ("accessToken", accessToken);
              ("refreshToken", refreshToken)].

Definition refreshToken (refreshToken : value) : M value :=
  let* decoded := verifyRefreshToken refreshToken in
  let* type := get_prop decoded "type" in
  if negb (strict_eq type (VStr "refresh")) then throw (Error "Invalid token type") else
  let* userId := get_prop decoded "userId" in
  let* user := findById userId in
  if negb (truthy user) then throw (Error "User not found") else
  let* is_active := get_prop user "is_active" in
  if negb (truthy is_active) then throw (Error "Account is inactive") else
  let* accessToken := generateAccessToken user in
  new_object [("accessToken", accessToken)].

End Service.

End AuthService.

(** ** Express requests, responses and the two gates *)

Section Gates.

Variable L : libraries.
Variable cfg : auth_config.

Record request := Request {
  req_authorization : value;   (* req.headers.authorization *)
  req_body : value;            (* req.body *)
  req_user : value             (* req.user *)
}.

Definition set_user (u : value) (req : request) : request :=
  {| req_authorization := req_authorization req;
     req_body := req_body req;
     req_user := u |}.

(** [res.status(status).json(body)] *)
Record response := Response { res_status : Z; res_body : value }.

Inductive gate_result :=
| Responded (r : response)
| NextCalled.

Definition respond {A} (wrap : response -> A) (status : Z)
    (props : list (string * value)) : M A :=
  let* body := new_object props in
  ret (wrap (Response status body)).

Fixpoint js_substring_from (n : nat) (s : string) : string :=
  match n, s with
  | O, _ => s
  | S n', String _ s' => js_substring_from n' s'
  | S _, EmptyString => EmptyString
  end.

(** [v.startsWith(p)] for a truthy [v]: only strings have the method. *)
Definition startsWith (v : value) (p : string) : M bool :=
  match v with
  | VStr s => ret (String.prefix p s)
  | _ => throw (TypeError "authHeader.startsWith is not a function")
  end.

Definition substring (v : value) (n : nat) : M value :=
  match v with
  | VStr s => ret (VStr (js_substring_from n s))
  | _ => throw (TypeError "authHeader.substring is not a function")
  end.

Definition authenticate (req : request) : M (request * gate_result) :=
  try_catch
    (let authHeader := req_authorization req in
     let* no_bearer := (if negb (truthy authHeader) then ret true
                        else let* b := startsWith authHeader "Bearer " in
                             ret (negb b)) in
     if no_bearer then
       respond (fun r => (req, Responded r)) 401
         [("status", VStr "error"); ("message", VStr "Authentication required");
          ("code", VStr "NO_TOKEN")]
     else
     let* token := substring authHeader 7 in
     let* decoded := AuthService.verifyAccessToken L cfg token in
     let* type := get_prop decoded "type" in
     if negb (strict_eq type (VStr "access")) then
       respond (fun r => (req, Responded r)) 401
         [("status", VStr "error"); ("message", VStr "Invalid token type");
          ("code", VStr "INVALID_TOKEN_TYPE")]
     else
     let* userId := get_prop decoded "userId" in
     let* username := get_prop decoded "username" in
     let* email := get_prop decoded "email" in
     let* roleId := get_prop decoded "roleId" in
     let* roleName := get_prop decoded "roleName" in
     let* municipalityId := get_prop decoded "municipalityId" in
     let* user := new_object [("userId", userId); ("username", username);
                              ("email", email); ("roleId", roleId);
                              ("roleName", roleName);
                              ("municipalityId", municipalityId)] in
     ret (set_user user req, NextCalled))
    (fun error =>
       if String.eqb (err_name error) "TokenExpiredError" then
         respond (fun r => (req, Responded r)) 401
           [("status", VStr "error"); ("message", VStr "Token expired");
            ("code", VStr "TOKEN_EXPIRED")]
       else if String.eqb (err_name error) "JsonWebTokenError" then
         respond (fun r => (req, Responded r)) 401
           [("status", VStr "error"); ("message", VStr "Invalid token");
            ("code", VStr "INVALID_TOKEN")]
       else
         respond (fun r => (req, Responded r)) 401
           [("status", VStr "error"); ("message", VStr "Authentication failed");
            ("code", VStr "AUTH_FAILED")]).

(** [Array.isArray(v)] *)
Definition isArray (h : gmap loc cell) (v : value) : bool :=
  match v with
  | VRef l => match h !! l with Some (CArr _) => true | _ => false end
  | _ => false
  end.

Definition array_items (h : gmap loc cell) (v : value) : list value :=
  match v with
  | VRef l => match h !! l with Some (CArr a) => a | _ => [] end
  | _ => []
  end.

(** [a.includes(x)]: SameValueZero, which on these values is [===]. *)
Definition includes (a x : value) : M bool :=
  let* w := get_world in
  ret (existsb (fun y => strict_eq y x) (array_items (w_heap w) a)).

(** The handler [authorize(allowedRoles)] returns, closed over [roles]. *)
Definition authorize_handler (roles : value) (req : request) : M gate_result :=
  if negb (truthy (req_user req)) then
    respond Responded 401
      [("status", VStr "error"); ("message", VStr "Authentication required");
       ("code", VStr "NOT_AUTHENTICATED")]
  else
  let* roleName := get_prop (req_user req) "roleName" in
  let* allowed := includes roles roleName in
  if negb allowed then
    let* userRole := get_prop (req_user req) "roleName" in
    respond Responded 403
      [("status", VStr "error");
       ("message", VStr "Access denied. Insufficient permissions.");
       ("code", VStr "FORBIDDEN");
       ("requiredRoles", roles);
       ("userRole", userRole)]
  else ret NextCalled.

Definition authorize (allowedRoles : value) : M (request -> M gate_result) :=
  let* w := get_world in
  let* roles := (if isArray (w_heap w) allowedRoles then ret allowedRoles
                 else new_array [allowedRoles]) in
  ret (authorize_handler roles).

End Gates.

Arguments js_substring_from : simpl never.

(** ** utils/validation *)

Module Validation.

Section Validation.

Variable L : libraries.

Definition isValidEmail (email : value) : bool :=
  match email with
  | VStr s =>
      if negb (truthy email) then false
      else emailRegex_test L s && (Z.of_nat (js_length s) <=? 255)%Z
  | _ => false
  end.

Definition isValidPassword (password : value) : M value :=
  match password with
  | VStr s =>
      if negb (truthy password) then
        new_object [("valid", VBool false); ("error", VStr "Password is required")]
      else if (Z.of_nat (js_length s) <? 8)%Z then
        new_object [("valid", VBool false);
                    ("error", VStr "Password must be at least 8 characters long")]
      else new_object [("valid", VBool true)]
  | _ => new_object [("valid", VBool false); ("error", VStr "Password is required")]
  end.

Definition isValidUsername (username : value) : bool :=
  match username with
  | VStr s => if negb (truthy username) then false else usernameRegex_test L s
  | _ => false
  end.

Definition sanitizeInput (input : value) : value :=
  match input with
  | VStr s => if negb (truthy input) then VStr "" else VStr (str_trim L s)
  | _ => VStr ""
  end.

End Validation.

End Validation.

(** ** AuthController *)

Module AuthController.
Import Validation.

Section Controller.

Variable L : libraries.
Variable cfg : auth_config.

Definition error_body (message code : string) : list (string * value) :=
  [("status", VStr "error"); ("message", VStr message); ("code", VStr code)].

Definition message_is (error : js_error) (m : string) : bool :=
  String.eqb (err_message error) m.

Definition name_is (error : js_error) (n : string) : bool :=
  String.eqb (err_name error) n.

Definition register (req : request) : M response :=
  try_catch
    (let* username := get_prop (req_body req) "username" in
     let* email := get_prop (req_body req) "email" in
     let* password := get_prop (req_body req) "password" in
     let* roleId := get_prop (req_body req) "roleId" in
     let* municipalityId := get_prop (req_body req) "municipalityId" in
     let* firstName := get_prop (req_body req) "firstName" in
     let* lastName := get_prop (req_body req) "lastName" in
     let* phone := get_prop (req_body req) "phone" in
     if negb (truthy username) || negb (truthy email) || negb (truthy password) then
       let* required := new_array [VStr "username"; VStr "email"; VStr "password"] in
       respond id 400
         (error_body "Missing required fields" "MISSING_FIELDS"
            ++ [("required", required)])
     else
     let sanitizedUsername := sanitizeInput L username in
     let sanitizedEmail := sanitizeInput L email in
     if negb (isValidEmail L sanitizedEmail) then
       respond id 400 (error_body "Invalid email format" "INVALID_EMAIL")
     else
     if negb (isValidUsername L sanitizedUsername) then
       respond id 400
         (error_body
            "Invalid username. Must be 3-100 characters, alphanumeric with underscore or hyphen."
            "INVALID_USERNAME")
     else
     let* passwordValidation := isValidPassword password in
     let* valid := get_prop passwordValidation "valid" in
     if negb (truthy valid) then
       let* message := get_prop passwordValidation "error" in
       respond id 400
         [("status", VStr "error"); ("message", message);
          ("code", VStr "INVALID_PASSWORD")]
     else
     let* userData :=
       new_object
         [("username", sanitizedUsername); ("email", sanitizedEmail);
          ("password", password); ("roleId", roleId);
          ("municipalityId", municipalityId);
          ("firstName", if truthy firstName then sanitizeInput L firstName else VNull);
          ("lastName", if truthy lastName then sanitizeInput L lastName else VNull);
          ("phone", if truthy phone then sanitizeInput L phone else VNull)] in
     let* result := AuthService.register L cfg userData in
     let* user := get_prop result "user" in
     let* accessToken := get_prop result "accessToken" in
     let* refreshToken := get_prop result "refreshToken" in
     let* data := new_object [("user", user); ("accessToken", accessToken);
                              ("refreshToken", refreshToken)] in
     respond id 201
       [("status", VStr "success"); ("message", VStr "User registered successfully");
        ("data", data)])
    (fun error =>
       emit (EvConsoleError "Registration error:" error);;
       if message_is error "Email already registered"
          || message_is error "Username already taken" then
         respond id 400
           [("status", VStr "error"); ("message", VStr (err_message error));
            ("code", VStr "DUPLICATE_USER")]
       else
         respond id 500 (error_body "Registration failed" "REGISTRATION_ERROR")).

Definition login (req : request) : M response :=
  try_catch
    (let* login_field := get_prop (req_body req) "login" in
     let* password := get_prop (req_body req) "password" in
     if negb (truthy login_field) || negb (truthy password) then
       let* required := new_array [VStr "login"; VStr "password"] in
       respond id 400
         (error_body "Missing required fields" "MISSING_FIELDS"
            ++ [("required", required)])
     else
     let sanitizedLogin := sanitizeInput L login_field in
     let* result := AuthService.login L cfg sanitizedLogin password in
     let* user := get_prop result "user" in
     let* accessToken := get_prop result "accessToken" in
     let* refreshToken := get_prop result "refreshToken" in
     let* data := new_object [("user", user); ("accessToken", accessToken);
                              ("refreshToken", refreshToken)] in
     respond id 200
       [("status", VStr "success"); ("message", VStr "Login successful");
        ("data", data)])
    (fun error =>
       emit (EvConsoleError "Login error:" error);;
       if message_is error "Invalid credentials"
          || message_is error "Account is inactive" then
         respond id 401
           [("status", VStr "error"); ("message", VStr (err_message error));
            ("code", VStr "AUTHENTICATION_FAILED")]
       else
         respond id 500 (error_body "Login failed" "LOGIN_ERROR")).

Definition me (req : request) : M response :=
  try_catch
    (let* userId := get_prop (req_user req) "userId" in
     let* user := UserRepository.findById userId in
     if negb (truthy user) then
       respond id 404 (error_body "User not found" "USER_NOT_FOUND")
     else
     let* sanitizedUser := AuthService.sanitizeUser user in
     let* data := new_object [("user", sanitizedUser)] in
     respond id 200 [("status", VStr "success"); ("data", data)])
    (fun error =>
       emit (EvConsoleError "Get user error:" error);;
       respond id 500
         (error_body "Failed to retrieve user information" "GET_USER_ERROR")).

Definition refresh (req : request) : M response :=
  try_catch
    (let* token := get_prop (req_body req) "refreshToken" in
     if negb (truthy token) then
       respond id 400 (error_body "Refresh token is required" "MISSING_REFRESH_TOKEN")
     else
     let* result := AuthService.refreshToken L cfg token in
     let* accessToken := get_prop result "accessToken" in
     let* data := new_object [("accessToken", accessToken)] in
     respond id 200
       [("status", VStr "success"); ("message", VStr "Token refreshed successfully");
        ("data", data)])
    (fun error =>
       emit (EvConsoleError "Token refresh error:" error);;
       if name_is error "TokenExpiredError" then
         respond id 401 (error_body "Refresh token expired" "TOKEN_EXPIRED")
       else if name_is error "JsonWebTokenError"
               || message_is error "Invalid token type" then
         respond id 401 (error_body "Invalid refresh token" "INVALID_TOKEN")
       else if message_is error "User not found"
               || message_is error "Account is inactive" then
         respond id 401
           [("status", VStr "error"); ("message", VStr (err_message error));
            ("code", VStr "REFRESH_FAILED")]
       else
         respond id 500 (error_body "Token refresh failed" "REFRESH_ERROR")).

Definition logout (req : request) : M response :=
  try_catch
    (respond id 200
       [("status", VStr "success"); ("message", VStr "Logout successful")])
    (fun error =>
       emit (EvConsoleError "Logout error:" error);;
       respond id 500 (error_body "Logout failed" "LOGOUT_ERROR")).

End Controller.

End AuthController.

(** ** A small deployment used to exercise the statements

    One user, one role, and stand-ins for the two libraries: the hash of
    [p] is [p] behind a fixed prefix, and a token is the text of its kind
    claim, valid until time 1000 under whatever secret. *)

Module Demo.

Definition libs : libraries :=
  {| bcrypt_hash := fun p _ _ =>
       match p with
       | VStr s => Ok ("$2b$" ++ s)
       | _ => Throw (Error "data must be a string or Buffer")
       end;
     bcrypt_compare := fun p h =>
       match p, h with
       | VStr s, VStr t => Ok (String.eqb ("$2b$" ++ s) t)
       | _, _ => Throw (Error "data and hash must be strings")
       end;
     jwt_sign := fun o _ _ _ =>
       match o !! "type" with
       | Some (VStr k) => Ok k
       | _ => Throw (Error "payload has no kind")
       end;
     jwt_verify := fun t _ now =>
       match t with
       | VStr k =>
           if (1000 <? now)%Z then Throw (JsError "TokenExpiredError" "jwt expired")
           else if String.eqb k "access" then
             Ok (PayloadObj (list_to_map
                   [("userId", VNum 1); ("username", VStr "alice");
                    ("email", VStr "alice@example.com"); ("roleId", VNum 5);
                    ("roleName", VStr "viewer"); ("municipalityId", VNull);
                    ("type", VStr "access")]))
           else if String.eqb k "refresh" then
             Ok (PayloadObj (list_to_map [("userId", VNum 1); ("type", VStr "refresh")]))
           else Throw (JsError "JsonWebTokenError" "jwt malformed")
       | _ => Throw (JsError "JsonWebTokenError" "jwt must be a string")
       end;
     str_trim := fun s => s;
     emailRegex_test := fun _ => true;
     usernameRegex_test := fun _ => true |}.

Definition cfg : auth_config :=
  {| jwt_accessSecret := VStr "access-secret";
     jwt_accessExpiresIn := VStr "15m";
     jwt_refreshSecret := VStr "refresh-secret";
     jwt_refreshExpiresIn := VStr "7d";
     bcrypt_saltRounds := VNum 10 |}.

Definition alice : user_row :=
  {| u_id := 1; u_username := VStr "alice"; u_email := VStr "alice@example.com";
     u_password_hash := VStr "$2b$correct horse";
     u_role_id := VNum 5; u_municipality_id := VNull;
     u_first_name := VStr "Alice"; u_last_name := VNull; u_phone := VNull;
     u_profile_image_url := VNull; u_is_active := true;
     u_last_login := VNull; u_email_verified := VNull;
     u_created_at := VNum 10; u_updated_at := VNum 10; u_deleted_at := None |}.

Definition bob_inactive : user_row :=
  {| u_id := 2; u_username := VStr "bob"; u_email := VStr "bob@example.com";
     u_password_hash := VStr "$2b$hunter22";
     u_role_id := VNum 1; u_municipality_id := VNum 7;
     u_first_name := VNull; u_last_name := VNull; u_phone := VNull;
     u_profile_image_url := VNull; u_is_active := false;
     u_last_login := VNull; u_email_verified := VNull;
     u_created_at := VNum 11; u_updated_at := VNum 11; u_deleted_at := None |}.

(** Alice after an administrator switched her account off. *)
Definition alice_deactivated : user_row :=
  {| u_id := 1; u_username := VStr "alice"; u_email := VStr "alice@example.com";
     u_password_hash := VStr "$2b$correct horse";
     u_role_id := VNum 5; u_municipality_id := VNull;
     u_first_name := VStr "Alice"; u_last_name := VNull; u_phone := VNull;
     u_profile_image_url := VNull; u_is_active := false;
     u_last_login := VNull; u_email_verified := VNull;
     u_created_at := VNum 10; u_updated_at := VNum 10; u_deleted_at := None |}.

Definition viewer : role_row :=
  {| r_id := 5; r_role_name := VStr "viewer"; r_permissions := VNull |}.
Definition admin : role_row :=
  {| r_id := 1; r_role_name := VStr "admin"; r_permissions := VNull |}.

Definition db : database :=
  {| db_users := [alice; bob_inactive]; db_roles := [admin; viewer]; db_next_id := 3 |}.

(** An identity row as [findByEmail] hands it out, at reference 0. *)
Definition heap0 : gmap loc cell :=
  {[ 0%nat := CObj (list_to_map (UserRepository.columns_with_hash (alice, Some viewer))) ]}.

Definition world0 : world :=
  {| w_heap := heap0; w_db := db; w_trace := []; w_now := 100; w_entropy := 0 |}.

Definition world_with (users : list user_row) : world :=
  {| w_heap := ∅;
     w_db := {| db_users := users; db_roles := [admin; viewer]; db_next_id := 3 |};
     w_trace := []; w_now := 100; w_entropy := 0 |}.

(** A route restricted to admin and manager, and two attached identities. *)
Definition identity (roleId : Z) (roleName : string) : gmap string value :=
  list_to_map [("userId", VNum 1); ("username", VStr "alice");
               ("email", VStr "alice@example.com"); ("roleId", VNum roleId);
               ("roleName", VStr roleName); ("municipalityId", VNull)].

Definition gate_world : world :=
  {| w_heap := {[ 0%nat := CArr [VStr "admin"; VStr "manager"];
                  1%nat := CObj (identity 5 "viewer");
                  2%nat := CObj (identity 1 "admin") ]};
     w_db := db; w_trace := []; w_now := 100; w_entropy := 0 |}.

Definition request_of (user : value) : request :=
  {| req_authorization := VUndefined; req_body := VUndefined; req_user := user |}.

(** A request whose JSON body sits at reference 0. *)
Definition world_with_body (body : list (string * value)) : world :=
  {| w_heap := {[ 0%nat := CObj (list_to_map body) ]};
     w_db := db; w_trace := []; w_now := 100; w_entropy := 0 |}.

Definition body_request : request :=
  {| req_authorization := VUndefined; req_body := VRef 0%nat; req_user := VUndefined |}.

Definition bearer (token : string) : request :=
  {| req_authorization := VStr ("Bearer " ++ token);
     req_body := VUndefined; req_user := VUndefined |}.

End Demo.

(** * Vocabulary of the statements *)

Local Open Scope list_scope.

(** The properties of the object a response carries. *)
Definition body_of (w : world) (r : response) : gmap string value :=
  own_props (w_heap w) (res_body r).

(** [decoded.k] for what [jwt.verify] returned. *)
Definition payload_claim (p : jwt_payload) (k : string) : value :=
  match p with
  | PayloadObj o => prop_of o k
  | PayloadStr _ => VUndefined
  end.

(** The gate answered with status 401 and the given message and code,
    and left the request as it was. *)
Definition rejected_with (req : request) (message code : string)
    (out : result (request * gate_result) * world) : Prop :=
  exists r, out.1 = Ok (req, Responded r)
    /\ res_status r = 401
    /\ body_of out.2 r =
         list_to_map [("status", VStr "error"); ("message", VStr message);
                      ("code", VStr code)].

(** The claim set [generateAccessToken] signs for an identity object. *)
Definition access_claims (o : gmap string value) : gmap string value :=
  list_to_map [("userId", prop_of o "id"); ("username", prop_of o "username");
               ("email", prop_of o "email"); ("roleId", prop_of o "role_id");
               ("roleName", prop_of o "role_name");
               ("municipalityId", prop_of o "municipality_id");
               ("type", VStr "access")].

(** The claim set [generateRefreshToken] signs. *)
Definition refresh_claims (o : gmap string value) : gmap string value :=
  list_to_map [("userId", prop_of o "id"); ("type", VStr "refresh")].

Definition role_name_of (r : option role_row) : value :=
  match r with Some r => r_role_name r | None => VNull end.

(** The access claims of a stored identity, read off its row. *)
Definition row_access_claims (row : user_row * option role_row) : gmap string value :=
  list_to_map [("userId", VNum (u_id row.1)); ("username", u_username row.1);
               ("email", u_email row.1); ("roleId", u_role_id row.1);
               ("roleName", role_name_of row.2);
               ("municipalityId", u_municipality_id row.1);
               ("type", VStr "access")].

(** The world after a payload object was built and handed to [jwt.sign]. *)
Definition signed_world (claims : gmap string value) (secret : value) (w : world)
  : world :=
  log_event (EvSign claims secret)
    (set_heap (<[fresh (dom (w_heap w)) := CObj claims]> (w_heap w)) w).

Definition sign_result (r : result string) : result value :=
  match r with Ok t => Ok (VStr t) | Throw e => Throw e end.

Definition found_value {A} (rows : list A) (w : world) : value :=
  match rows with
  | _ :: _ => VRef (fresh (dom (w_heap w)))
  | [] => VNull
  end.

Definition found_world (op : db_op)
    (cols : user_row * option role_row -> list (string * value))
    (rows : list (user_row * option role_row)) (w : world) : world :=
  match rows with
  | row :: _ =>
      set_heap (<[fresh (dom (w_heap w)) := CObj (list_to_map (cols row))]> (w_heap w))
               (log_event (EvDb op) w)
  | [] => log_event (EvDb op) w
  end.

(** What is assumed of the token library when tokens issued by this
    service are concerned: a token that verifies, under whatever secret,
    decodes to the kind claim it was signed with. *)
Definition verify_keeps_signed_kind (L : libraries) : Prop :=
  forall claims secret expiresIn t token secret' now p,
    jwt_sign L claims secret expiresIn t = Ok token ->
    jwt_verify L (VStr token) secret' now = Ok p ->
    payload_claim p "type" = prop_of claims "type".

(** The role list a route was registered with: the array itself, or the
    one-element array made from a single role. *)
Definition configured_roles (h : gmap loc cell) (allowedRoles : value) : list value :=
  if isArray h allowedRoles then array_items h allowedRoles else [allowedRoles].

(** The row a login identifier resolves to: the first match on the email
    column, else the first match on the username column. *)
Definition resolve_login (d : database) (login : value)
  : option (user_row * option role_row) :=
  match UserRepository.select_users d (UserRepository.by_email login) with
  | row :: _ => Some row
  | [] =>
      match UserRepository.select_users d (UserRepository.by_username login) with
      | row :: _ => Some row
      | [] => None
      end
  end.

Definition no_compare (evs : list event) : Prop :=
  forallb (fun e => negb (is_compare e)) evs = true.

(** A field of the request body as the controller destructures it. *)
Definition body_field (w : world) (req : request) (k : string) : value :=
  prop_of (own_props (w_heap w) (req_body req)) k.

(** The two ways credentials can be wrong. *)
Definition unknown_login (d : database) (login : value) : Prop :=
  resolve_login d login = None.

Definition wrong_password (L : libraries) (d : database) (login password : value) : Prop :=
  exists u r,
    resolve_login d login = Some (u, r)
    /\ u_is_active u = true
    /\ bcrypt_compare L password (u_password_hash u) = Ok false.

(** A field of the candidate object handed to [register]. *)
Definition candidate_field (w : world) (userData : value) (k : string) : value :=
  prop_of (own_props (w_heap w) userData) k.

(** Some non-deleted row satisfies the condition. *)
Definition stored (d : database) (cond : user_row -> bool) : Prop :=
  exists u, u ∈ db_users d /\ cond u = true /\ u_deleted_at u = None.

Definition no_writes (evs : list event) : Prop :=
  forallb (fun e => negb (is_db_write e)) evs = true.

(** A computation that does not write to the directory and only adds
    non-writing events to the trace, whatever its outcome. *)
Definition appends_only {A} (m : M A) : Prop :=
  forall w,
    w_db (m w).2 = w_db w
    /\ exists evs, w_trace (m w).2 = w_trace w ++ evs /\ no_writes evs.

(** The row [create] inserts for a candidate object. *)
Definition created_row (d : database) (now : Z) (candidate : gmap string value)
  : user_row :=
  UserRepository.inserted_row d now
    (prop_of candidate "username") (prop_of candidate "email")
    (prop_of candidate "passwordHash") (prop_of candidate "roleId")
    (prop_of candidate "municipalityId") (prop_of candidate "firstName")
    (prop_of candidate "lastName") (prop_of candidate "phone").

(** The object [register] hands to [create]. *)
Definition register_candidate (w : world) (userData : value) (passwordHash : string)
  : gmap string value :=
  list_to_map
    [("username", candidate_field w userData "username");
     ("email", candidate_field w userData "email");
     ("passwordHash", VStr passwordHash);
     ("roleId", js_or (candidate_field w userData "roleId") (VNum 5));
     ("municipalityId", candidate_field w userData "municipalityId");
     ("firstName", candidate_field w userData "firstName");
     ("lastName", candidate_field w userData "lastName");
     ("phone", candidate_field w userData "phone")].

Definition taken (d : database) (cond : user_row -> bool) : bool :=
  UserRepository.has_rows (List.filter (UserRepository.live cond) (db_users d)).

Definition falsy_values : list value :=
  [VUndefined; VNull; VBool false; VNum 0; VStr ""].

(** Partial-correctness triples over normal returns. *)
Definition hoare {A} (P : world -> Prop) (m : M A) (Q : A -> world -> Prop) : Prop :=
  forall w a w', P w -> m w = (Ok a, w') -> Q a w'.

(** [v] refers to an object with properties [o]. *)
Definition cell_at (w : world) (v : value) (o : gmap string value) : Prop :=
  exists l, v = VRef l /\ w_heap w !! l = Some (CObj o).

(** [v] refers to an object that has no [password_hash] property. *)
Definition hashless (w : world) (v : value) : Prop :=
  exists o, cell_at w v o /\ o !! "password_hash" = None.

(** An assertion that survives the allocation of a new cell. *)
Definition heap_stable (P : world -> Prop) : Prop :=
  forall w c, P w -> P (set_heap (<[fresh (dom (w_heap w)) := c]> (w_heap w)) w).

(** The identity a response exposes, at [data.user] of its body. *)
Definition exposed_identity (w : world) (r : response) : value :=
  prop_of (own_props (w_heap w) (prop_of (body_of w r) "data")) "user".

Definition exposes_no_hash (w : world) (r : response) : Prop :=
  own_props (w_heap w) (exposed_identity w r) !! "password_hash" = None.

(** What is required of an endpoint's response, [ok] being its success
    status: nothing under [data.user] carries a password hash, and on
    success [data.user] is an object. *)
Definition safe_response (ok : Z) (r : response) (w : world) : Prop :=
  exposes_no_hash w r /\ (res_status r = ok -> hashless w (exposed_identity w r)).

(** What the services return: an object whose [user] is hashless. *)
Definition identity_result (v : value) (w : world) : Prop :=
  exists s a t,
    cell_at w v (list_to_map [("user", s); ("accessToken", a); ("refreshToken", t)])
    /\ hashless w s.

(** The identity context the authentication gate attaches. *)
Definition gate_context (w : world) (req : request) : Prop :=
  exists o,
    cell_at w (req_user req) o
    /\ o !! "password_hash" = None
    /\ dom o = ({["userId"; "username"; "email"; "roleId"; "roleName";
                  "municipalityId"]} : gset string).

(** ** Vocabulary of the further properties *)

(** A computation whose effect on the directory stays within [R] and
    whose events all satisfy [ok], whatever its outcome. *)
Definition confined {A} (R : database -> database -> Prop) (ok : event -> bool)
    (m : M A) : Prop :=
  forall w,
    R (w_db w) (w_db (m w).2)
    /\ exists evs, w_trace (m w).2 = w_trace w ++ evs /\ forallb ok evs = true.

(** [UPDATE users SET last_login = now WHERE id = $1] on the whole table. *)
Definition touch_db (id : value) (now : Z) (d : database) : database :=
  {| db_users := map (UserRepository.touch_last_login id now) (db_users d);
     db_roles := db_roles d;
     db_next_id := db_next_id d |}.

Definition is_verify (e : event) : bool :=
  match e with EvVerify _ _ => true | _ => false end.

(** What a caller and the next handler can observe of a run of the
    authentication gate: the identity attached, or the status and body of
    the response. *)
Definition gate_view (out : result (request * gate_result) * world)
  : option (gmap string value + Z * gmap string value) :=
  match out.1 with
  | Ok (req', NextCalled) => Some (inl (own_props (w_heap out.2) (req_user req')))
  | Ok (_, Responded r) => Some (inr (res_status r, body_of out.2 r))
  | Throw _ => None
  end.

Definition gate_error (message code : string)
  : gmap string value + Z * gmap string value :=
  inr (401, list_to_map [("status", VStr "error"); ("message", VStr message);
                         ("code", VStr code)]).

(** The gate's observable outcome as a function of the header, the codec
    and the clock alone. *)
Definition gate_decision (L : libraries) (cfg : auth_config) (header : value) (now : Z)
  : gmap string value + Z * gmap string value :=
  if negb (truthy header) then gate_error "Authentication required" "NO_TOKEN" else
  match header with
  | VStr s =>
      if String.prefix "Bearer " s then
        match jwt_verify L (VStr (js_substring_from 7 s)) (jwt_accessSecret cfg) now with
        | Ok p =>
            if strict_eq (payload_claim p "type") (VStr "access") then
              inl (list_to_map
                     [("userId", payload_claim p "userId");
                      ("username", payload_claim p "username");
                      ("email", payload_claim p "email");
                      ("roleId", payload_claim p "roleId");
                      ("roleName", payload_claim p "roleName");
                      ("municipalityId", payload_claim p "municipalityId")])
            else gate_error "Invalid token type" "INVALID_TOKEN_TYPE"
        | Throw e =>
            if String.eqb (err_name e) "TokenExpiredError" then
              gate_error "Token expired" "TOKEN_EXPIRED"
            else if String.eqb (err_name e) "JsonWebTokenError" then
              gate_error "Invalid token" "INVALID_TOKEN"
            else gate_error "Authentication failed" "AUTH_FAILED"
        end
      else gate_error "Authentication required" "NO_TOKEN"
  | _ => gate_error "Authentication failed" "AUTH_FAILED"
  end.

(** No two non-deleted rows agree (in SQL's sense) on the column [key]. *)
Definition clash (key : user_row -> value) (u v : user_row) : bool :=
  UserRepository.not_deleted u && UserRepository.not_deleted v
  && UserRepository.sql_eq (key u) (key v).

Fixpoint unique_live (key : user_row -> value) (l : list user_row) : bool :=
  match l with
  | [] => true
  | u :: rest => forallb (fun v => negb (clash key u v)) rest && unique_live key rest
  end.

(** Ids are pairwise distinct and below the next id to be handed out. *)
Definition ids_ok (d : database) : Prop :=
  NoDup (map u_id (db_users d))
  /\ Forall (fun u => u_id u < db_next_id d) (db_users d).

Definition directory_ok (d : database) : Prop :=
  ids_ok d
  /\ unique_live u_email (db_users d) = true
  /\ unique_live u_username (db_users d) = true.

Definition is_read_or_log (e : event) : bool :=
  match e with
  | EvDb (OpFindById _) | EvConsoleError _ _ => true
  | _ => false
  end.

(** The calls a token refresh may make: verification, the lookup by id,
    a signature under the access secret, and the error log. *)
Definition renewal_event (cfg : auth_config) (e : event) : bool :=
  match e with
  | EvVerify _ _ | EvDb (OpFindById _) | EvConsoleError _ _ => true
  | EvSign _ secret => bool_decide (secret = jwt_accessSecret cfg)
  | _ => false
  end.

(** The claim set a refresh token carries for a stored identity. *)
Definition row_refresh_claims (row : user_row * option role_row) : gmap string value :=
  list_to_map [("userId", VNum (u_id row.1)); ("type", VStr "refresh")].

(** The directory queries [login] makes to resolve an identifier. *)
Definition lookup_events (d : database) (login : value) : list event :=
  EvDb (OpFindByEmail login)
  :: match UserRepository.select_users d (UserRepository.by_email login) with
     | [] => [EvDb (OpFindByUsername login)]
     | _ :: _ => []
     end.

(** The public view of a stored identity: every selected column but the
    password hash. *)
Definition public_identity (row : user_row * option role_row) : gmap string value :=
  delete "password_hash" (list_to_map (UserRepository.columns_with_hash row)).

(** The first row a LEFT JOIN on roles yields for a user: the user with
    the first role carrying its role id, if there is one. *)
Definition joined (d : database) (u : user_row) : user_row * option role_row :=
  (u, head (List.filter (fun r => UserRepository.sql_eq (u_role_id u) (VNum (r_id r)))
                        (db_roles d))).

(** The RETURNING list of [create]. *)
Definition returning_columns (row : user_row) : list (string * value) :=
  [("id", VNum (u_id row)); ("username", u_username row); ("email", u_email row);
   ("role_id", u_role_id row); ("municipality_id", u_municipality_id row);
   ("first_name", u_first_name row); ("last_name", u_last_name row);
   ("phone", u_phone row); ("is_active", VBool (u_is_active row));
   ("created_at", u_created_at row)].

(** The stand-in libraries with a signer that refuses every payload, as
    [jsonwebtoken] does when the secret is missing. *)
Definition libs_without_secret : libraries :=
  {| bcrypt_hash := bcrypt_hash Demo.libs;
     bcrypt_compare := bcrypt_compare Demo.libs;
     jwt_sign := fun _ _ _ _ => Throw (Error "secretOrPrivateKey must have a value");
     jwt_verify := jwt_verify Demo.libs;
     str_trim := str_trim Demo.libs;
     emailRegex_test := emailRegex_test Demo.libs;
     usernameRegex_test := usernameRegex_test Demo.libs |}.

(** [register] suspends at its first [await], on the two existence
    queries.  What it holds when it is resumed are the fields it
    destructured and the two answers. *)
Record pending_registration := PendingRegistration {
  pr_username : value;
  pr_email : value;
  pr_password : value;
  pr_roleId : value;
  pr_municipalityId : value;
  pr_firstName : value;
  pr_lastName : value;
  pr_phone : value;
  pr_emailExists : bool;
  pr_usernameExists : bool
}.

(** [register] from its entry to the answers of the two queries ... *)
Definition register_until_checked (userData : value) : M pending_registration :=
  let* username := get_prop userData "username" in
  let* email := get_prop userData "email" in
  let* password := get_prop userData "password" in
  let* roleId := get_prop userData "roleId" in
  let* municipalityId := get_prop userData "municipalityId" in
  let* firstName := get_prop userData "firstName" in
  let* lastName := get_prop userData "lastName" in
  let* phone := get_prop userData "phone" in
  let* emailExists := UserRepository.emailExists email in
  let* usernameExists := UserRepository.usernameExists username in
  ret (PendingRegistration username email password roleId municipalityId
         firstName lastName phone emailExists usernameExists).

(** ... and from there to its end. *)
Definition register_once_checked (L : libraries) (cfg : auth_config)
    (p : pending_registration) : M value :=
  if pr_emailExists p then throw (Error "Email already registered") else
  if pr_usernameExists p then throw (Error "Username already taken") else
  let* passwordHash := AuthService.hashPassword L cfg (pr_password p) in
  let* candidate :=
    new_object [("username", pr_username p); ("email", pr_email p);
                ("passwordHash", passwordHash);
                ("roleId", js_or (pr_roleId p) (VNum 5));
                ("municipalityId", pr_municipalityId p);
                ("firstName", pr_firstName p); ("lastName", pr_lastName p);
                ("phone", pr_phone p)] in
  let* user := UserRepository.create candidate in
  let* user_id := get_prop user "id" in
  let* fullUser := UserRepository.findById user_id in
  let* accessToken := AuthService.generateAccessToken L cfg fullUser in
  let* refreshToken := AuthService.generateRefreshToken L cfg fullUser in
  let* sanitized := AuthService.sanitizeUser fullUser in
  new_object [("user", sanitized); ("accessToken", accessToken);
              ("refreshToken", refreshToken)].

(** Resuming a suspended call: one that already failed stays failed. *)
Definition resumed (L : libraries) (cfg : auth_config)
    (p : result pending_registration) : M value :=
  match p with
  | Ok p => register_once_checked L cfg p
  | Throw e => throw e
  end.

(** Two registration requests on one event loop: each runs until it
    suspends on its existence queries, then each is resumed in turn.  The
    two are separate requests: the failure of one does not stop the
    other. *)
Definition two_registrations_racing (L : libraries) (cfg : auth_config)
    (a b : value) (w : world) : (result value * result value) * world :=
  let (pa, w1) := register_until_checked a w in
  let (pb, w2) := register_until_checked b w1 in
  let (ra, w3) := resumed L cfg pa w2 in
  let (rb, w4) := resumed L cfg pb w3 in
  ((ra, rb), w4).

(** The directory with its soft-deleted rows physically removed. *)
Definition purge (d : database) : database :=
  {| db_users := List.filter UserRepository.not_deleted (db_users d);
     db_roles := db_roles d;
     db_next_id := db_next_id d |}.

Definition purged (w : world) : world := set_db (purge (w_db w)) w.

(** A computation that cannot tell whether soft-deleted rows are still
    stored: run on the purged directory it has the same outcome, the same
    store of objects and the same events, and leaves the purged form of
    the directory it leaves otherwise. *)
Definition blind_to_deleted {A} (m : M A) : Prop :=
  forall w, m (purged w) = ((m w).1, purged (m w).2).

(** The identity the gate attaches for the access claims of a stored
    identity. *)
Definition row_identity (row : user_row * option role_row) : gmap string value :=
  list_to_map [("userId", VNum (u_id row.1)); ("username", u_username row.1);
               ("email", u_email row.1); ("roleId", u_role_id row.1);
               ("roleName", role_name_of row.2);
               ("municipalityId", u_municipality_id row.1)].

(** What is assumed of the token library for one access token: verified
    at time [now], it decodes to a payload holding every claim it was
    signed over at time [issued] (the library adds claims of its own, such
    as the expiry). *)
Definition decodes_what_was_signed (L : libraries) (cfg : auth_config)
    (token : string) (issued now : Z) : Prop :=
  forall claims,
    jwt_sign L claims (jwt_accessSecret cfg) (jwt_accessExpiresIn cfg) issued = Ok token ->
    exists o,
      jwt_verify L (VStr token) (jwt_accessSecret cfg) now = Ok (PayloadObj o)
      /\ claims ⊆ o.

(** A stand-in token library that knows one identity: it signs the claim
    sets of Alice only and decodes her tokens to those claims plus the
    issue and expiry times. *)
Definition alice_claims : gmap string value :=
  row_access_claims (Demo.alice, Some Demo.viewer).

Definition alice_codec : libraries :=
  {| bcrypt_hash := bcrypt_hash Demo.libs;
     bcrypt_compare := bcrypt_compare Demo.libs;
     jwt_sign := fun claims _ _ _ =>
       if bool_decide (claims = alice_claims) then Ok "alice.access"
       else if bool_decide (claims = row_refresh_claims (Demo.alice, Some Demo.viewer))
       then Ok "alice.refresh"
       else Throw (Error "unknown identity");
     jwt_verify := fun t _ now =>
       match t with
       | VStr k =>
           if (1000 <? now)%Z then Throw (JsError "TokenExpiredError" "jwt expired")
           else if String.eqb k "alice.access" then
             Ok (PayloadObj (<["iat" := VNum 100]> (<["exp" := VNum 1000]> alice_claims)))
           else Throw (JsError "JsonWebTokenError" "jwt malformed")
       | _ => Throw (JsError "JsonWebTokenError" "jwt must be a string")
       end;
     str_trim := str_trim Demo.libs;
     emailRegex_test := emailRegex_test Demo.libs;
     usernameRegex_test := usernameRegex_test Demo.libs |}.

(** The status of a response and the [code] field of its body
    ([undefined] on success bodies, which carry none). *)
Definition outcome (r : response) (w : world) : Z * value :=
  (res_status r, prop_of (body_of w r) "code").

Definition answers_within (table : list (Z * value)) (r : response) (w : world) : Prop :=
  outcome r w ∈ table.

(** The answers each endpoint can give. *)
Definition register_answers : list (Z * value) :=
  [(201, VUndefined); (400, VStr "MISSING_FIELDS"); (400, VStr "INVALID_EMAIL");
   (400, VStr "INVALID_USERNAME"); (400, VStr "INVALID_PASSWORD");
   (400, VStr "DUPLICATE_USER"); (500, VStr "REGISTRATION_ERROR")].

Definition login_answers : list (Z * value) :=
  [(200, VUndefined); (400, VStr "MISSING_FIELDS");
   (401, VStr "AUTHENTICATION_FAILED"); (500, VStr "LOGIN_ERROR")].

Definition me_answers : list (Z * value) :=
  [(200, VUndefined); (404, VStr "USER_NOT_FOUND"); (500, VStr "GET_USER_ERROR")].

Definition refresh_answers : list (Z * value) :=
  [(200, VUndefined); (400, VStr "MISSING_REFRESH_TOKEN"); (401, VStr "TOKEN_EXPIRED");
   (401, VStr "INVALID_TOKEN"); (401, VStr "REFRESH_FAILED");
   (500, VStr "REFRESH_ERROR")].

(** The endpoint answered with the given status and body. *)
Definition answers (out : result response * world) (status : Z)
    (body : list (string * value)) : Prop :=
  exists r, out.1 = Ok r /\ res_status r = status
            /\ body_of out.2 r = list_to_map body.

(** The endpoint answered 200 with a [data] object of the given
    properties. *)
Definition answers_data (out : result response * world) (message : list (string * value))
    (data : gmap string value) : Prop :=
  exists r d, out.1 = Ok r /\ res_status r = 200
              /\ body_of out.2 r =
                   list_to_map ([("status", VStr "success")] ++ message ++ [("data", d)])
              /\ own_props (w_heap out.2) d = data.

(** A string whose [length] (in UTF-16 code units) is at least eight. *)
Definition long_enough (password : value) : bool :=
  match password with
  | VStr s => negb (Z.ltb (Z.of_nat (js_length s)) 8)
  | _ => false
  end.

(** The endpoint answered 400 MISSING_FIELDS, naming the required
    fields. *)
Definition answers_missing (out : result response * world) (required : list value)
  : Prop :=
  exists r a, out.1 = Ok r /\ res_status r = 400
              /\ body_of out.2 r =
                   list_to_map [("status", VStr "error");
                                ("message", VStr "Missing required fields");
                                ("code", VStr "MISSING_FIELDS"); ("required", a)]
              /\ array_items (w_heap out.2) a = required.

Definition untouched (w : world) (out : result response * world) : Prop :=
  w_db out.2 = w_db w /\ w_trace out.2 = w_trace w.

(** * Properties *)

(** ** Reasoning about runs *)

Lemma heap_fresh (h : gmap loc cell) : h !! fresh (dom h) = None.
Proof. apply not_elem_of_dom, is_fresh. Qed.

Lemma prop_of_empty k : prop_of ∅ k = VUndefined.
Proof. unfold prop_of. by rewrite lookup_empty. Qed.

Lemma prop_of_lookup (o : gmap string value) k v :
  o !! k = Some v -> prop_of o k = v.
Proof. intros H. unfold prop_of. by rewrite H. Qed.

Lemma strict_eq_spec a b : strict_eq a b = true <-> a = b.
Proof.
  destruct a, b; simpl; try (split; [discriminate | congruence]); try done.
  - rewrite Bool.eqb_true_iff. split; congruence.
  - rewrite Z.eqb_eq. split; congruence.
  - rewrite String.eqb_eq. split; congruence.
  - rewrite Nat.eqb_eq. split; congruence.
Qed.

Lemma strict_eq_refl a : strict_eq a a = true.
Proof. by apply strict_eq_spec. Qed.

Lemma strict_eq_false a b : a <> b -> strict_eq a b = false.
Proof.
  intros H. destruct (strict_eq a b) eqn:E; [| done].
  by apply strict_eq_spec in E.
Qed.

Lemma bearer_truthy s : String.prefix "Bearer " s = true -> truthy (VStr s) = true.
Proof. destruct s; [discriminate | reflexivity]. Qed.

(** ** sanitizeUser *)

Lemma sanitizeUser_run w user :
  AuthService.sanitizeUser user w =
    (Ok (VRef (fresh (dom (w_heap w)))),
     set_heap (<[fresh (dom (w_heap w)) :=
                 CObj (delete "password_hash" (own_props (w_heap w) user))]> (w_heap w)) w).
Proof.
  unfold AuthService.sanitizeUser, spread_copy, bind, alloc, delete_prop, ret. simpl.
  rewrite lookup_insert_eq. unfold set_heap. simpl.
  by rewrite insert_insert_eq.
Qed.

(** C9. For every identity object [u] in the store, [sanitizeUser] returns a
    reference to a new object whose properties are those of [u] without
    [password_hash]; every object that existed before the call, [u]
    included, is unchanged afterwards, so [u] keeps its [password_hash]
    if it had one. *)
Theorem sanitizeUser_copies_and_leaves_original (w : world) (l : loc)
    (u : gmap string value) :
  w_heap w !! l = Some (CObj u) ->
  exists l' w',
    AuthService.sanitizeUser (VRef l) w = (Ok (VRef l'), w')
    /\ w_heap w !! l' = None
    /\ l' <> l
    /\ w_heap w' !! l' = Some (CObj (delete "password_hash" u))
    /\ (forall k, k <> "password_hash" ->
          delete "password_hash" u !! k = u !! k)
    /\ delete "password_hash" u !! "password_hash" = None
    /\ (forall l0, l0 <> l' -> w_heap w' !! l0 = w_heap w !! l0)
    /\ w_heap w' !! l = Some (CObj u)
    /\ (forall h, u !! "password_hash" = Some h ->
          own_props (w_heap w') (VRef l) !! "password_hash" = Some h)
    /\ w_db w' = w_db w /\ w_trace w' = w_trace w.
Proof.
  intros Hl.
  assert (Hne : fresh (dom (w_heap w)) <> l).
  { intros E. pose proof (heap_fresh (w_heap w)) as Hf. rewrite E in Hf. congruence. }
  exists (fresh (dom (w_heap w))). eexists. split; [apply sanitizeUser_run |].
  simpl. rewrite Hl.
  split; [apply heap_fresh |]. split; [exact Hne |].
  split; [apply lookup_insert_eq |].
  split; [intros k Hk; by apply lookup_delete_ne |].
  split; [apply lookup_delete_eq |].
  split; [intros l0 Hl0; by apply lookup_insert_ne |].
  split; [by rewrite lookup_insert_ne |].
  split; [| done].
  intros h Hh. rewrite lookup_insert_ne by done. by rewrite Hl.
Qed.

Lemma sanitizeUser_copies_and_leaves_original_witness :
  exists l' w',
    AuthService.sanitizeUser (VRef 0%nat) Demo.world0 = (Ok (VRef l'), w')
    /\ w_heap w' !! l' =
         Some (CObj (delete "password_hash"
                       (list_to_map (UserRepository.columns_with_hash
                                       (Demo.alice, Some Demo.viewer)))))
    /\ w_heap w' !! 0%nat =
         Some (CObj (list_to_map (UserRepository.columns_with_hash
                                    (Demo.alice, Some Demo.viewer))))
    /\ own_props (w_heap w') (VRef 0%nat) !! "password_hash"
       = Some (VStr "$2b$correct horse").
Proof.
  destruct (sanitizeUser_copies_and_leaves_original Demo.world0 0%nat
              (list_to_map (UserRepository.columns_with_hash
                              (Demo.alice, Some Demo.viewer))))
    as (l' & w' & Hrun & _ & _ & Hnew & _ & _ & _ & Hold & Hkeep & _).
  - reflexivity.
  - exists l', w'. split; [exact Hrun |]. split; [exact Hnew |].
    split; [exact Hold | exact (Hkeep _ eq_refl)].
Defined.

(** ** The authentication gate *)

Ltac close_rejected :=
  unfold rejected_with, body_of; simpl;
  eexists; split; [reflexivity |]; split; [reflexivity |];
  simpl; by rewrite lookup_insert_eq.

Section AuthenticateRuns.

Variable L : libraries.
Variable cfg : auth_config.

Lemma authenticate_no_header req w :
  truthy (req_authorization req) = false ->
  rejected_with req "Authentication required" "NO_TOKEN" (authenticate L cfg req w)
  /\ w_trace (authenticate L cfg req w).2 = w_trace w.
Proof.
  intros Hh. unfold authenticate, try_catch, bind. rewrite Hh. simpl.
  split; [close_rejected | reflexivity].
Qed.

Lemma authenticate_no_prefix req w s :
  req_authorization req = VStr s ->
  String.prefix "Bearer " s = false ->
  rejected_with req "Authentication required" "NO_TOKEN" (authenticate L cfg req w)
  /\ w_trace (authenticate L cfg req w).2 = w_trace w.
Proof.
  intros Hh Hp. unfold authenticate, try_catch, bind. rewrite Hh.
  destruct (truthy (VStr s)); simpl; rewrite ?Hp; simpl.
  all: split; [close_rejected | reflexivity].
Qed.

(** What the gate does once a bearer token has been extracted. *)
Lemma authenticate_bearer req w s :
  req_authorization req = VStr s ->
  String.prefix "Bearer " s = true ->
  let token := VStr (js_substring_from 7 s) in
  match jwt_verify L token (jwt_accessSecret cfg) (w_now w) with
  | Ok p =>
      if strict_eq (payload_claim p "type") (VStr "access") then
        exists l w',
          authenticate L cfg req w = (Ok (set_user (VRef l) req, NextCalled), w')
          /\ w_heap w' !! l =
               Some (CObj (list_to_map
                  [("userId", payload_claim p "userId");
                   ("username", payload_claim p "username");
                   ("email", payload_claim p "email");
                   ("roleId", payload_claim p "roleId");
                   ("roleName", payload_claim p "roleName");
                   ("municipalityId", payload_claim p "municipalityId")]))
          /\ w_heap w !! l = None
      else
        rejected_with req "Invalid token type" "INVALID_TOKEN_TYPE"
                      (authenticate L cfg req w)
  | Throw e =>
      if String.eqb (err_name e) "TokenExpiredError" then
        rejected_with req "Token expired" "TOKEN_EXPIRED" (authenticate L cfg req w)
      else if String.eqb (err_name e) "JsonWebTokenError" then
        rejected_with req "Invalid token" "INVALID_TOKEN" (authenticate L cfg req w)
      else
        rejected_with req "Authentication failed" "AUTH_FAILED"
                      (authenticate L cfg req w)
  end.
Proof.
  intros Hh Hp. simpl.
  unfold authenticate, try_catch, bind. rewrite Hh.
  rewrite (bearer_truthy _ Hp). simpl. rewrite Hp. simpl.
  unfold AuthService.verifyAccessToken, AuthService.verify, bind. simpl.
  destruct (jwt_verify L _ _ _) as [[o | t] | e]; simpl.
  - rewrite !lookup_insert_eq.
    destruct (strict_eq (prop_of o "type") (VStr "access")); simpl.
    + rewrite !lookup_insert_eq.
      eexists _, _. split; [reflexivity |]. simpl.
      rewrite lookup_insert_eq. split; [reflexivity |].
      apply not_elem_of_dom. intros Hin.
      pose proof (is_fresh (dom (<[fresh (dom (w_heap w)) := CObj o]> (w_heap w))))
        as Hfresh.
      rewrite dom_insert_L in Hfresh, Hin. set_solver.
    + close_rejected.
  - rewrite !prop_of_empty. close_rejected.
  - destruct (String.eqb (err_name e) "TokenExpiredError");
      [| destruct (String.eqb (err_name e) "JsonWebTokenError")].
    all: close_rejected.
Qed.

End AuthenticateRuns.

(** C7. The authentication gate answers NO_TOKEN, leaving the request
    untouched and without consulting the codec, when the authorization
    header is absent (or otherwise falsy) or does not start with
    ["Bearer "]; when the codec accepts the bearer token and its kind is
    "access", the gate calls the next handler with a request whose [user]
    is a reference to a new object (one that did not exist before the
    call) holding exactly the six decoded claims, and whose header and
    body are those of the incoming request; and a codec failure named
    TokenExpiredError is answered with TOKEN_EXPIRED, one named
    JsonWebTokenError with INVALID_TOKEN. *)
Theorem authenticate_gate_contract (L : libraries) (cfg : auth_config)
    (req : request) (w : world) :
  (truthy (req_authorization req) = false
   \/ (exists s, req_authorization req = VStr s /\ String.prefix "Bearer " s = false) ->
   rejected_with req "Authentication required" "NO_TOKEN" (authenticate L cfg req w)
   /\ w_trace (authenticate L cfg req w).2 = w_trace w)
  /\ (forall s,
        req_authorization req = VStr s ->
        String.prefix "Bearer " s = true ->
        let verified :=
          jwt_verify L (VStr (js_substring_from 7 s)) (jwt_accessSecret cfg) (w_now w) in
        (forall claims,
            verified = Ok (PayloadObj claims) ->
            claims !! "type" = Some (VStr "access") ->
            exists req' l w',
              authenticate L cfg req w = (Ok (req', NextCalled), w')
              /\ req_user req' = VRef l
              /\ req_authorization req' = req_authorization req
              /\ req_body req' = req_body req
              /\ w_heap w !! l = None
              /\ own_props (w_heap w') (VRef l) =
                   list_to_map
                     [("userId", prop_of claims "userId");
                      ("username", prop_of claims "username");
                      ("email", prop_of claims "email");
                      ("roleId", prop_of claims "roleId");
                      ("roleName", prop_of claims "roleName");
                      ("municipalityId", prop_of claims "municipalityId")]
              /\ dom (own_props (w_heap w') (VRef l)) =
                   ({["userId"; "username"; "email"; "roleId"; "roleName";
                      "municipalityId"]} : gset string))
        /\ (forall e,
              verified = Throw e -> err_name e = "TokenExpiredError" ->
              rejected_with req "Token expired" "TOKEN_EXPIRED"
                            (authenticate L cfg req w))
        /\ (forall e,
              verified = Throw e -> err_name e = "JsonWebTokenError" ->
              rejected_with req "Invalid token" "INVALID_TOKEN"
                            (authenticate L cfg req w))).
Proof.
  split.
  - intros [Hf | (s & Hs & Hp)].
    + by apply authenticate_no_header.
    + by eapply authenticate_no_prefix.
  - intros s Hs Hp verified.
    pose proof (authenticate_bearer L cfg req w s Hs Hp) as Hrun.
    simpl in Hrun. fold verified in Hrun.
    split; [| split].
    + intros claims Hv Ht. rewrite Hv in Hrun. simpl in Hrun.
      unfold prop_of at 1 in Hrun. rewrite Ht in Hrun. simpl in Hrun.
      destruct Hrun as (l & w' & Hrun & Hl & Hnew).
      exists (set_user (VRef l) req), l, w'. split; [exact Hrun |].
      do 3 (split; [reflexivity |]). split; [exact Hnew |].
      simpl. rewrite Hl. split; [reflexivity |].
      rewrite !dom_insert_L, dom_empty_L. set_solver.
    + intros e Hv Hn. rewrite Hv, Hn in Hrun. exact Hrun.
    + intros e Hv Hn. rewrite Hv, Hn in Hrun. exact Hrun.
Qed.

Lemma authenticate_gate_contract_witness :
  rejected_with {| req_authorization := VUndefined; req_body := VUndefined;
                   req_user := VUndefined |}
                "Authentication required" "NO_TOKEN"
                (authenticate Demo.libs Demo.cfg
                   {| req_authorization := VUndefined; req_body := VUndefined;
                      req_user := VUndefined |} Demo.world0)
  /\ (exists req' l w',
        authenticate Demo.libs Demo.cfg (Demo.bearer "access") Demo.world0
          = (Ok (req', NextCalled), w')
        /\ req_user req' = VRef l
        /\ req_authorization req' = VStr "Bearer access"
        /\ w_heap Demo.world0 !! l = None
        /\ prop_of (own_props (w_heap w') (VRef l)) "username" = VStr "alice")
  /\ rejected_with (Demo.bearer "stale") "Token expired" "TOKEN_EXPIRED"
       (authenticate Demo.libs Demo.cfg (Demo.bearer "stale")
          {| w_heap := ∅; w_db := Demo.db; w_trace := []; w_now := 2000;
             w_entropy := 0 |})
  /\ rejected_with (Demo.bearer "garbage") "Invalid token" "INVALID_TOKEN"
       (authenticate Demo.libs Demo.cfg (Demo.bearer "garbage") Demo.world0).
Proof.
  split; [| split; [| split]].
  - apply (authenticate_gate_contract Demo.libs Demo.cfg). by left.
  - destruct (authenticate_gate_contract Demo.libs Demo.cfg
                (Demo.bearer "access") Demo.world0) as [_ H].
    destruct (H "Bearer access" eq_refl eq_refl) as [Hok _].
    destruct (Hok _ eq_refl eq_refl)
      as (req' & l & w' & Hrun & Huser & Hhead & _ & Hnew & Hobj & _).
    exists req', l, w'. split; [exact Hrun |]. split; [exact Huser |].
    split; [exact Hhead |]. split; [exact Hnew |]. rewrite Hobj. reflexivity.
  - destruct (authenticate_gate_contract Demo.libs Demo.cfg (Demo.bearer "stale")
                {| w_heap := ∅; w_db := Demo.db; w_trace := []; w_now := 2000;
                   w_entropy := 0 |}) as [_ H].
    destruct (H "Bearer stale" eq_refl eq_refl) as (_ & Hexp & _).
    exact (Hexp _ eq_refl eq_refl).
  - destruct (authenticate_gate_contract Demo.libs Demo.cfg (Demo.bearer "garbage")
                Demo.world0) as [_ H].
    destruct (H "Bearer garbage" eq_refl eq_refl) as (_ & _ & Hbad).
    exact (Hbad _ eq_refl eq_refl).
Defined.

(** ** Token issuance *)

Lemma access_claims_without_hash row :
  access_claims (list_to_map (UserRepository.columns_without_hash row))
  = row_access_claims row.
Proof. by destruct row as [u [r |]]. Qed.

Lemma access_claims_with_hash row :
  access_claims (list_to_map (UserRepository.columns_with_hash row))
  = row_access_claims row.
Proof. by destruct row as [u [r |]]. Qed.

Lemma is_active_without_hash row :
  prop_of (list_to_map (UserRepository.columns_without_hash row)) "is_active"
  = VBool (u_is_active row.1).
Proof. by destruct row as [u [r |]]. Qed.

Lemma is_active_with_hash row :
  prop_of (list_to_map (UserRepository.columns_with_hash row)) "is_active"
  = VBool (u_is_active row.1).
Proof. by destruct row as [u [r |]]. Qed.

Lemma password_hash_with_hash row :
  prop_of (list_to_map (UserRepository.columns_with_hash row)) "password_hash"
  = u_password_hash row.1.
Proof. by destruct row as [u [r |]]. Qed.

Lemma id_with_hash row :
  prop_of (list_to_map (UserRepository.columns_with_hash row)) "id"
  = VNum (u_id row.1).
Proof. by destruct row as [u [r |]]. Qed.

Lemma password_hash_without_hash row :
  (list_to_map (UserRepository.columns_without_hash row) : gmap string value)
    !! "password_hash" = None.
Proof. by destruct row as [u [r |]]. Qed.

Lemma get_prop_ref w l o k :
  w_heap w !! l = Some (CObj o) ->
  get_prop (VRef l) k w = (Ok (prop_of o k), w).
Proof. intros H. unfold get_prop. simpl. by rewrite H. Qed.

Section TokenRuns.

Variable L : libraries.
Variable cfg : auth_config.

Lemma generateAccessToken_run w l o :
  w_heap w !! l = Some (CObj o) ->
  AuthService.generateAccessToken L cfg (VRef l) w =
    (sign_result (jwt_sign L (access_claims o) (jwt_accessSecret cfg)
                    (jwt_accessExpiresIn cfg) (w_now w)),
     signed_world (access_claims o) (jwt_accessSecret cfg) w).
Proof.
  intros H. unfold AuthService.generateAccessToken, AuthService.sign, bind.
  rewrite !(get_prop_ref _ _ _ _ H). simpl. rewrite lookup_insert_eq.
  fold (access_claims o).
  by destruct (jwt_sign L _ _ _ _).
Qed.

Lemma generateRefreshToken_run w l o :
  w_heap w !! l = Some (CObj o) ->
  AuthService.generateRefreshToken L cfg (VRef l) w =
    (sign_result (jwt_sign L (refresh_claims o) (jwt_refreshSecret cfg)
                    (jwt_refreshExpiresIn cfg) (w_now w)),
     signed_world (refresh_claims o) (jwt_refreshSecret cfg) w).
Proof.
  intros H. unfold AuthService.generateRefreshToken, AuthService.sign, bind.
  rewrite !(get_prop_ref _ _ _ _ H). simpl. rewrite lookup_insert_eq.
  fold (refresh_claims o).
  by destruct (jwt_sign L _ _ _ _).
Qed.

(** Whatever identity value it was issued for, an issued token is the
    library's signature over a claim set of the matching kind. *)
Lemma generateRefreshToken_issued user w tok w1 :
  AuthService.generateRefreshToken L cfg user w = (Ok (VStr tok), w1) ->
  exists claims secret expiresIn t,
    jwt_sign L claims secret expiresIn t = Ok tok
    /\ prop_of claims "type" = VStr "refresh".
Proof.
  unfold AuthService.generateRefreshToken, AuthService.sign, bind.
  destruct user; simpl; try discriminate.
  all: rewrite lookup_insert_eq.
  all: match goal with |- context [jwt_sign L ?c ?s ?e ?t] =>
         destruct (jwt_sign L c s e t) eqn:E; simpl; [| discriminate];
         intros [= <- _]; exists c, s, e, t; split; [exact E | reflexivity]
       end.
Qed.

Lemma generateAccessToken_issued user w tok w1 :
  AuthService.generateAccessToken L cfg user w = (Ok (VStr tok), w1) ->
  exists claims secret expiresIn t,
    jwt_sign L claims secret expiresIn t = Ok tok
    /\ prop_of claims "type" = VStr "access".
Proof.
  unfold AuthService.generateAccessToken, AuthService.sign, bind.
  destruct user; simpl; try discriminate.
  all: rewrite lookup_insert_eq.
  all: match goal with |- context [jwt_sign L ?c ?s ?e ?t] =>
         destruct (jwt_sign L c s e t) eqn:E; simpl; [| discriminate];
         intros [= <- _]; exists c, s, e, t; split; [exact E | reflexivity]
       end.
Qed.

End TokenRuns.

(** ** Directory lookups *)

Lemma findById_run id w :
  UserRepository.findById id w =
    (Ok (found_value (UserRepository.select_users (w_db w) (UserRepository.by_id id)) w),
     found_world (OpFindById id) UserRepository.columns_without_hash
                 (UserRepository.select_users (w_db w) (UserRepository.by_id id)) w).
Proof.
  unfold UserRepository.findById, bind, UserRepository.first_row_or_null. simpl.
  by destruct (UserRepository.select_users _ _).
Qed.

Lemma findByEmail_run email w :
  UserRepository.findByEmail email w =
    (Ok (found_value (UserRepository.select_users (w_db w) (UserRepository.by_email email)) w),
     found_world (OpFindByEmail email) UserRepository.columns_with_hash
                 (UserRepository.select_users (w_db w) (UserRepository.by_email email)) w).
Proof.
  unfold UserRepository.findByEmail, bind, UserRepository.first_row_or_null. simpl.
  by destruct (UserRepository.select_users _ _).
Qed.

Lemma findByUsername_run username w :
  UserRepository.findByUsername username w =
    (Ok (found_value (UserRepository.select_users (w_db w)
                        (UserRepository.by_username username)) w),
     found_world (OpFindByUsername username) UserRepository.columns_with_hash
                 (UserRepository.select_users (w_db w) (UserRepository.by_username username)) w).
Proof.
  unfold UserRepository.findByUsername, bind, UserRepository.first_row_or_null. simpl.
  by destruct (UserRepository.select_users _ _).
Qed.

Arguments AuthService.generateAccessToken : simpl never.
Arguments AuthService.generateRefreshToken : simpl never.
Arguments AuthService.sanitizeUser : simpl never.
Arguments UserRepository.findById : simpl never.
Arguments UserRepository.findByEmail : simpl never.
Arguments UserRepository.findByUsername : simpl never.

(** ** refresh *)

Opaque UserRepository.columns_with_hash UserRepository.columns_without_hash.

Section RefreshRuns.

Variable L : libraries.
Variable cfg : auth_config.

Lemma refreshToken_verify_fails token w e :
  jwt_verify L token (jwt_refreshSecret cfg) (w_now w) = Throw e ->
  AuthService.refreshToken L cfg token w
  = (Throw e, log_event (EvVerify token (jwt_refreshSecret cfg)) w).
Proof.
  intros Hv.
  unfold AuthService.refreshToken, AuthService.verifyRefreshToken, AuthService.verify, bind.
  simpl. by rewrite Hv.
Qed.

Lemma refreshToken_wrong_kind token w p :
  jwt_verify L token (jwt_refreshSecret cfg) (w_now w) = Ok p ->
  payload_claim p "type" <> VStr "refresh" ->
  exists w',
    AuthService.refreshToken L cfg token w = (Throw (Error "Invalid token type"), w')
    /\ w_db w' = w_db w
    /\ w_trace w' = w_trace w ++ [EvVerify token (jwt_refreshSecret cfg)].
Proof.
  intros Hv Hk.
  unfold AuthService.refreshToken, AuthService.verifyRefreshToken, AuthService.verify, bind.
  simpl. rewrite Hv. destruct p as [o | s]; simpl in *.
  - rewrite lookup_insert_eq. rewrite (strict_eq_false _ _ Hk). simpl. by eexists.
  - rewrite prop_of_empty. simpl. by eexists.
Qed.

(** A verified refresh token of kind "refresh": everything that follows
    is decided by the directory's current row for the embedded id. *)
Lemma refreshToken_verified token w claims :
  jwt_verify L token (jwt_refreshSecret cfg) (w_now w) = Ok (PayloadObj claims) ->
  claims !! "type" = Some (VStr "refresh") ->
  let userId := prop_of claims "userId" in
  let out := AuthService.refreshToken L cfg token w in
  let looked_up := [EvVerify token (jwt_refreshSecret cfg); EvDb (OpFindById userId)] in
  w_db out.2 = w_db w /\
  match UserRepository.select_users (w_db w) (UserRepository.by_id userId) with
  | [] =>
      out.1 = Throw (Error "User not found")
      /\ w_trace out.2 = w_trace w ++ looked_up
  | row :: _ =>
      if u_is_active row.1 then
        w_trace out.2 =
          w_trace w ++ looked_up
                    ++ [EvSign (row_access_claims row) (jwt_accessSecret cfg)]
        /\ match jwt_sign L (row_access_claims row) (jwt_accessSecret cfg)
                   (jwt_accessExpiresIn cfg) (w_now w) with
           | Ok t =>
               exists l, out.1 = Ok (VRef l)
                 /\ own_props (w_heap out.2) (VRef l) = {[ "accessToken" := VStr t ]}
           | Throw e => out.1 = Throw e
           end
      else
        out.1 = Throw (Error "Account is inactive")
        /\ w_trace out.2 = w_trace w ++ looked_up
  end.
Proof.
  intros Hv Ht. simpl.
  pose proof (prop_of_lookup _ _ _ Ht) as Hty.
  destruct (AuthService.refreshToken L cfg token w) as [r w'] eqn:Hrun.
  unfold AuthService.refreshToken, AuthService.verifyRefreshToken,
    AuthService.verify, bind in Hrun.
  simpl in Hrun. rewrite Hv in Hrun. simpl in Hrun.
  rewrite !lookup_insert_eq, Hty in Hrun. simpl in Hrun.
  rewrite lookup_insert_eq, findById_run in Hrun. simpl in Hrun.
  destruct (UserRepository.select_users _ _) as [| row rest]; simpl in Hrun.
  - injection Hrun as <- <-. simpl. by rewrite <- app_assoc.
  - rewrite lookup_insert_eq, is_active_without_hash in Hrun.
    destruct (u_is_active row.1); simpl in Hrun.
    + erewrite generateAccessToken_run in Hrun by (simpl; apply lookup_insert_eq).
      rewrite access_claims_without_hash in Hrun. simpl in Hrun.
      destruct (jwt_sign L _ _ _ _); simpl in Hrun; injection Hrun as <- <-; simpl.
      * split; [done |]. split; [by rewrite <- !app_assoc |].
        eexists. split; [reflexivity |]. by rewrite lookup_insert_eq.
      * split; [done |]. split; [by rewrite <- !app_assoc | done].
    + injection Hrun as <- <-. simpl. by rewrite <- app_assoc.
Qed.

End RefreshRuns.

(** ** Token kinds *)

Lemma bearer_prefix tok : String.prefix "Bearer " ("Bearer " ++ tok)%string = true.
Proof. by destruct tok. Qed.

Lemma rejected_with_401 req message code out :
  rejected_with req message code out ->
  exists r, out.1 = Ok (req, Responded r) /\ res_status r = 401.
Proof. intros (r & H1 & H2 & _). by exists r. Qed.

(** C1. Whatever the two secrets are (equal ones included): the
    authentication gate answers INVALID_TOKEN_TYPE, without attaching an
    identity, to every token the codec verifies whose kind claim is not
    "access"; the refresh operation fails with "Invalid token type",
    before any directory access, on every token the codec verifies whose
    kind claim is not "refresh".  Consequently, with a codec that decodes
    a token to the kind it was signed with, a refresh token issued for any
    identity is never let through by the gate, and an access token issued
    for any identity is never accepted by the refresh operation. *)
Theorem token_kinds_are_not_interchangeable (L : libraries) (cfg : auth_config) :
  (forall req w s p,
      req_authorization req = VStr s ->
      String.prefix "Bearer " s = true ->
      jwt_verify L (VStr (js_substring_from 7 s)) (jwt_accessSecret cfg) (w_now w) = Ok p ->
      payload_claim p "type" <> VStr "access" ->
      rejected_with req "Invalid token type" "INVALID_TOKEN_TYPE"
                    (authenticate L cfg req w))
  /\ (forall token w p,
        jwt_verify L token (jwt_refreshSecret cfg) (w_now w) = Ok p ->
        payload_claim p "type" <> VStr "refresh" ->
        exists w',
          AuthService.refreshToken L cfg token w
            = (Throw (Error "Invalid token type"), w')
          /\ w_db w' = w_db w
          /\ w_trace w' = w_trace w ++ [EvVerify token (jwt_refreshSecret cfg)])
  /\ (verify_keeps_signed_kind L ->
      (forall user w tok w1 req w2,
          AuthService.generateRefreshToken L cfg user w = (Ok (VStr tok), w1) ->
          req_authorization req = VStr ("Bearer " ++ tok)%string ->
          exists r, (authenticate L cfg req w2).1 = Ok (req, Responded r)
                    /\ res_status r = 401)
      /\ (forall user w tok w1 w2,
            AuthService.generateAccessToken L cfg user w = (Ok (VStr tok), w1) ->
            exists e, (AuthService.refreshToken L cfg (VStr tok) w2).1 = Throw e)).
Proof.
  split; [| split].
  - intros req w s p Hs Hp Hv Hk.
    pose proof (authenticate_bearer L cfg req w s Hs Hp) as Hrun.
    simpl in Hrun. rewrite Hv in Hrun.
    by rewrite (strict_eq_false _ _ Hk) in Hrun.
  - intros token w p Hv Hk. by eapply refreshToken_wrong_kind.
  - intros Hlib. split.
    + intros user w tok w1 req w2 Hgen Hs.
      destruct (generateRefreshToken_issued _ _ _ _ _ _ Hgen)
        as (claims & secret & expiresIn & t & Hsign & Hkind).
      pose proof (authenticate_bearer L cfg req w2 _ Hs (bearer_prefix tok)) as Hrun.
      simpl in Hrun.
      change (js_substring_from 7 ("Bearer " ++ tok)%string) with tok in Hrun.
      destruct (jwt_verify L (VStr tok) _ _) as [p | e] eqn:Hv.
      * rewrite (Hlib _ _ _ _ _ _ _ _ Hsign Hv), Hkind in Hrun. simpl in Hrun.
        by eapply rejected_with_401.
      * destruct (String.eqb (err_name e) "TokenExpiredError");
          [| destruct (String.eqb (err_name e) "JsonWebTokenError")];
          by eapply rejected_with_401.
    + intros user w tok w1 w2 Hgen.
      destruct (generateAccessToken_issued _ _ _ _ _ _ Hgen)
        as (claims & secret & expiresIn & t & Hsign & Hkind).
      destruct (jwt_verify L (VStr tok) (jwt_refreshSecret cfg) (w_now w2))
        as [p | e] eqn:Hv.
      * destruct (refreshToken_wrong_kind L cfg _ _ _ Hv) as (w' & Hrun & _).
        { rewrite (Hlib _ _ _ _ _ _ _ _ Hsign Hv), Hkind. discriminate. }
        eexists. by rewrite Hrun.
      * eexists. by rewrite (refreshToken_verify_fails L cfg _ _ _ Hv).
Qed.

Lemma demo_verify_keeps_signed_kind : verify_keeps_signed_kind Demo.libs.
Proof.
  intros claims secret expiresIn t token secret' now p Hsign Hverify.
  simpl in *. unfold prop_of.
  destruct (claims !! "type") as [[| | | | k |] |]; try discriminate.
  injection Hsign as ->.
  destruct (1000 <? now)%Z; [discriminate |].
  destruct (String.eqb token "access") eqn:Ea.
  { apply String.eqb_eq in Ea as ->. by injection Hverify as <-. }
  destruct (String.eqb token "refresh") eqn:Er; [| discriminate].
  apply String.eqb_eq in Er as ->. by injection Hverify as <-.
Qed.

Lemma token_kinds_are_not_interchangeable_witness :
  rejected_with (Demo.bearer "refresh") "Invalid token type" "INVALID_TOKEN_TYPE"
    (authenticate Demo.libs Demo.cfg (Demo.bearer "refresh") Demo.world0)
  /\ (AuthService.refreshToken Demo.libs Demo.cfg (VStr "access") Demo.world0).1
       = Throw (Error "Invalid token type")
  /\ (exists r,
        (authenticate Demo.libs Demo.cfg (Demo.bearer "refresh") Demo.world0).1
          = Ok (Demo.bearer "refresh", Responded r)
        /\ res_status r = 401)
  /\ (exists e,
        (AuthService.refreshToken Demo.libs Demo.cfg (VStr "access") Demo.world0).1
          = Throw e).
Proof.
  destruct (token_kinds_are_not_interchangeable Demo.libs Demo.cfg)
    as (Hgate & Hrefresh & Hissued).
  destruct (Hissued demo_verify_keeps_signed_kind) as [Hno_access Hno_refresh].
  split; [| split; [| split]].
  - eapply (Hgate _ _ "Bearer refresh"); [reflexivity | reflexivity | reflexivity |].
    vm_compute. discriminate.
  - destruct (Hrefresh (VStr "access") Demo.world0 _ eq_refl) as (w' & Hrun & _).
    + vm_compute. discriminate.
    + by rewrite Hrun.
  - eapply (Hno_access (VRef 0%nat) Demo.world0 "refresh").
    + vm_compute. reflexivity.
    + reflexivity.
  - eapply (Hno_refresh (VRef 0%nat) Demo.world0 "access").
    vm_compute. reflexivity.
Defined.

(** C4. Given a refresh token the codec verifies and whose kind is
    "refresh", the refresh operation looks the embedded user id up in the
    directory first; it fails with "User not found" when no (non-deleted)
    row has that id and with "Account is inactive" when the row's
    activation flag is false; otherwise it signs one token, with the access
    secret, over claims read from the row just fetched (not from the refresh
    token's payload), and returns an object whose only property is that
    [accessToken].  The directory is left unchanged. *)
Theorem refresh_revalidates_identity (L : libraries) (cfg : auth_config)
    (token : value) (w : world) (claims : gmap string value) :
  jwt_verify L token (jwt_refreshSecret cfg) (w_now w) = Ok (PayloadObj claims) ->
  claims !! "type" = Some (VStr "refresh") ->
  let userId := prop_of claims "userId" in
  let found := UserRepository.select_users (w_db w) (UserRepository.by_id userId) in
  let out := AuthService.refreshToken L cfg token w in
  let looked_up := [EvVerify token (jwt_refreshSecret cfg); EvDb (OpFindById userId)] in
  (exists evs, w_trace out.2 = w_trace w ++ looked_up ++ evs)
  /\ w_db out.2 = w_db w
  /\ (found = [] -> out.1 = Throw (Error "User not found"))
  /\ (forall row rest,
        found = row :: rest -> u_is_active row.1 = false ->
        out.1 = Throw (Error "Account is inactive"))
  /\ (forall row rest,
        found = row :: rest -> u_is_active row.1 = true ->
        let signed := jwt_sign L (row_access_claims row) (jwt_accessSecret cfg)
                        (jwt_accessExpiresIn cfg) (w_now w) in
        w_trace out.2 =
          w_trace w ++ looked_up
                    ++ [EvSign (row_access_claims row) (jwt_accessSecret cfg)]
        /\ (forall t, signed = Ok t ->
              exists l, out.1 = Ok (VRef l)
                /\ own_props (w_heap out.2) (VRef l) = {[ "accessToken" := VStr t ]})
        /\ (forall e, signed = Throw e -> out.1 = Throw e)).
Proof.
  intros Hv Ht userId found out looked_up.
  pose proof (refreshToken_verified L cfg token w claims Hv Ht) as H.
  simpl in H. fold userId found out in H.
  destruct H as [Hdb H].
  split; [| split; [exact Hdb |]].
  - destruct found as [| row rest].
    + exists []. rewrite app_nil_r. apply H.
    + destruct (u_is_active row.1).
      * eexists. apply H.
      * exists []. rewrite app_nil_r. apply H.
  - split; [| split].
    + intros E. rewrite E in H. apply H.
    + intros row rest E Ha. rewrite E, Ha in H. apply H.
    + intros row rest E Ha signed. rewrite E, Ha in H. fold signed in H.
      destruct H as [Htr H]. split; [exact Htr |].
      split.
      * intros t Et. by rewrite Et in H.
      * intros e Ee. by rewrite Ee in H.
Qed.

Lemma refresh_revalidates_identity_witness :
  (exists l,
      (AuthService.refreshToken Demo.libs Demo.cfg (VStr "refresh") Demo.world0).1
        = Ok (VRef l)
      /\ own_props
           (w_heap (AuthService.refreshToken Demo.libs Demo.cfg (VStr "refresh")
                      Demo.world0).2) (VRef l)
         = {[ "accessToken" := VStr "access" ]})
  /\ (AuthService.refreshToken Demo.libs Demo.cfg (VStr "refresh")
        (Demo.world_with [Demo.bob_inactive])).1
     = Throw (Error "User not found")
  /\ (AuthService.refreshToken Demo.libs Demo.cfg (VStr "refresh")
        (Demo.world_with [Demo.alice_deactivated])).1
     = Throw (Error "Account is inactive").
Proof.
  split; [| split].
  - destruct (refresh_revalidates_identity Demo.libs Demo.cfg (VStr "refresh")
                Demo.world0 _ eq_refl eq_refl) as (_ & _ & _ & _ & Hok).
    destruct (Hok (Demo.alice, Some Demo.viewer) [] eq_refl eq_refl) as (_ & Hres & _).
    exact (Hres "access" eq_refl).
  - destruct (refresh_revalidates_identity Demo.libs Demo.cfg (VStr "refresh")
                (Demo.world_with [Demo.bob_inactive]) _ eq_refl eq_refl)
      as (_ & _ & Hnone & _).
    exact (Hnone eq_refl).
  - destruct (refresh_revalidates_identity Demo.libs Demo.cfg (VStr "refresh")
                (Demo.world_with [Demo.alice_deactivated]) _ eq_refl eq_refl)
      as (_ & _ & _ & Hoff & _).
    exact (Hoff (Demo.alice_deactivated, Some Demo.viewer) [] eq_refl eq_refl).
Defined.

(** ** The authorization gate *)

Lemma includes_elem_of (x : value) (l : list value) :
  existsb (fun y => strict_eq y x) l = true <-> x ∈ l.
Proof.
  rewrite existsb_exists. split.
  - intros (y & Hin & Heq). apply strict_eq_spec in Heq as ->.
    by apply list_elem_of_In.
  - intros Hin. exists x. split; [by apply list_elem_of_In | apply strict_eq_refl].
Qed.

Lemma array_items_alloc (h : gmap loc cell) (o : gmap string value) (v : value) :
  array_items (<[fresh (dom h) := CObj o]> h) v = array_items h v.
Proof.
  destruct v as [| | | | | l]; try done. simpl.
  destruct (decide (l = fresh (dom h))) as [-> | Hne].
  - by rewrite lookup_insert_eq, heap_fresh.
  - by rewrite lookup_insert_ne.
Qed.

Lemma get_prop_truthy v k w :
  truthy v = true -> get_prop v k w = (Ok (prop_of (own_props (w_heap w) v) k), w).
Proof. by destruct v. Qed.

(** C8. [authorize(allowedRoles)] captures the configured role list.  Its
    handler answers NOT_AUTHENTICATED (401) when [req.user] is not set;
    answers FORBIDDEN (403) when the identity's [roleName] is not in the
    list, with a body made of the three fixed fields, [requiredRoles] (the
    captured list) and [userRole] (that [roleName]) and nothing else; and
    calls the next handler, changing nothing, when [roleName] is in the
    list. *)
Theorem authorize_gate_contract :
  (forall allowedRoles w0,
      exists roles w1,
        authorize allowedRoles w0 = (Ok (authorize_handler roles), w1)
        /\ array_items (w_heap w1) roles = configured_roles (w_heap w0) allowedRoles)
  /\ (forall roles req w,
        let allowed := array_items (w_heap w) roles in
        let roleName := prop_of (own_props (w_heap w) (req_user req)) "roleName" in
        (truthy (req_user req) = false ->
         exists r w',
           authorize_handler roles req w = (Ok (Responded r), w')
           /\ res_status r = 401
           /\ body_of w' r =
                list_to_map [("status", VStr "error");
                             ("message", VStr "Authentication required");
                             ("code", VStr "NOT_AUTHENTICATED")])
        /\ (truthy (req_user req) = true -> roleName ∉ allowed ->
            exists r w',
              authorize_handler roles req w = (Ok (Responded r), w')
              /\ res_status r = 403
              /\ body_of w' r =
                   list_to_map
                     [("status", VStr "error");
                      ("message", VStr "Access denied. Insufficient permissions.");
                      ("code", VStr "FORBIDDEN");
                      ("requiredRoles", roles);
                      ("userRole", roleName)]
              /\ array_items (w_heap w') roles = allowed)
        /\ (truthy (req_user req) = true -> roleName ∈ allowed ->
            authorize_handler roles req w = (Ok NextCalled, w))).
Proof.
  split.
  - intros allowedRoles w0. unfold authorize, configured_roles, bind. simpl.
    destruct (isArray (w_heap w0) allowedRoles); simpl.
    + by eexists _, _.
    + eexists _, _. split; [reflexivity |]. simpl. by rewrite lookup_insert_eq.
  - intros roles req w allowed roleName. split; [| split].
    + intros Hu. unfold authorize_handler. rewrite Hu. simpl.
      eexists _, _. split; [reflexivity |]. split; [reflexivity |].
      unfold body_of. simpl. by rewrite lookup_insert_eq.
    + intros Hu Hnot. unfold authorize_handler, bind. rewrite Hu. simpl.
      rewrite (get_prop_truthy _ _ _ Hu). unfold includes, bind. simpl.
      fold allowed roleName.
      destruct (existsb _ allowed) eqn:E.
      { apply includes_elem_of in E. contradiction. }
      simpl. rewrite (get_prop_truthy _ _ _ Hu). simpl.
      eexists _, _. split; [reflexivity |]. split; [reflexivity |].
      unfold body_of. simpl. rewrite lookup_insert_eq.
      split; [reflexivity | apply array_items_alloc].
    + intros Hu Hin. unfold authorize_handler, bind. rewrite Hu. simpl.
      rewrite (get_prop_truthy _ _ _ Hu). unfold includes, bind. simpl.
      fold allowed roleName.
      apply includes_elem_of in Hin. by rewrite Hin.
Qed.

Lemma authorize_gate_contract_witness :
  (exists r w',
      authorize_handler (VRef 0%nat) (Demo.request_of VUndefined) Demo.gate_world
        = (Ok (Responded r), w')
      /\ res_status r = 401)
  /\ (exists r w',
        authorize_handler (VRef 0%nat) (Demo.request_of (VRef 1%nat)) Demo.gate_world
          = (Ok (Responded r), w')
        /\ res_status r = 403
        /\ body_of w' r =
             list_to_map
               [("status", VStr "error");
                ("message", VStr "Access denied. Insufficient permissions.");
                ("code", VStr "FORBIDDEN");
                ("requiredRoles", VRef 0%nat);
                ("userRole", VStr "viewer")]
        /\ array_items (w_heap w') (VRef 0%nat) = [VStr "admin"; VStr "manager"])
  /\ authorize_handler (VRef 0%nat) (Demo.request_of (VRef 2%nat)) Demo.gate_world
     = (Ok NextCalled, Demo.gate_world).
Proof.
  destruct authorize_gate_contract as [_ H].
  split; [| split].
  - destruct (H (VRef 0%nat) (Demo.request_of VUndefined) Demo.gate_world)
      as (Hanon & _).
    destruct (Hanon eq_refl) as (r & w' & Hrun & Hst & _).
    by exists r, w'.
  - destruct (H (VRef 0%nat) (Demo.request_of (VRef 1%nat)) Demo.gate_world)
      as (_ & Hdeny & _).
    apply (Hdeny eq_refl).
    apply (bool_decide_unpack _). vm_compute. exact I.
  - destruct (H (VRef 0%nat) (Demo.request_of (VRef 2%nat)) Demo.gate_world)
      as (_ & _ & Hallow).
    apply (Hallow eq_refl).
    apply (bool_decide_unpack _). vm_compute. exact I.
Defined.

(** ** login *)

Arguments AuthService.login : simpl never.
Arguments AuthService.register : simpl never.
Arguments AuthService.refreshToken : simpl never.

Section LoginRuns.

Variable L : libraries.
Variable cfg : auth_config.

Lemma login_run login password w :
  let out := AuthService.login L cfg login password w in
  match resolve_login (w_db w) login with
  | None =>
      out.1 = Throw (Error "Invalid credentials") /\ w_db out.2 = w_db w
  | Some row =>
      if u_is_active row.1 then
        match bcrypt_compare L password (u_password_hash row.1) with
        | Ok false =>
            out.1 = Throw (Error "Invalid credentials") /\ w_db out.2 = w_db w
        | Ok true => True
        | Throw e => out.1 = Throw e
        end
      else
        out.1 = Throw (Error "Account is inactive")
        /\ w_db out.2 = w_db w
        /\ exists evs, w_trace out.2 = w_trace w ++ evs /\ no_compare evs
  end.
Proof.
  simpl. unfold resolve_login.
  destruct (AuthService.login L cfg login password w) as [res w'] eqn:Hrun.
  unfold AuthService.login, bind in Hrun.
  rewrite findByEmail_run in Hrun. simpl in Hrun.
  destruct (UserRepository.select_users (w_db w) (UserRepository.by_email login))
    as [| row rest]; simpl in Hrun.
  - rewrite findByUsername_run in Hrun. simpl in Hrun.
    destruct (UserRepository.select_users (w_db w) (UserRepository.by_username login))
      as [| row rest]; simpl in Hrun.
    + by injection Hrun as <- <-.
    + rewrite lookup_insert_eq, is_active_with_hash in Hrun.
      destruct (u_is_active row.1); simpl in Hrun.
      * rewrite lookup_insert_eq, password_hash_with_hash in Hrun.
        unfold AuthService.comparePassword, bind, lift in Hrun. simpl in Hrun.
        destruct (bcrypt_compare L password (u_password_hash row.1)) as [[|] | e];
          simpl in Hrun; [done | |]; by injection Hrun as <- <-.
      * injection Hrun as <- <-. simpl. split; [done |]. split; [done |].
        eexists. rewrite <- app_assoc. split; [reflexivity | reflexivity].
  - rewrite lookup_insert_eq, is_active_with_hash in Hrun.
    destruct (u_is_active row.1); simpl in Hrun.
    + rewrite lookup_insert_eq, password_hash_with_hash in Hrun.
      unfold AuthService.comparePassword, bind, lift in Hrun. simpl in Hrun.
      destruct (bcrypt_compare L password (u_password_hash row.1)) as [[|] | e];
        simpl in Hrun; [done | |]; by injection Hrun as <- <-.
    + injection Hrun as <- <-. simpl. split; [done |]. split; [done |].
      eexists. split; [reflexivity | reflexivity].
Qed.

End LoginRuns.

(** C3. When the login identifier resolves to a stored identity whose
    activation flag is false, login fails with "Account is inactive"
    whatever password is supplied, and the events of the call contain no
    invocation of the hasher's comparison. *)
Theorem inactive_account_rejected_before_password_check
    (L : libraries) (cfg : auth_config) (login password : value) (w : world)
    (u : user_row) (r : option role_row) :
  resolve_login (w_db w) login = Some (u, r) ->
  u_is_active u = false ->
  let out := AuthService.login L cfg login password w in
  out.1 = Throw (Error "Account is inactive")
  /\ w_db out.2 = w_db w
  /\ exists evs, w_trace out.2 = w_trace w ++ evs /\ no_compare evs.
Proof.
  intros Hres Hoff. pose proof (login_run L cfg login password w) as H.
  simpl in H. rewrite Hres in H. simpl in H. by rewrite Hoff in H.
Qed.

Lemma inactive_account_rejected_before_password_check_witness :
  bcrypt_compare Demo.libs (VStr "hunter22") (u_password_hash Demo.bob_inactive)
    = Ok true
  /\ (AuthService.login Demo.libs Demo.cfg (VStr "bob") (VStr "hunter22")
        Demo.world0).1
     = Throw (Error "Account is inactive")
  /\ exists evs,
       w_trace (AuthService.login Demo.libs Demo.cfg (VStr "bob") (VStr "hunter22")
                  Demo.world0).2 = w_trace Demo.world0 ++ evs
       /\ no_compare evs.
Proof.
  split; [reflexivity |].
  destruct (inactive_account_rejected_before_password_check Demo.libs Demo.cfg
              (VStr "bob") (VStr "hunter22") Demo.world0
              Demo.bob_inactive (Some Demo.admin) eq_refl eq_refl)
    as (Herr & _ & Htrace).
  split; [exact Herr | exact Htrace].
Defined.

(** ** The login endpoint *)

Lemma body_field_truthy w req k :
  truthy (body_field w req k) = true ->
  forall k', get_prop (req_body req) k' w = (Ok (body_field w req k'), w).
Proof.
  unfold body_field. intros H k'.
  destruct (req_body req); try done; simpl in H; by rewrite prop_of_empty in H.
Qed.

Section LoginEndpoint.

Variable L : libraries.
Variable cfg : auth_config.

(** How the endpoint answers when the service throws one of its two
    authentication errors. *)
Lemma controller_login_failure req w e w1 :
  truthy (body_field w req "login") = true ->
  truthy (body_field w req "password") = true ->
  AuthService.login L cfg (Validation.sanitizeInput L (body_field w req "login"))
                    (body_field w req "password") w = (Throw e, w1) ->
  AuthController.message_is e "Invalid credentials"
    || AuthController.message_is e "Account is inactive" = true ->
  exists r w',
    AuthController.login L cfg req w = (Ok r, w')
    /\ res_status r = 401
    /\ body_of w' r =
         list_to_map [("status", VStr "error"); ("message", VStr (err_message e));
                      ("code", VStr "AUTHENTICATION_FAILED")].
Proof.
  intros Hl Hp Hrun He.
  unfold AuthController.login, try_catch, bind.
  rewrite !(body_field_truthy _ _ _ Hl). rewrite Hl, Hp. simpl.
  rewrite Hrun. simpl. rewrite He. simpl.
  eexists _, _. split; [reflexivity |]. split; [reflexivity |].
  unfold body_of. simpl. by rewrite lookup_insert_eq.
Qed.

End LoginEndpoint.

(** C2. A login whose identifier resolves to no stored identity and a
    login for an active stored identity with a password the hasher does
    not accept fail alike: the service throws "Invalid credentials" in
    both, and the endpoint answers both with the same status and the same
    body (code AUTHENTICATION_FAILED, message "Invalid credentials"). *)
Theorem login_failures_are_indistinguishable (L : libraries) (cfg : auth_config) :
  (forall login password w,
      unknown_login (w_db w) login \/ wrong_password L (w_db w) login password ->
      (AuthService.login L cfg login password w).1
        = Throw (Error "Invalid credentials"))
  /\ (forall req1 w1 req2 w2,
        truthy (body_field w1 req1 "login") = true ->
        truthy (body_field w1 req1 "password") = true ->
        truthy (body_field w2 req2 "login") = true ->
        truthy (body_field w2 req2 "password") = true ->
        unknown_login (w_db w1)
          (Validation.sanitizeInput L (body_field w1 req1 "login")) ->
        wrong_password L (w_db w2)
          (Validation.sanitizeInput L (body_field w2 req2 "login"))
          (body_field w2 req2 "password") ->
        exists r1 w1' r2 w2',
          AuthController.login L cfg req1 w1 = (Ok r1, w1')
          /\ AuthController.login L cfg req2 w2 = (Ok r2, w2')
          /\ res_status r1 = 401 /\ res_status r2 = 401
          /\ body_of w1' r1 = body_of w2' r2
          /\ body_of w2' r2 =
               list_to_map [("status", VStr "error");
                            ("message", VStr "Invalid credentials");
                            ("code", VStr "AUTHENTICATION_FAILED")]).
Proof.
  assert (Hservice : forall login password w,
            unknown_login (w_db w) login \/ wrong_password L (w_db w) login password ->
            (AuthService.login L cfg login password w).1
              = Throw (Error "Invalid credentials")).
  { intros login password w H.
    pose proof (login_run L cfg login password w) as Hrun. simpl in Hrun.
    destruct H as [Hnone | (u & r & Hres & Hact & Hcmp)].
    - unfold unknown_login in Hnone. rewrite Hnone in Hrun. apply Hrun.
    - rewrite Hres in Hrun. simpl in Hrun. rewrite Hact, Hcmp in Hrun. apply Hrun. }
  split; [exact Hservice |].
  intros req1 w1 req2 w2 Hl1 Hp1 Hl2 Hp2 Hunknown Hwrong.
  pose proof (Hservice _ (body_field w1 req1 "password") w1 (or_introl Hunknown)) as E1.
  pose proof (Hservice _ _ w2 (or_intror Hwrong)) as E2.
  destruct (AuthService.login L cfg _ _ w1) as [res1 v1] eqn:R1.
  destruct (AuthService.login L cfg _ _ w2) as [res2 v2] eqn:R2.
  simpl in E1, E2. subst res1 res2.
  destruct (controller_login_failure L cfg req1 w1 _ _ Hl1 Hp1 R1 eq_refl)
    as (r1 & w1' & Hc1 & Hs1 & Hb1).
  destruct (controller_login_failure L cfg req2 w2 _ _ Hl2 Hp2 R2 eq_refl)
    as (r2 & w2' & Hc2 & Hs2 & Hb2).
  exists r1, w1', r2, w2'. by rewrite Hb1, Hb2.
Qed.

Lemma login_failures_are_indistinguishable_witness :
  (AuthService.login Demo.libs Demo.cfg (VStr "mallory") (VStr "correct horse")
     Demo.world0).1 = Throw (Error "Invalid credentials")
  /\ (AuthService.login Demo.libs Demo.cfg (VStr "alice") (VStr "battery staple")
        Demo.world0).1 = Throw (Error "Invalid credentials")
  /\ exists r1 w1' r2 w2',
       AuthController.login Demo.libs Demo.cfg Demo.body_request
         (Demo.world_with_body [("login", VStr "mallory");
                                ("password", VStr "correct horse")])
         = (Ok r1, w1')
       /\ AuthController.login Demo.libs Demo.cfg Demo.body_request
            (Demo.world_with_body [("login", VStr "alice@example.com");
                                   ("password", VStr "battery staple")])
            = (Ok r2, w2')
       /\ res_status r1 = 401 /\ res_status r2 = 401
       /\ body_of w1' r1 = body_of w2' r2
       /\ body_of w2' r2 =
            list_to_map [("status", VStr "error");
                         ("message", VStr "Invalid credentials");
                         ("code", VStr "AUTHENTICATION_FAILED")].
Proof.
  destruct (login_failures_are_indistinguishable Demo.libs Demo.cfg)
    as [Hservice Hendpoint].
  split; [| split].
  - apply Hservice. left. reflexivity.
  - apply Hservice. right. exists Demo.alice, (Some Demo.viewer).
    split; [reflexivity |]. split; reflexivity.
  - apply Hendpoint; try reflexivity.
    exists Demo.alice, (Some Demo.viewer).
    split; [reflexivity |]. split; reflexivity.
Defined.

(** ** register *)

Lemma has_rows_filter {A} (p : A -> bool) (l : list A) :
  UserRepository.has_rows (List.filter p l) = true <-> exists x, x ∈ l /\ p x = true.
Proof.
  split.
  - destruct (List.filter p l) as [| x rest] eqn:E; [discriminate |].
    intros _. exists x.
    assert (Hin : In x (List.filter p l)) by (rewrite E; by left).
    apply filter_In in Hin as [Hin Hp]. split; [by apply list_elem_of_In | done].
  - intros (x & Hin & Hp).
    assert (Hf : In x (List.filter p l)).
    { apply filter_In. split; [by apply list_elem_of_In | done]. }
    by destruct (List.filter p l).
Qed.

Lemma stored_taken d cond : stored d cond <-> taken d cond = true.
Proof.
  unfold taken. rewrite has_rows_filter.
  unfold stored, UserRepository.live, UserRepository.not_deleted.
  split.
  - intros (u & Hin & Hc & Hd). exists u. by rewrite Hc, Hd.
  - intros (u & Hin & Hc). apply andb_true_iff in Hc as [Hc Hd].
    exists u. destruct (u_deleted_at u); done.
Qed.

Lemma bind_get_prop_ref {B} l k (f : value -> M B) w :
  bind (get_prop (VRef l) k) f w = f (candidate_field w (VRef l) k) w.
Proof. reflexivity. Qed.

Lemma bind_emailExists {B} email (f : bool -> M B) w :
  bind (UserRepository.emailExists email) f w =
    f (taken (w_db w) (UserRepository.by_email email))
      (log_event (EvDb (OpEmailExists email)) w).
Proof. reflexivity. Qed.

Lemma bind_usernameExists {B} username (f : bool -> M B) w :
  bind (UserRepository.usernameExists username) f w =
    f (taken (w_db w) (UserRepository.by_username username))
      (log_event (EvDb (OpUsernameExists username)) w).
Proof. reflexivity. Qed.

(** C5. A register call whose email equals that of a stored, non-deleted
    row fails with "Email already registered" -- whether or not the
    username is taken as well -- after the two existence queries and
    nothing else: the directory and the store of objects are unchanged and
    neither the hasher nor [create] has been called. *)
Theorem register_rejects_duplicate_email_before_writing
    (L : libraries) (cfg : auth_config) (l : loc) (w : world) :
  let email := candidate_field w (VRef l) "email" in
  let username := candidate_field w (VRef l) "username" in
  stored (w_db w) (UserRepository.by_email email) ->
  let out := AuthService.register L cfg (VRef l) w in
  out.1 = Throw (Error "Email already registered")
  /\ w_db out.2 = w_db w
  /\ w_heap out.2 = w_heap w
  /\ w_trace out.2 =
       w_trace w ++ [EvDb (OpEmailExists email); EvDb (OpUsernameExists username)]
  /\ (forall e, e ∈ w_trace out.2 -> e ∉ w_trace w ->
        is_db_write e = false /\ is_hash e = false).
Proof.
  intros email username Hdup out.
  apply stored_taken in Hdup.
  assert (Hrun : out = (Throw (Error "Email already registered"),
                        log_event (EvDb (OpUsernameExists username))
                          (log_event (EvDb (OpEmailExists email)) w))).
  { unfold out, AuthService.register.
    rewrite !bind_get_prop_ref, bind_emailExists, bind_usernameExists.
    simpl. fold email. by rewrite Hdup. }
  rewrite Hrun. simpl.
  split; [done |]. split; [done |]. split; [done |].
  split; [by rewrite <- app_assoc |].
  intros e Hin Hnot. rewrite <- app_assoc in Hin.
  apply elem_of_app in Hin as [Hin | Hin]; [contradiction |].
  apply elem_of_cons in Hin as [-> | Hin]; [done |].
  apply elem_of_cons in Hin as [-> | Hin]; [done |].
  by apply elem_of_nil in Hin.
Qed.

Lemma register_rejects_duplicate_email_before_writing_witness :
  let w := Demo.world_with_body [("username", VStr "alice");
                                 ("email", VStr "alice@example.com");
                                 ("password", VStr "correct horse")] in
  stored (w_db w) (UserRepository.by_username (VStr "alice"))
  /\ (AuthService.register Demo.libs Demo.cfg (VRef 0%nat) w).1
     = Throw (Error "Email already registered")
  /\ w_db (AuthService.register Demo.libs Demo.cfg (VRef 0%nat) w).2 = w_db w.
Proof.
  intros w.
  assert (Hin : Demo.alice ∈ db_users (w_db w)).
  { apply list_elem_of_In. by left. }
  split.
  - exists Demo.alice. by split.
  - destruct (register_rejects_duplicate_email_before_writing
                Demo.libs Demo.cfg 0%nat w) as (Herr & Hdb & _).
    + exists Demo.alice. by split.
    + by split.
Defined.

(** *** Steps that leave the directory alone *)

Lemma appends_nothing (w w' : world) :
  w_db w' = w_db w -> w_trace w' = w_trace w ->
  w_db w' = w_db w /\ exists evs, w_trace w' = w_trace w ++ evs /\ no_writes evs.
Proof. intros Hd Ht. split; [done |]. exists []. by rewrite app_nil_r. Qed.

Lemma appends_only_ret {A} (a : A) : appends_only (ret a).
Proof. intros w. by apply appends_nothing. Qed.

Lemma appends_only_throw {A} e : appends_only (@throw A e).
Proof. intros w. by apply appends_nothing. Qed.

Lemma appends_only_bind {A B} (m : M A) (k : A -> M B) :
  appends_only m -> (forall a, appends_only (k a)) -> appends_only (bind m k).
Proof.
  intros Hm Hk w. unfold bind.
  destruct (Hm w) as (Hdb & evs & Htr & Hnw).
  destruct (m w) as [[a | e] w1]; simpl in *.
  - destruct (Hk a w1) as (Hdb' & evs' & Htr' & Hnw').
    split; [congruence |]. exists (evs ++ evs').
    split; [by rewrite Htr', Htr, app_assoc |].
    unfold no_writes in *. by rewrite forallb_app, Hnw, Hnw'.
  - split; [done |]. by exists evs.
Qed.

Lemma appends_only_get_prop v k : appends_only (get_prop v k).
Proof. intros w. by destruct v; apply appends_nothing. Qed.

Lemma appends_only_alloc c : appends_only (alloc c).
Proof. intros w. by apply appends_nothing. Qed.

Lemma appends_only_new_object props : appends_only (new_object props).
Proof. apply appends_only_alloc. Qed.

Lemma appends_only_findById id : appends_only (UserRepository.findById id).
Proof.
  intros w. rewrite findById_run. simpl.
  destruct (UserRepository.select_users _ _); simpl; (split; [done |]); by eexists.
Qed.

Lemma appends_only_sign L payload secret expiresIn :
  appends_only (AuthService.sign L payload secret expiresIn).
Proof.
  intros w. unfold AuthService.sign, bind. simpl.
  destruct (jwt_sign L _ _ _ _); simpl; (split; [done |]); by eexists.
Qed.

Lemma appends_only_sanitizeUser user : appends_only (AuthService.sanitizeUser user).
Proof. intros w. rewrite sanitizeUser_run. by apply appends_nothing. Qed.

Create HintDb frame.
#[export] Hint Resolve appends_only_ret appends_only_throw appends_only_get_prop
  appends_only_alloc appends_only_new_object appends_only_findById
  appends_only_sign appends_only_sanitizeUser : frame.

Ltac frame_steps :=
  repeat first
    [ progress (intros; cbv beta)
    | lazymatch goal with
      | |- appends_only (bind _ _) => apply appends_only_bind
      end
    | solve [auto with frame] ].

Lemma appends_only_generateAccessToken L cfg user :
  appends_only (AuthService.generateAccessToken L cfg user).
Proof. unfold AuthService.generateAccessToken. frame_steps. Qed.

Lemma appends_only_generateRefreshToken L cfg user :
  appends_only (AuthService.generateRefreshToken L cfg user).
Proof. unfold AuthService.generateRefreshToken. frame_steps. Qed.

#[export] Hint Resolve appends_only_generateAccessToken
  appends_only_generateRefreshToken : frame.

Lemma bind_ok {A B} (m : M A) (k : A -> M B) w a w1 :
  m w = (Ok a, w1) -> bind m k w = k a w1.
Proof. intros H. unfold bind. by rewrite H. Qed.

Lemma bind_new_object {B} props (f : value -> M B) w :
  bind (new_object props) f w =
    f (VRef (fresh (dom (w_heap w))))
      (set_heap (<[fresh (dom (w_heap w)) := CObj (list_to_map props)]> (w_heap w)) w).
Proof. reflexivity. Qed.

Lemma bind_hashPassword {B} L cfg password (f : value -> M B) w :
  bind (AuthService.hashPassword L cfg password) f w =
    match bcrypt_hash L password (bcrypt_saltRounds cfg) (w_entropy w) with
    | Ok h => f (VStr h) (tick_entropy (log_event (EvHash password) w))
    | Throw e => (Throw e, tick_entropy (log_event (EvHash password) w))
    end.
Proof.
  unfold AuthService.hashPassword, bind. simpl.
  by destruct (bcrypt_hash L _ _ _).
Qed.

Lemma create_run lc w candidate :
  w_heap w !! lc = Some (CObj candidate) ->
  let row := created_row (w_db w) (w_now w) candidate in
  exists v w',
    UserRepository.create (VRef lc) w = (Ok v, w')
    /\ w_db w' = UserRepository.insert_user row (w_db w)
    /\ w_trace w' = w_trace w ++ [EvDb (OpCreate row)].
Proof.
  intros H row. unfold UserRepository.create.
  rewrite !bind_get_prop_ref. unfold candidate_field. simpl. rewrite H.
  unfold bind. simpl. by eexists _, _.
Qed.

Section RegisterRuns.

Variable L : libraries.
Variable cfg : auth_config.

Lemma register_run l w :
  let field := candidate_field w (VRef l) in
  let out := AuthService.register L cfg (VRef l) w in
  let checks := [EvDb (OpEmailExists (field "email"));
                 EvDb (OpUsernameExists (field "username"))] in
  if taken (w_db w) (UserRepository.by_email (field "email")) then
    out.1 = Throw (Error "Email already registered")
    /\ w_db out.2 = w_db w /\ w_trace out.2 = w_trace w ++ checks
  else if taken (w_db w) (UserRepository.by_username (field "username")) then
    out.1 = Throw (Error "Username already taken")
    /\ w_db out.2 = w_db w /\ w_trace out.2 = w_trace w ++ checks
  else
    match bcrypt_hash L (field "password") (bcrypt_saltRounds cfg) (w_entropy w) with
    | Throw e =>
        out.1 = Throw e
        /\ w_db out.2 = w_db w
        /\ w_trace out.2 = w_trace w ++ checks ++ [EvHash (field "password")]
    | Ok h =>
        let row := created_row (w_db w) (w_now w) (register_candidate w (VRef l) h) in
        w_db out.2 = UserRepository.insert_user row (w_db w)
        /\ exists evs,
             w_trace out.2 =
               w_trace w ++ checks ++ [EvHash (field "password"); EvDb (OpCreate row)]
                         ++ evs
             /\ no_writes evs
    end.
Proof.
  simpl.
  destruct (AuthService.register L cfg (VRef l) w) as [res w'] eqn:Hrun.
  unfold AuthService.register in Hrun.
  rewrite !bind_get_prop_ref, bind_emailExists, bind_usernameExists in Hrun.
  simpl in Hrun. unfold candidate_field in Hrun. simpl in Hrun.
  unfold candidate_field. simpl.
  destruct (taken _ (UserRepository.by_email _)).
  { injection Hrun as <- <-. simpl. by rewrite <- app_assoc. }
  destruct (taken _ (UserRepository.by_username _)).
  { injection Hrun as <- <-. simpl. by rewrite <- app_assoc. }
  rewrite bind_hashPassword in Hrun. simpl in Hrun.
  destruct (bcrypt_hash L _ _ _) as [h | e].
  2: { injection Hrun as <- <-. simpl. by rewrite <- !app_assoc. }
  rewrite bind_new_object in Hrun. simpl in Hrun.
  match type of Hrun with
  | bind (UserRepository.create (VRef ?lc)) ?k ?wc = _ =>
      destruct (create_run lc wc _ (lookup_insert_eq _ _ _))
        as (v & w1 & Hcreate & Hdb & Htr);
      rewrite (bind_ok _ _ _ _ _ Hcreate) in Hrun;
      assert (Hframe : appends_only (k v)) by frame_steps;
      destruct (Hframe w1) as (Hdb' & evs & Htr' & Hnw)
  end.
  rewrite Hrun in Hdb', Htr'. simpl in *.
  split; [by rewrite Hdb', Hdb |].
  exists evs. split; [| done].
  rewrite Htr', Htr. simpl. by rewrite <- !app_assoc.
Qed.

End RegisterRuns.

Lemma truthy_false_iff v : truthy v = false <-> v ∈ falsy_values.
Proof.
  unfold falsy_values. split.
  - destruct v as [| | [|] | n | s |]; simpl; try discriminate; intros H.
    + apply list_elem_of_In. simpl. tauto.
    + apply list_elem_of_In. simpl. tauto.
    + apply list_elem_of_In. simpl. tauto.
    + apply negb_false_iff, Z.eqb_eq in H as ->.
      apply list_elem_of_In. simpl. tauto.
    + apply negb_false_iff, String.eqb_eq in H as ->.
      apply list_elem_of_In. simpl. tauto.
  - intros H. apply list_elem_of_In in H. simpl in H.
    destruct H as [<- | [<- | [<- | [<- | [<- | []]]]]]; reflexivity.
Qed.

Lemma persisted_role_id v :
  UserRepository.sql_param (js_or v (VNum 5)) = if truthy v then v else VNum 5.
Proof. unfold js_or. destruct (truthy v) eqn:E; [by destruct v | done]. Qed.

Lemma no_writes_elem evs e : no_writes evs -> e ∈ evs -> is_db_write e = false.
Proof.
  unfold no_writes. rewrite forallb_forall. intros H Hin.
  apply list_elem_of_In in Hin. apply H in Hin. by apply negb_true_iff.
Qed.

(** C10. The row a register call inserts has role id 5 when the supplied
    [roleId] is falsy -- absent or [undefined], [null], 0, and likewise
    [false] and the empty string -- and the supplied value itself when it
    is truthy.  This holds of every row the call creates, and the call
    creates exactly one, appended to the users, whenever neither existence
    check finds a row and the hasher returns a digest. *)
Theorem register_defaults_falsy_role (L : libraries) (cfg : auth_config)
    (l : loc) (w : world) :
  let field := candidate_field w (VRef l) in
  let roleId := field "roleId" in
  let out := AuthService.register L cfg (VRef l) w in
  let persisted_role := if truthy roleId then roleId else VNum 5 in
  (exists evs,
      w_trace out.2 = w_trace w ++ evs
      /\ forall row, EvDb (OpCreate row) ∈ evs ->
           u_role_id row = persisted_role /\ row ∈ db_users (w_db out.2))
  /\ (taken (w_db w) (UserRepository.by_email (field "email")) = false ->
      taken (w_db w) (UserRepository.by_username (field "username")) = false ->
      forall h,
        bcrypt_hash L (field "password") (bcrypt_saltRounds cfg) (w_entropy w) = Ok h ->
        exists row,
          db_users (w_db out.2) = db_users (w_db w) ++ [row]
          /\ EvDb (OpCreate row) ∈ w_trace out.2
          /\ u_role_id row = persisted_role)
  /\ (roleId ∈ falsy_values -> persisted_role = VNum 5)
  /\ (own_props (w_heap w) (VRef l) !! "roleId" = None -> persisted_role = VNum 5)
  /\ (roleId ∉ falsy_values -> persisted_role = roleId).
Proof.
  intros field roleId out persisted_role.
  pose proof (register_run L cfg l w) as Hrun. simpl in Hrun.
  fold field out in Hrun.
  assert (Hrole : forall h,
            u_role_id (created_row (w_db w) (w_now w) (register_candidate w (VRef l) h))
            = persisted_role).
  { intros h. apply persisted_role_id. }
  split; [| split; [| split; [| split]]].
  - destruct (taken (w_db w) (UserRepository.by_email (field "email"))).
    { destruct Hrun as (_ & _ & Htr). eexists. split; [exact Htr |].
      intros row Hin. apply list_elem_of_In in Hin. simpl in Hin.
      destruct Hin as [? | [? | []]]; discriminate. }
    destruct (taken (w_db w) (UserRepository.by_username (field "username"))).
    { destruct Hrun as (_ & _ & Htr). eexists. split; [exact Htr |].
      intros row Hin. apply list_elem_of_In in Hin. simpl in Hin.
      destruct Hin as [? | [? | []]]; discriminate. }
    destruct (bcrypt_hash L _ _ _) as [h | e].
    + destruct Hrun as (Hdb & evs & Htr & Hnw).
      eexists. split; [exact Htr |].
      intros row Hin.
      apply elem_of_cons in Hin as [? | Hin]; [discriminate |].
      apply elem_of_cons in Hin as [? | Hin]; [discriminate |].
      apply elem_of_cons in Hin as [? | Hin]; [discriminate |].
      apply elem_of_cons in Hin as [E | Hin].
      * injection E as ->. split; [apply Hrole |].
        rewrite Hdb. simpl. apply elem_of_app. right. apply list_elem_of_In. by left.
      * by apply (no_writes_elem _ _ Hnw) in Hin.
    + destruct Hrun as (_ & _ & Htr). eexists. split; [exact Htr |].
      intros row Hin. apply list_elem_of_In in Hin. simpl in Hin.
      destruct Hin as [? | [? | [? | []]]]; discriminate.
  - intros He Hu h Hh. rewrite He, Hu, Hh in Hrun.
    destruct Hrun as (Hdb & evs & Htr & _).
    eexists. split; [by rewrite Hdb |]. split; [| apply Hrole].
    rewrite Htr. apply elem_of_app. right.
    apply list_elem_of_In. simpl. tauto.
  - intros Hf. apply truthy_false_iff in Hf. unfold persisted_role. by rewrite Hf.
  - intros Habsent. unfold persisted_role, roleId, field, candidate_field, prop_of.
    by rewrite Habsent.
  - intros Hf. unfold persisted_role. destruct (truthy roleId) eqn:E; [done |].
    by apply truthy_false_iff in E.
Qed.

Lemma register_defaults_falsy_role_witness :
  (let w := Demo.world_with_body [("username", VStr "carol");
                                  ("email", VStr "carol@example.com");
                                  ("password", VStr "s3cret-pass");
                                  ("roleId", VNum 0)] in
   exists row,
     db_users (w_db (AuthService.register Demo.libs Demo.cfg (VRef 0%nat) w).2)
       = db_users (w_db w) ++ [row]
     /\ u_role_id row = VNum 5)
  /\ (let w := Demo.world_with_body [("username", VStr "dave");
                                     ("email", VStr "dave@example.com");
                                     ("password", VStr "s3cret-pass");
                                     ("roleId", VNum 2)] in
      exists row,
        db_users (w_db (AuthService.register Demo.libs Demo.cfg (VRef 0%nat) w).2)
          = db_users (w_db w) ++ [row]
        /\ u_role_id row = VNum 2).
Proof.
  split; intros w.
  - destruct (register_defaults_falsy_role Demo.libs Demo.cfg 0%nat w)
      as (_ & Hcreate & _).
    destruct (Hcreate eq_refl eq_refl _ eq_refl) as (row & Hdb & _ & Hrole).
    exists row. split; [exact Hdb | exact Hrole].
  - destruct (register_defaults_falsy_role Demo.libs Demo.cfg 0%nat w)
      as (_ & Hcreate & _).
    destruct (Hcreate eq_refl eq_refl _ eq_refl) as (row & Hdb & _ & Hrole).
    exists row. split; [exact Hdb | exact Hrole].
Defined.

(** ** What leaves the service: identities without a password hash *)

Section Hoare.

Context {A B : Type}.

Lemma hoare_any (P : world -> Prop) (m : M A) : hoare P m (fun _ _ => True).
Proof. by intros w a w' _ _. Qed.

Lemma hoare_ret (P : world -> Prop) (a : A) (Q : A -> world -> Prop) :
  (forall w, P w -> Q a w) -> hoare P (ret a) Q.
Proof. intros H w a' w' Hp [= <- <-]. by apply H. Qed.

Lemma hoare_throw (P : world -> Prop) e (Q : A -> world -> Prop) :
  hoare P (throw e) Q.
Proof. by intros w a w' _ [=]. Qed.

Lemma hoare_bind (P : world -> Prop) (m : M A) (R : A -> world -> Prop)
    (k : A -> M B) (Q : B -> world -> Prop) :
  hoare P m R -> (forall a, hoare (R a) (k a) Q) -> hoare P (bind m k) Q.
Proof.
  intros Hm Hk w b w' Hp. unfold bind.
  destruct (m w) as [[a | e] w1] eqn:E; [| discriminate].
  intros Hrun. eapply Hk; [| exact Hrun]. by eapply Hm.
Qed.

Lemma hoare_post (P : world -> Prop) (m : M A) (Q Q' : A -> world -> Prop) :
  hoare P m Q' -> (forall a w, Q' a w -> Q a w) -> hoare P m Q.
Proof. intros Hm Hq w a w' Hp Hrun. apply Hq. by eapply Hm. Qed.

Lemma hoare_pre (P P' : world -> Prop) (m : M A) (Q : A -> world -> Prop) :
  hoare P' m Q -> (forall w, P w -> P' w) -> hoare P m Q.
Proof. intros Hm Hp w a w' H Hrun. eapply Hm; [by apply Hp | exact Hrun]. Qed.

Lemma hoare_try_catch (P : world -> Prop) (m : M A) (h : js_error -> M A)
    (Q : A -> world -> Prop) :
  hoare P m Q -> (forall e, hoare (fun _ => True) (h e) Q) ->
  hoare P (try_catch m h) Q.
Proof.
  intros Hm Hh w a w' Hp. unfold try_catch.
  destruct (m w) as [[a0 | e] w1] eqn:E.
  - intros [= <- <-]. by eapply Hm.
  - intros Hrun. by eapply Hh.
Qed.

End Hoare.

Lemma cell_at_alloc w v o c :
  cell_at w v o ->
  cell_at (set_heap (<[fresh (dom (w_heap w)) := c]> (w_heap w)) w) v o.
Proof.
  intros (l & -> & Hl). exists l. split; [done |]. simpl.
  rewrite lookup_insert_ne; [done |].
  intros E. pose proof (heap_fresh (w_heap w)) as Hf. rewrite E in Hf. congruence.
Qed.

Lemma hashless_stable v : heap_stable (fun w => hashless w v).
Proof. intros w c (o & Hc & Ho). exists o. split; [by apply cell_at_alloc | done]. Qed.

Lemma true_stable : heap_stable (fun _ => True).
Proof. done. Qed.

Lemma and_cell_stable (P : world -> Prop) v o :
  heap_stable P -> heap_stable (fun w => P w /\ cell_at w v o).
Proof. intros HP w c [Hp Hc]. split; [by apply HP | by apply cell_at_alloc]. Qed.

Lemma cell_at_props w v o : cell_at w v o -> own_props (w_heap w) v = o.
Proof. intros (l & -> & Hl). simpl. by rewrite Hl. Qed.

Lemma hoare_get_prop (P : world -> Prop) v k :
  hoare P (get_prop v k)
        (fun a w => P w /\ a = prop_of (own_props (w_heap w) v) k).
Proof.
  intros w a w' Hp. unfold get_prop.
  destruct v; intros [= <- <-]; by split.
Qed.

Lemma hoare_get_prop_frame (P : world -> Prop) v k :
  hoare P (get_prop v k) (fun _ w => P w).
Proof. eapply hoare_post; [apply hoare_get_prop | by intros a w [H _]]. Qed.

Lemma hoare_new_object (P : world -> Prop) props :
  heap_stable P ->
  hoare P (new_object props) (fun v w => P w /\ cell_at w v (list_to_map props)).
Proof.
  intros HP w v w' Hp [= <- <-]. split; [by apply HP |].
  eexists. split; [reflexivity |]. simpl. apply lookup_insert_eq.
Qed.

Lemma hoare_respond {A} (P : world -> Prop) (wrap : response -> A) status props :
  heap_stable P ->
  hoare P (respond wrap status props)
        (fun a w => exists r, a = wrap r /\ res_status r = status /\ P w
                              /\ cell_at w (res_body r) (list_to_map props)).
Proof.
  intros HP. unfold respond.
  eapply hoare_bind; [by apply hoare_new_object |].
  intros body. apply hoare_ret. intros w [Hp Hc]. by eexists.
Qed.

Lemma hoare_sanitizeUser user :
  hoare (fun _ => True) (AuthService.sanitizeUser user) (fun s w => hashless w s).
Proof.
  intros w s w' _. rewrite sanitizeUser_run. intros [= <- <-].
  eexists. split.
  - eexists. split; [reflexivity |]. simpl. apply lookup_insert_eq.
  - apply lookup_delete_eq.
Qed.

(** Walk through the steps whose outcome does not matter, up to the call
    to [sanitizeUser]. *)
Ltac skip_to_sanitize :=
  repeat lazymatch goal with
    | |- hoare _ (bind (AuthService.sanitizeUser _) _) _ => fail
    | |- hoare _ (bind _ _) _ =>
        eapply hoare_bind; [apply hoare_any | intros ?; cbv beta]
    | |- hoare _ (if ?c then _ else _) _ => destruct c; [apply hoare_throw |]
    end.

Ltac finish_identity_result :=
  eapply hoare_bind; [apply hoare_sanitizeUser | intros s; cbv beta];
  eapply hoare_post; [apply hoare_new_object, hashless_stable |];
  intros v w [Hs Hc]; by eexists _, _, _.

Lemma hoare_service_register L cfg userData :
  hoare (fun _ => True) (AuthService.register L cfg userData) identity_result.
Proof. unfold AuthService.register. skip_to_sanitize. finish_identity_result. Qed.

Lemma hoare_service_login L cfg login password :
  hoare (fun _ => True) (AuthService.login L cfg login password) identity_result.
Proof. unfold AuthService.login. skip_to_sanitize. finish_identity_result. Qed.

(** Reading [result.user] off what a service returned. *)
Lemma hoare_result_user result :
  hoare (identity_result result) (get_prop result "user") (fun user w => hashless w user).
Proof.
  eapply hoare_post; [apply hoare_get_prop |].
  intros user w [(s & a & t & Hc & Hs) ->].
  by rewrite (cell_at_props _ _ _ Hc).
Qed.

(** Wrapping an identity into [{ ..., data: { user, ... } }]. *)
Lemma hoare_identity_response user datap (topp : value -> list (string * value))
    status :
  (list_to_map datap : gmap string value) !! "user" = Some user ->
  (forall d, (list_to_map (topp d) : gmap string value) !! "data" = Some d) ->
  hoare (fun w => hashless w user)
        (bind (new_object datap) (fun data => respond id status (topp data)))
        (fun r w => hashless w (exposed_identity w r)).
Proof.
  intros Hd Ht.
  eapply hoare_bind; [apply hoare_new_object, hashless_stable |].
  intros data. cbv beta.
  eapply hoare_post; [apply hoare_respond, and_cell_stable, hashless_stable |].
  intros r' w (r & -> & _ & [Hs Hdata] & Hbody). simpl.
  unfold exposed_identity, body_of.
  rewrite (cell_at_props _ _ _ Hbody), (prop_of_lookup _ _ _ (Ht data)).
  by rewrite (cell_at_props _ _ _ Hdata), (prop_of_lookup _ _ _ Hd).
Qed.

Lemma hashless_safe ok r w : hashless w (exposed_identity w r) -> safe_response ok r w.
Proof.
  intros H. split; [| done].
  destruct H as (o & Hc & Ho). unfold exposes_no_hash.
  by rewrite (cell_at_props _ _ _ Hc).
Qed.

(** A response without a [data] field exposes no identity at all. *)
Lemma hoare_plain_response (P : world -> Prop) ok status props :
  (list_to_map props : gmap string value) !! "data" = None ->
  status <> ok ->
  hoare P (respond id status props) (safe_response ok).
Proof.
  intros Hd Hst.
  apply (hoare_pre _ (fun _ => True)); [| done].
  eapply hoare_post; [apply (hoare_respond (fun _ => True)), true_stable |].
  intros r' w (r & -> & Hs & _ & Hbody). simpl.
  split.
  - unfold exposes_no_hash, exposed_identity, body_of.
    rewrite (cell_at_props _ _ _ Hbody). unfold prop_of at 2. rewrite Hd. simpl.
    by rewrite prop_of_empty.
  - intros E. congruence.
Qed.

Ltac plain_response :=
  apply hoare_plain_response; [reflexivity | discriminate].

Ltac skip_step := eapply hoare_bind; [apply hoare_any | intros ?; cbv beta].

Section Endpoints.

Variable L : libraries.
Variable cfg : auth_config.

Lemma hoare_endpoint_register req :
  hoare (fun _ => True) (AuthController.register L cfg req) (safe_response 201).
Proof.
  unfold AuthController.register. apply hoare_try_catch.
  - do 8 skip_step.
    destruct (_ || _); [skip_step; plain_response |].
    destruct (negb (Validation.isValidEmail _ _)); [plain_response |].
    destruct (negb (Validation.isValidUsername _ _)); [plain_response |].
    do 2 skip_step.
    destruct (negb (truthy _)); [skip_step; plain_response |].
    skip_step.
    eapply hoare_bind; [apply hoare_service_register | intros result; cbv beta].
    eapply hoare_bind; [apply hoare_result_user | intros user; cbv beta].
    do 2 (eapply hoare_bind; [apply hoare_get_prop_frame | intros ?; cbv beta]).
    eapply hoare_post; [by apply hoare_identity_response |].
    intros r w. apply hashless_safe.
  - intros e. skip_step. destruct (_ || _); plain_response.
Qed.

Lemma hoare_endpoint_login req :
  hoare (fun _ => True) (AuthController.login L cfg req) (safe_response 200).
Proof.
  unfold AuthController.login. apply hoare_try_catch.
  - do 2 skip_step.
    destruct (_ || _); [skip_step; plain_response |].
    eapply hoare_bind; [apply hoare_service_login | intros result; cbv beta].
    eapply hoare_bind; [apply hoare_result_user | intros user; cbv beta].
    do 2 (eapply hoare_bind; [apply hoare_get_prop_frame | intros ?; cbv beta]).
    eapply hoare_post; [by apply hoare_identity_response |].
    intros r w. apply hashless_safe.
  - intros e. skip_step. destruct (_ || _); plain_response.
Qed.

Lemma hoare_endpoint_me req :
  hoare (fun _ => True) (AuthController.me req) (safe_response 200).
Proof.
  unfold AuthController.me. apply hoare_try_catch.
  - do 2 skip_step.
    destruct (negb (truthy _)); [plain_response |].
    eapply hoare_bind; [apply hoare_sanitizeUser | intros user; cbv beta].
    eapply hoare_post; [by apply hoare_identity_response |].
    intros r w. apply hashless_safe.
  - intros e. skip_step. plain_response.
Qed.

End Endpoints.

(** The endpoints always answer: their catch blocks respond and rethrow
    nothing. *)
Lemma try_catch_responds {A} (m : M A) (h : js_error -> M A) :
  (forall e w, exists a w', h e w = (Ok a, w')) ->
  forall w, exists a w', try_catch m h w = (Ok a, w').
Proof.
  intros Hh w. unfold try_catch.
  destruct (m w) as [[a | e] w1]; [by eexists _, _ | apply Hh].
Qed.

Ltac handler_responds :=
  intros ? ?; unfold bind, emit, respond, new_object, alloc, bind, ret; simpl;
  repeat match goal with |- context [if ?c then _ else _] => destruct c end;
  by eexists _, _.

Lemma endpoint_register_responds L cfg req w :
  exists r w', AuthController.register L cfg req w = (Ok r, w').
Proof. unfold AuthController.register. apply try_catch_responds. handler_responds. Qed.

Lemma endpoint_login_responds L cfg req w :
  exists r w', AuthController.login L cfg req w = (Ok r, w').
Proof. unfold AuthController.login. apply try_catch_responds. handler_responds. Qed.

Lemma endpoint_me_responds req w :
  exists r w', AuthController.me req w = (Ok r, w').
Proof. unfold AuthController.me. apply try_catch_responds. handler_responds. Qed.

Lemma hoare_gate_respond (P : world -> Prop) req status props :
  hoare P (respond (fun r => (req, Responded r)) status props)
        (fun out w => forall req', out = (req', NextCalled) -> gate_context w req').
Proof.
  apply (hoare_pre _ (fun _ => True)); [| done].
  eapply hoare_post; [apply (hoare_respond (fun _ => True)), true_stable |].
  intros out w (r & -> & _) req' [=].
Qed.

Lemma hoare_authenticate L cfg req :
  hoare (fun _ => True) (authenticate L cfg req)
        (fun out w => forall req', out = (req', NextCalled) -> gate_context w req').
Proof.
  unfold authenticate. apply hoare_try_catch.
  - eapply hoare_bind; [apply hoare_any | intros no_bearer; cbv beta].
    destruct no_bearer; [apply hoare_gate_respond |].
    do 3 skip_step.
    destruct (negb (strict_eq _ _)); [apply hoare_gate_respond |].
    do 6 skip_step.
    eapply hoare_bind; [apply hoare_new_object, true_stable | intros user; cbv beta].
    apply hoare_ret. intros w [_ Hc] req' [= <-].
    eexists. split; [exact Hc |]. split; [reflexivity |].
    simpl. rewrite !dom_insert_L, dom_empty_L. set_solver.
  - intros e.
    destruct (String.eqb _ _); [apply hoare_gate_respond |].
    destruct (String.eqb _ _); apply hoare_gate_respond.
Qed.

(** C6. Every response of the register, login and me endpoints -- and
    each of them always responds -- carries no [password_hash] under
    [data.user]; on success (201, 200, 200) [data.user] is an object
    without that property.  The same holds of the [user] in what the
    register and login services return and of what [sanitizeUser]
    returns, and the identity the authentication gate attaches is an
    object with the six claim fields, [password_hash] not among them. *)
Theorem outward_identities_carry_no_password_hash (L : libraries) (cfg : auth_config)
    (req : request) (w : world) :
  (exists r w', AuthController.register L cfg req w = (Ok r, w')
                /\ exposes_no_hash w' r
                /\ (res_status r = 201 -> hashless w' (exposed_identity w' r)))
  /\ (exists r w', AuthController.login L cfg req w = (Ok r, w')
                   /\ exposes_no_hash w' r
                   /\ (res_status r = 200 -> hashless w' (exposed_identity w' r)))
  /\ (exists r w', AuthController.me req w = (Ok r, w')
                   /\ exposes_no_hash w' r
                   /\ (res_status r = 200 -> hashless w' (exposed_identity w' r)))
  /\ (forall req' w',
        authenticate L cfg req w = (Ok (req', NextCalled), w') ->
        gate_context w' req')
  /\ (forall userData v w',
        AuthService.register L cfg userData w = (Ok v, w') -> identity_result v w')
  /\ (forall login password v w',
        AuthService.login L cfg login password w = (Ok v, w') -> identity_result v w')
  /\ (forall user,
        exists s w', AuthService.sanitizeUser user w = (Ok s, w') /\ hashless w' s).
Proof.
  split; [| split; [| split; [| split; [| split; [| split]]]]].
  - destruct (endpoint_register_responds L cfg req w) as (r & w' & Hrun).
    exists r, w'. split; [exact Hrun |].
    by apply (hoare_endpoint_register L cfg req w r w' I).
  - destruct (endpoint_login_responds L cfg req w) as (r & w' & Hrun).
    exists r, w'. split; [exact Hrun |].
    by apply (hoare_endpoint_login L cfg req w r w' I).
  - destruct (endpoint_me_responds req w) as (r & w' & Hrun).
    exists r, w'. split; [exact Hrun |].
    by apply (hoare_endpoint_me req w r w' I).
  - intros req' w' Hrun.
    by apply (hoare_authenticate L cfg req w _ w' I Hrun).
  - intros userData v w' Hrun.
    by apply (hoare_service_register L cfg userData w v w' I).
  - intros login password v w' Hrun.
    by apply (hoare_service_login L cfg login password w v w' I).
  - intros user. eexists _, _. split; [apply sanitizeUser_run |].
    by apply (hoare_sanitizeUser user w _ _ I (sanitizeUser_run w user)).
Qed.

Transparent UserRepository.columns_with_hash UserRepository.columns_without_hash.

Lemma outward_identities_carry_no_password_hash_witness :
  (let w := Demo.world_with_body [("username", VStr "carol");
                                  ("email", VStr "carol@example.com");
                                  ("password", VStr "s3cret-pass")] in
   exists r w',
     AuthController.register Demo.libs Demo.cfg Demo.body_request w = (Ok r, w')
     /\ res_status r = 201
     /\ hashless w' (exposed_identity w' r))
  /\ (let w := Demo.world_with_body [("login", VStr "alice");
                                     ("password", VStr "correct horse")] in
      exists r w',
        AuthController.login Demo.libs Demo.cfg Demo.body_request w = (Ok r, w')
        /\ res_status r = 200
        /\ hashless w' (exposed_identity w' r))
  /\ (exists r w',
        AuthController.me (Demo.request_of (VRef 1%nat)) Demo.gate_world = (Ok r, w')
        /\ res_status r = 200
        /\ hashless w' (exposed_identity w' r))
  /\ (exists req' w',
        authenticate Demo.libs Demo.cfg (Demo.bearer "access") Demo.world0
          = (Ok (req', NextCalled), w')
        /\ gate_context w' req').
Proof.
  split; [| split; [| split]].
  - intros w.
    destruct (outward_identities_carry_no_password_hash Demo.libs Demo.cfg
                Demo.body_request w) as ((r & w' & Hrun & _ & Hok) & _).
    assert (Hst : res_status r = 201).
    { apply (f_equal fst) in Hrun. vm_compute in Hrun. by injection Hrun as <-. }
    exists r, w'. split; [exact Hrun |]. split; [exact Hst | exact (Hok Hst)].
  - intros w.
    destruct (outward_identities_carry_no_password_hash Demo.libs Demo.cfg
                Demo.body_request w) as (_ & (r & w' & Hrun & _ & Hok) & _).
    assert (Hst : res_status r = 200).
    { apply (f_equal fst) in Hrun. vm_compute in Hrun. by injection Hrun as <-. }
    exists r, w'. split; [exact Hrun |]. split; [exact Hst | exact (Hok Hst)].
  - destruct (outward_identities_carry_no_password_hash Demo.libs Demo.cfg
                (Demo.request_of (VRef 1%nat)) Demo.gate_world)
      as (_ & _ & (r & w' & Hrun & _ & Hok) & _).
    assert (Hst : res_status r = 200).
    { apply (f_equal fst) in Hrun. vm_compute in Hrun. by injection Hrun as <-. }
    exists r, w'. split; [exact Hrun |]. split; [exact Hst | exact (Hok Hst)].
  - destruct (outward_identities_carry_no_password_hash Demo.libs Demo.cfg
                (Demo.bearer "access") Demo.world0) as (_ & _ & _ & Hgate & _).
    destruct (authenticate Demo.libs Demo.cfg (Demo.bearer "access") Demo.world0)
      as [res w'] eqn:E.
    vm_compute in E. injection E as <- <-.
    eexists _, _. split; [reflexivity |]. by apply Hgate.
Defined.

(** * Further properties *)

(** ** Computations confined to a relation on the directory *)

Section Confined.

Context (R : database -> database -> Prop) `{!PreOrder R} (ok : event -> bool).

Lemma confined_same {A} (m : M A) :
  (forall w, w_db (m w).2 = w_db w /\ w_trace (m w).2 = w_trace w) ->
  confined R ok m.
Proof.
  intros H w. destruct (H w) as [Hd Ht]. rewrite Hd. split; [reflexivity |].
  exists []. by rewrite app_nil_r.
Qed.

Lemma confined_ret {A} (a : A) : confined R ok (ret a).
Proof. by apply confined_same. Qed.

Lemma confined_throw {A} e : confined R ok (@throw A e).
Proof. by apply confined_same. Qed.

Lemma confined_lift {A} (r : result A) : confined R ok (lift r).
Proof. by apply confined_same. Qed.

Lemma confined_get_world : confined R ok get_world.
Proof. by apply confined_same. Qed.

Lemma confined_get_prop v k : confined R ok (get_prop v k).
Proof. apply confined_same. intros w. by destruct v. Qed.

Lemma confined_alloc c : confined R ok (alloc c).
Proof. by apply confined_same. Qed.

Lemma confined_emit e : ok e = true -> confined R ok (emit e).
Proof.
  intros He w. simpl. split; [reflexivity |]. exists [e]. simpl. by rewrite He.
Qed.

Lemma confined_run_db f : (forall d, R d (f d)) -> confined R ok (UserRepository.run_db f).
Proof.
  intros Hf w. simpl. split; [apply Hf |]. exists []. by rewrite app_nil_r.
Qed.

Lemma confined_bind {A B} (m : M A) (k : A -> M B) :
  confined R ok m -> (forall a, confined R ok (k a)) -> confined R ok (bind m k).
Proof.
  intros Hm Hk w. unfold bind.
  destruct (Hm w) as (Hdb & evs & Htr & Hok).
  destruct (m w) as [[a | e] w1]; simpl in *.
  - destruct (Hk a w1) as (Hdb' & evs' & Htr' & Hok').
    split; [by etrans |]. exists (evs ++ evs').
    split; [by rewrite Htr', Htr, app_assoc |].
    by rewrite forallb_app, Hok, Hok'.
  - split; [done |]. by exists evs.
Qed.

Lemma confined_try_catch {A} (m : M A) (h : js_error -> M A) :
  confined R ok m -> (forall e, confined R ok (h e)) -> confined R ok (try_catch m h).
Proof.
  intros Hm Hh w. unfold try_catch.
  destruct (Hm w) as (Hdb & evs & Htr & Hok).
  destruct (m w) as [[a | e] w1]; simpl in *.
  - split; [done |]. by exists evs.
  - destruct (Hh e w1) as (Hdb' & evs' & Htr' & Hok').
    split; [by etrans |]. exists (evs ++ evs').
    split; [by rewrite Htr', Htr, app_assoc |].
    by rewrite forallb_app, Hok, Hok'.
Qed.

Lemma confined_respond {A} (wrap : response -> A) status props :
  confined R ok (respond wrap status props).
Proof.
  unfold respond. apply confined_bind; [apply confined_alloc |].
  intros body. apply confined_ret.
Qed.

End Confined.

(** Walks a computation built from the monad's combinators, leaving the
    side conditions that are not immediate. *)
Ltac confined_side :=
  try lazymatch goal with
      | |- PreOrder _ => apply _
      | |- _ = true => first [reflexivity | assumption]
      end.

Ltac confined_walk :=
  repeat
    lazymatch goal with
    | |- confined _ _ (bind _ _) => apply confined_bind; confined_side
    | |- confined _ _ (try_catch _ _) => apply confined_try_catch; confined_side
    | |- confined _ _ (ret _) => apply confined_ret; confined_side
    | |- confined _ _ (throw _) => apply confined_throw; confined_side
    | |- confined _ _ (lift _) => apply confined_lift; confined_side
    | |- confined _ _ get_world => apply confined_get_world; confined_side
    | |- confined _ _ (get_prop _ _) => apply confined_get_prop; confined_side
    | |- confined _ _ (alloc _) => apply confined_alloc; confined_side
    | |- confined _ _ (new_object _) => apply confined_alloc; confined_side
    | |- confined _ _ (new_array _) => apply confined_alloc; confined_side
    | |- confined _ _ (respond _ _ _) => apply confined_respond; confined_side
    | |- confined _ _ (emit _) => apply confined_emit; confined_side
    | |- confined _ _ (UserRepository.run_db _) => apply confined_run_db; confined_side
    | |- confined _ _ (if ?c then _ else _) => destruct c
    | |- confined _ _ (match ?x with _ => _ end) => destruct x
    | |- confined _ _ _ => fail
    | |- _ => progress (intros; cbv beta)
    end.

Lemma confined_authenticate L cfg req :
  confined eq is_verify (authenticate L cfg req).
Proof.
  unfold authenticate, startsWith, substring, AuthService.verifyAccessToken,
    AuthService.verify.
  confined_walk.
Qed.

(** ** The authentication gate keeps no state *)

Lemma rejected_view req message code out :
  rejected_with req message code out -> gate_view out = Some (gate_error message code).
Proof.
  intros (r & Hout & Hst & Hbody). unfold gate_view, gate_error.
  by rewrite Hout, Hst, Hbody.
Qed.

Lemma gate_view_decision L cfg req w :
  gate_view (authenticate L cfg req w)
  = Some (gate_decision L cfg (req_authorization req) (w_now w)).
Proof.
  unfold gate_decision.
  destruct (truthy (req_authorization req)) eqn:Htr; simpl.
  2: { eapply rejected_view. by apply authenticate_no_header. }
  destruct (req_authorization req) as [| | b | n | s | l] eqn:Hh; try discriminate.
  - unfold authenticate, try_catch, bind. rewrite Hh, Htr. simpl.
    unfold gate_view, gate_error, body_of. simpl. by rewrite lookup_insert_eq.
  - unfold authenticate, try_catch, bind. rewrite Hh, Htr. simpl.
    unfold gate_view, gate_error, body_of. simpl. by rewrite lookup_insert_eq.
  - destruct (String.prefix "Bearer " s) eqn:Hp.
    + pose proof (authenticate_bearer L cfg req w s Hh Hp) as Hrun. simpl in Hrun.
      destruct (jwt_verify L _ _ _) as [p | e].
      * destruct (strict_eq (payload_claim p "type") (VStr "access")).
        -- destruct Hrun as (l0 & w' & Hrun & Hcell & _).
           unfold gate_view. rewrite Hrun. simpl. by rewrite Hcell.
        -- by eapply rejected_view.
      * destruct (String.eqb (err_name e) "TokenExpiredError");
          [| destruct (String.eqb (err_name e) "JsonWebTokenError")];
          by eapply rejected_view.
    + eapply rejected_view. by eapply authenticate_no_prefix.
  - unfold authenticate, try_catch, bind. rewrite Hh. simpl.
    unfold gate_view, gate_error, body_of. simpl. by rewrite lookup_insert_eq.
Qed.

(** X1. The authentication gate keeps no state and consults none: what it
    attaches or answers is the same in any two runs with the same
    authorization header at the same time, whatever the directory, the
    store of objects, the rest of the request and the history are; it
    always attaches or answers; it leaves the directory as it is and the
    only library or directory call it makes is the codec's verification. *)
Theorem authenticate_is_stateless (L : libraries) (cfg : auth_config)
    (req1 req2 : request) (w1 w2 : world) :
  req_authorization req1 = req_authorization req2 ->
  w_now w1 = w_now w2 ->
  gate_view (authenticate L cfg req1 w1) = gate_view (authenticate L cfg req2 w2)
  /\ is_Some (gate_view (authenticate L cfg req1 w1))
  /\ w_db (authenticate L cfg req1 w1).2 = w_db w1
  /\ exists evs,
       w_trace (authenticate L cfg req1 w1).2 = w_trace w1 ++ evs
       /\ forallb is_verify evs = true.
Proof.
  intros Hh Hn. rewrite !gate_view_decision, Hh, Hn.
  split; [done |]. split; [by eexists |].
  destruct (confined_authenticate L cfg req1 w1) as (Hdb & Htr). by split.
Qed.

Lemma authenticate_is_stateless_witness :
  let deactivated := Demo.world_with [Demo.alice_deactivated] in
  gate_view (authenticate Demo.libs Demo.cfg (Demo.bearer "access") Demo.world0)
  = gate_view (authenticate Demo.libs Demo.cfg (Demo.bearer "access") deactivated)
  /\ exists claims,
       gate_view (authenticate Demo.libs Demo.cfg (Demo.bearer "access") deactivated)
       = Some (inl claims)
       /\ claims !! "username" = Some (VStr "alice").
Proof.
  intros deactivated.
  destruct (authenticate_is_stateless Demo.libs Demo.cfg
              (Demo.bearer "access") (Demo.bearer "access")
              Demo.world0 deactivated eq_refl eq_refl) as (Heq & _).
  split; [exact Heq |].
  rewrite <- Heq. eexists. split; [vm_compute; reflexivity | reflexivity].
Defined.

(** ** Calls confined to a relation *)

Section ConfinedCalls.

Context (R : database -> database -> Prop) `{!PreOrder R} (ok : event -> bool).

Lemma confined_findById id :
  ok (EvDb (OpFindById id)) = true -> confined R ok (UserRepository.findById id).
Proof.
  intros H. unfold UserRepository.findById, UserRepository.first_row_or_null.
  confined_walk.
Qed.

Lemma confined_findByEmail email :
  ok (EvDb (OpFindByEmail email)) = true ->
  confined R ok (UserRepository.findByEmail email).
Proof.
  intros H. unfold UserRepository.findByEmail, UserRepository.first_row_or_null.
  confined_walk.
Qed.

Lemma confined_findByUsername username :
  ok (EvDb (OpFindByUsername username)) = true ->
  confined R ok (UserRepository.findByUsername username).
Proof.
  intros H. unfold UserRepository.findByUsername, UserRepository.first_row_or_null.
  confined_walk.
Qed.

Lemma confined_updateLastLogin id :
  ok (EvDb (OpUpdateLastLogin id)) = true ->
  (forall now d, R d (touch_db id now d)) ->
  confined R ok (UserRepository.updateLastLogin id).
Proof.
  intros H Hr. unfold UserRepository.updateLastLogin. confined_walk. apply Hr.
Qed.

Lemma confined_sign L payload secret expiresIn :
  (forall claims, ok (EvSign claims secret) = true) ->
  confined R ok (AuthService.sign L payload secret expiresIn).
Proof. intros H. unfold AuthService.sign. confined_walk. apply H. Qed.

Lemma confined_verify L token secret :
  ok (EvVerify token secret) = true ->
  confined R ok (AuthService.verify L token secret).
Proof. intros H. unfold AuthService.verify. confined_walk. Qed.

Lemma confined_comparePassword L password hash :
  ok (EvCompare password hash) = true ->
  confined R ok (AuthService.comparePassword L password hash).
Proof. intros H. unfold AuthService.comparePassword. confined_walk. Qed.

Lemma confined_sanitizeUser user : confined R ok (AuthService.sanitizeUser user).
Proof. apply confined_same; confined_side. intros w. by rewrite sanitizeUser_run. Qed.

Lemma confined_generateAccessToken L cfg user :
  (forall claims, ok (EvSign claims (jwt_accessSecret cfg)) = true) ->
  confined R ok (AuthService.generateAccessToken L cfg user).
Proof.
  intros H. unfold AuthService.generateAccessToken. confined_walk.
  by apply confined_sign.
Qed.

Lemma confined_generateRefreshToken L cfg user :
  (forall claims, ok (EvSign claims (jwt_refreshSecret cfg)) = true) ->
  confined R ok (AuthService.generateRefreshToken L cfg user).
Proof.
  intros H. unfold AuthService.generateRefreshToken. confined_walk.
  by apply confined_sign.
Qed.

End ConfinedCalls.

Ltac confined_calls :=
  repeat first
    [ progress confined_walk
    | lazymatch goal with
      | |- confined _ _ (UserRepository.findById _) =>
          apply confined_findById; confined_side
      | |- confined _ _ (UserRepository.findByEmail _) =>
          apply confined_findByEmail; confined_side
      | |- confined _ _ (UserRepository.findByUsername _) =>
          apply confined_findByUsername; confined_side
      | |- confined _ _ (UserRepository.updateLastLogin _) =>
          apply confined_updateLastLogin; confined_side
      | |- confined _ _ (AuthService.comparePassword _ _ _) =>
          apply confined_comparePassword; confined_side
      | |- confined _ _ (AuthService.verify _ _ _) =>
          apply confined_verify; confined_side
      | |- confined _ _ (AuthService.verifyRefreshToken _ _ _) =>
          apply confined_verify; confined_side
      | |- confined _ _ (AuthService.sanitizeUser _) =>
          apply confined_sanitizeUser; confined_side
      | |- confined _ _ (AuthService.generateAccessToken _ _ _) =>
          apply confined_generateAccessToken; confined_side;
          try (intros; reflexivity)
      | |- confined _ _ (AuthService.generateRefreshToken _ _ _) =>
          apply confined_generateRefreshToken; confined_side;
          try (intros; reflexivity)
      end ].

Lemma confined_renewal_service L cfg token :
  confined eq (renewal_event cfg) (AuthService.refreshToken L cfg token).
Proof.
  unfold AuthService.refreshToken. confined_calls.
  simpl. by apply bool_decide_eq_true.
Qed.

Lemma confined_renewal_endpoint L cfg req :
  confined eq (renewal_event cfg) (AuthController.refresh L cfg req).
Proof.
  unfold AuthController.refresh. confined_calls.
  apply confined_renewal_service.
Qed.

Lemma confined_endpoint_me req :
  confined eq is_read_or_log (AuthController.me req).
Proof. unfold AuthController.me. confined_calls. Qed.

Section RegisterOutcomes.

Variable L : libraries.
Variable cfg : auth_config.

Lemma register_run_value userData w :
  userData <> VUndefined -> userData <> VNull ->
  let field := candidate_field w userData in
  let out := AuthService.register L cfg userData w in
  let checks := [EvDb (OpEmailExists (field "email"));
                 EvDb (OpUsernameExists (field "username"))] in
  if taken (w_db w) (UserRepository.by_email (field "email")) then
    out.1 = Throw (Error "Email already registered")
    /\ w_db out.2 = w_db w /\ w_trace out.2 = w_trace w ++ checks
  else if taken (w_db w) (UserRepository.by_username (field "username")) then
    out.1 = Throw (Error "Username already taken")
    /\ w_db out.2 = w_db w /\ w_trace out.2 = w_trace w ++ checks
  else
    match bcrypt_hash L (field "password") (bcrypt_saltRounds cfg) (w_entropy w) with
    | Throw e =>
        out.1 = Throw e
        /\ w_db out.2 = w_db w
        /\ w_trace out.2 = w_trace w ++ checks ++ [EvHash (field "password")]
    | Ok h =>
        let row := created_row (w_db w) (w_now w) (register_candidate w userData h) in
        w_db out.2 = UserRepository.insert_user row (w_db w)
        /\ exists evs,
             w_trace out.2 =
               w_trace w ++ checks ++ [EvHash (field "password"); EvDb (OpCreate row)]
                         ++ evs
             /\ no_writes evs
    end.
Proof.
  intros Hu Hn. simpl.
  assert (Hg : forall B k (f : value -> M B) w0,
             bind (get_prop userData k) f w0 = f (candidate_field w0 userData k) w0).
  { intros B k f w0. by destruct userData. }
  destruct (AuthService.register L cfg userData w) as [res w'] eqn:Hrun.
  unfold AuthService.register in Hrun.
  rewrite !Hg, bind_emailExists, bind_usernameExists in Hrun.
  simpl in Hrun. unfold candidate_field in Hrun. simpl in Hrun.
  unfold candidate_field. simpl.
  destruct (taken _ (UserRepository.by_email _)).
  { injection Hrun as <- <-. simpl. by rewrite <- app_assoc. }
  destruct (taken _ (UserRepository.by_username _)).
  { injection Hrun as <- <-. simpl. by rewrite <- app_assoc. }
  rewrite bind_hashPassword in Hrun. simpl in Hrun.
  destruct (bcrypt_hash L _ _ _) as [h | e].
  2: { injection Hrun as <- <-. simpl. by rewrite <- !app_assoc. }
  rewrite bind_new_object in Hrun. simpl in Hrun.
  match type of Hrun with
  | bind (UserRepository.create (VRef ?lc)) ?k ?wc = _ =>
      destruct (create_run lc wc _ (lookup_insert_eq _ _ _))
        as (v & w1 & Hcreate & Hdb & Htr);
      rewrite (bind_ok _ _ _ _ _ Hcreate) in Hrun;
      assert (Hframe : appends_only (k v)) by frame_steps;
      destruct (Hframe w1) as (Hdb' & evs & Htr' & Hnw)
  end.
  rewrite Hrun in Hdb', Htr'. simpl in *.
  split; [by rewrite Hdb', Hdb |].
  exists evs. split; [| done].
  rewrite Htr', Htr. simpl. by rewrite <- !app_assoc.
Qed.

End RegisterOutcomes.

Lemma demo_directory_ok : directory_ok Demo.db.
Proof.
  split; [split |]; [| | by split].
  - apply (bool_decide_unpack _). vm_compute. exact I.
  - apply (bool_decide_unpack _). vm_compute. exact I.
Qed.

(** ** login, step by step *)

Lemma fresh_ne (h : gmap loc cell) l c : h !! l = Some c -> fresh (dom h) <> l.
Proof. intros H E. pose proof (heap_fresh h) as Hf. rewrite E in Hf. congruence. Qed.

Lemma lookup_alloc_old (h : gmap loc cell) l c c' :
  h !! l = Some c -> <[fresh (dom h) := c']> h !! l = Some c.
Proof. intros H. rewrite lookup_insert_ne; [done | by eapply fresh_ne]. Qed.

(** Resolving reads of objects allocated earlier in a run. *)
Ltac heap_hit :=
  solve [repeat first [apply lookup_insert_eq | eapply lookup_alloc_old]].

Ltac heap_lookups :=
  repeat (first [rewrite lookup_insert_eq
                | erewrite lookup_alloc_old by heap_hit]; cbv iota).

Lemma refresh_claims_with_hash row :
  refresh_claims (list_to_map (UserRepository.columns_with_hash row))
  = row_refresh_claims row.
Proof. by destruct row as [u [r |]]. Qed.

Lemma refresh_claims_without_hash row :
  refresh_claims (list_to_map (UserRepository.columns_without_hash row))
  = row_refresh_claims row.
Proof. by destruct row as [u [r |]]. Qed.

Opaque UserRepository.columns_with_hash UserRepository.columns_without_hash.

Section LoginFull.

Variable L : libraries.
Variable cfg : auth_config.

(** Everything [login] does once the identifier has resolved to an
    object holding the columns of [row]. *)
Lemma login_full login password w :
  let out := AuthService.login L cfg login password w in
  let lookups := lookup_events (w_db w) login in
  match resolve_login (w_db w) login with
  | None =>
      out.1 = Throw (Error "Invalid credentials")
      /\ w_db out.2 = w_db w /\ w_trace out.2 = w_trace w ++ lookups
  | Some row =>
      if u_is_active row.1 then
        let compared := EvCompare password (u_password_hash row.1) in
        match bcrypt_compare L password (u_password_hash row.1) with
        | Throw e =>
            out.1 = Throw e /\ w_db out.2 = w_db w
            /\ w_trace out.2 = w_trace w ++ lookups ++ [compared]
        | Ok false =>
            out.1 = Throw (Error "Invalid credentials") /\ w_db out.2 = w_db w
            /\ w_trace out.2 = w_trace w ++ lookups ++ [compared]
        | Ok true =>
            let id := VNum (u_id row.1) in
            let accepted :=
              [compared; EvDb (OpUpdateLastLogin id);
               EvSign (row_access_claims row) (jwt_accessSecret cfg)] in
            w_db out.2 = touch_db id (w_now w) (w_db w) /\
            match jwt_sign L (row_access_claims row) (jwt_accessSecret cfg)
                    (jwt_accessExpiresIn cfg) (w_now w) with
            | Throw e =>
                out.1 = Throw e
                /\ w_trace out.2 = w_trace w ++ lookups ++ accepted
            | Ok ta =>
                w_trace out.2 =
                  w_trace w ++ lookups ++ accepted
                    ++ [EvSign (row_refresh_claims row) (jwt_refreshSecret cfg)]
                /\ match jwt_sign L (row_refresh_claims row) (jwt_refreshSecret cfg)
                           (jwt_refreshExpiresIn cfg) (w_now w) with
                   | Throw e => out.1 = Throw e
                   | Ok tr =>
                       exists l s,
                         out.1 = Ok (VRef l)
                         /\ own_props (w_heap out.2) (VRef l) =
                              list_to_map [("user", VRef s); ("accessToken", VStr ta);
                                           ("refreshToken", VStr tr)]
                         /\ own_props (w_heap out.2) (VRef s) = public_identity row
                   end
            end
        end
      else
        out.1 = Throw (Error "Account is inactive")
        /\ w_db out.2 = w_db w /\ w_trace out.2 = w_trace w ++ lookups
  end.
Proof.
  simpl. unfold resolve_login, lookup_events.
  destruct (AuthService.login L cfg login password w) as [res w'] eqn:Hrun.
  unfold AuthService.login, bind in Hrun.
  rewrite findByEmail_run in Hrun. simpl in Hrun.
  destruct (UserRepository.select_users (w_db w) (UserRepository.by_email login))
    as [| row rest]; simpl in Hrun.
  1: rewrite findByUsername_run in Hrun; simpl in Hrun;
     destruct (UserRepository.select_users (w_db w) (UserRepository.by_username login))
       as [| row rest]; simpl in Hrun;
     [ injection Hrun as <- <-; simpl; by rewrite <- app_assoc |].
  all: rewrite lookup_insert_eq, is_active_with_hash in Hrun.
  all: destruct (u_is_active row.1); simpl in Hrun;
       [| injection Hrun as <- <-; simpl; by rewrite <- ?app_assoc].
  all: rewrite lookup_insert_eq, password_hash_with_hash in Hrun.
  all: unfold AuthService.comparePassword, bind, lift in Hrun; simpl in Hrun.
  all: destruct (bcrypt_compare L password (u_password_hash row.1)) as [[|] | e];
       simpl in Hrun;
       [| injection Hrun as <- <-; simpl; by rewrite <- ?app_assoc
        | injection Hrun as <- <-; simpl; by rewrite <- ?app_assoc].
  all: rewrite lookup_insert_eq, id_with_hash in Hrun.
  all: unfold UserRepository.updateLastLogin, bind in Hrun; simpl in Hrun.
  all: erewrite generateAccessToken_run in Hrun by (simpl; apply lookup_insert_eq).
  all: rewrite access_claims_with_hash in Hrun; simpl in Hrun.
  all: destruct (jwt_sign L (row_access_claims row) _ _ _) as [ta | e];
       simpl in Hrun;
       [| injection Hrun as <- <-; simpl; split; [done |]; split; [done |];
          by rewrite <- ?app_assoc].
  all: erewrite generateRefreshToken_run in Hrun
         by (simpl; apply lookup_alloc_old, lookup_insert_eq).
  all: rewrite refresh_claims_with_hash in Hrun; simpl in Hrun.
  all: destruct (jwt_sign L (row_refresh_claims row) _ _ _) as [tr | e];
       simpl in Hrun;
       [| injection Hrun as <- <-; simpl; split; [done |]; split; [| done];
          by rewrite <- ?app_assoc].
  all: rewrite sanitizeUser_run in Hrun; simpl in Hrun.
  all: injection Hrun as <- <-; simpl.
  all: split; [done |]; split; [by rewrite <- ?app_assoc |].
  all: eexists _, _; split; [reflexivity |].
  all: rewrite lookup_insert_eq; split; [reflexivity |].
  all: unfold public_identity; by heap_lookups.
Qed.

End LoginFull.


(** X3. [login] writes to the directory only after the stored hash has
    accepted the password, and then only the last-login stamp of that
    identity: in every other run the directory is left as it was. *)
Theorem login_writes_only_after_password_accepted (L : libraries) (cfg : auth_config)
    (login password : value) (w : world) :
  let out := AuthService.login L cfg login password w in
  w_db out.2 = w_db w
  \/ exists row,
       resolve_login (w_db w) login = Some row
       /\ u_is_active row.1 = true
       /\ bcrypt_compare L password (u_password_hash row.1) = Ok true
       /\ w_db out.2 = touch_db (VNum (u_id row.1)) (w_now w) (w_db w)
       /\ forall u, u ∈ db_users (w_db w) -> u_id u <> u_id row.1 ->
                    u ∈ db_users (w_db out.2).
Proof.
  simpl. pose proof (login_full L cfg login password w) as H. simpl in H.
  destruct (resolve_login (w_db w) login) as [row |]; [| left; apply H].
  destruct (u_is_active row.1) eqn:Ha; [| left; apply H].
  destruct (bcrypt_compare L password (u_password_hash row.1)) as [[|] | e] eqn:Hc;
    [| left; apply H | left; apply H].
  right. exists row. destruct H as [Hdb _].
  split; [done |]. split; [exact Ha |]. split; [exact Hc |]. split; [exact Hdb |].
  intros u Hin Hne. rewrite Hdb. simpl.
  apply list_elem_of_fmap. exists u. split; [| done].
  unfold UserRepository.touch_last_login. simpl.
  destruct (Z.eqb_spec (u_id u) (u_id row.1)); [contradiction | done].
Qed.

Transparent UserRepository.columns_with_hash UserRepository.columns_without_hash.

Lemma login_writes_only_after_password_accepted_witness :
  Demo.bob_inactive
    ∈ db_users (w_db (AuthService.login Demo.libs Demo.cfg (VStr "alice")
                        (VStr "correct horse") Demo.world0).2).
Proof.
  destruct (login_writes_only_after_password_accepted Demo.libs Demo.cfg
              (VStr "alice") (VStr "correct horse") Demo.world0)
    as [Hsame | (row & Hrow & _ & _ & _ & Hkeep)].
  - rewrite Hsame. apply list_elem_of_further, list_elem_of_here.
  - apply Hkeep; [apply list_elem_of_further, list_elem_of_here |].
    injection Hrow as <-. discriminate.
Defined.

Opaque UserRepository.columns_with_hash UserRepository.columns_without_hash.

Transparent UserRepository.columns_with_hash UserRepository.columns_without_hash.

Lemma public_identity_last_login row :
  prop_of (public_identity row) "last_login" = u_last_login row.1.
Proof. by destruct row as [u [r |]]. Qed.

Lemma public_identity_no_hash row : public_identity row !! "password_hash" = None.
Proof. apply lookup_delete_eq. Qed.

Lemma left_join_fst d u x : x ∈ UserRepository.left_join_roles d u -> x.1 = u.
Proof.
  unfold UserRepository.left_join_roles.
  destruct (List.filter _ (db_roles d)) as [| r rs].
  - intros H. apply list_elem_of_singleton in H. by subst x.
  - intros H. apply list_elem_of_fmap in H as (r' & -> & _). reflexivity.
Qed.

Lemma select_users_stored d cond row :
  row ∈ UserRepository.select_users d cond -> row.1 ∈ db_users d.
Proof.
  unfold UserRepository.select_users. intros H.
  apply list_elem_of_In, in_flat_map in H as (u & Hu & Hrow).
  apply filter_In in Hu as [Hu _].
  apply list_elem_of_In in Hrow. apply left_join_fst in Hrow. subst u.
  by apply list_elem_of_In.
Qed.

(** The row a login identifier resolves to is a row of the directory. *)
Lemma resolve_login_stored d login row :
  resolve_login d login = Some row -> row.1 ∈ db_users d.
Proof.
  unfold resolve_login.
  destruct (UserRepository.select_users d (UserRepository.by_email login))
    as [| r rest] eqn:He.
  - destruct (UserRepository.select_users d (UserRepository.by_username login))
      as [| r rest] eqn:Hu; [discriminate |].
    intros [= <-]. apply (select_users_stored d (UserRepository.by_username login)).
    rewrite Hu. apply list_elem_of_here.
  - intros [= <-]. apply (select_users_stored d (UserRepository.by_email login)).
    rewrite He. apply list_elem_of_here.
Qed.

Opaque UserRepository.columns_with_hash UserRepository.columns_without_hash.

(** X4. A successful [login] hands back the two tokens signed over the
    stored identity's claims and the identity as it was read before the
    last-login stamp was written.  Afterwards the directory holds the
    identity's row with the current time as last login, its other
    credentials as they were, and every row with that id carries that
    stamp, while the identity returned still shows the previous value. *)
Theorem login_returns_identity_read_before_stamp (L : libraries) (cfg : auth_config)
    (login password : value) (w : world) (row : user_row * option role_row)
    (ta tr : string) :
  resolve_login (w_db w) login = Some row ->
  u_is_active row.1 = true ->
  bcrypt_compare L password (u_password_hash row.1) = Ok true ->
  jwt_sign L (row_access_claims row) (jwt_accessSecret cfg)
           (jwt_accessExpiresIn cfg) (w_now w) = Ok ta ->
  jwt_sign L (row_refresh_claims row) (jwt_refreshSecret cfg)
           (jwt_refreshExpiresIn cfg) (w_now w) = Ok tr ->
  let out := AuthService.login L cfg login password w in
  exists l s,
    out.1 = Ok (VRef l)
    /\ own_props (w_heap out.2) (VRef l) =
         list_to_map [("user", VRef s); ("accessToken", VStr ta);
                      ("refreshToken", VStr tr)]
    /\ own_props (w_heap out.2) (VRef s) = public_identity row
    /\ prop_of (own_props (w_heap out.2) (VRef s)) "last_login" = u_last_login row.1
    /\ (exists u,
          u ∈ db_users (w_db out.2)
          /\ u_id u = u_id row.1
          /\ u_last_login u = VNum (w_now w)
          /\ u_username u = u_username row.1
          /\ u_email u = u_email row.1
          /\ u_password_hash u = u_password_hash row.1
          /\ u_is_active u = true
          /\ u_deleted_at u = u_deleted_at row.1)
    /\ (forall u,
          u ∈ db_users (w_db out.2) -> u_id u = u_id row.1 ->
          u_last_login u = VNum (w_now w))
    /\ w_db out.2 = touch_db (VNum (u_id row.1)) (w_now w) (w_db w)
    /\ w_trace out.2 =
         w_trace w ++ lookup_events (w_db w) login
           ++ [EvCompare password (u_password_hash row.1);
               EvDb (OpUpdateLastLogin (VNum (u_id row.1)));
               EvSign (row_access_claims row) (jwt_accessSecret cfg);
               EvSign (row_refresh_claims row) (jwt_refreshSecret cfg)].
Proof.
  intros Hrow Ha Hc Hta Htr. simpl.
  pose proof (login_full L cfg login password w) as H. simpl in H.
  rewrite Hrow, Ha, Hc, Hta, Htr in H.
  destruct H as (Hdb & Htrace & l & s & Hres & Hl & Hs).
  exists l, s. split; [exact Hres |]. split; [exact Hl |]. split; [exact Hs |].
  split; [by rewrite Hs, public_identity_last_login |].
  split; [| split; [| split; [exact Hdb |]]].
  - exists (UserRepository.touch_last_login (VNum (u_id row.1)) (w_now w) row.1).
    split.
    + rewrite Hdb. simpl. apply list_elem_of_fmap. exists row.1.
      split; [reflexivity |]. by eapply resolve_login_stored.
    + unfold UserRepository.touch_last_login. simpl.
      rewrite Z.eqb_refl. simpl. by rewrite Ha.
  - intros u Hin Hid. rewrite Hdb in Hin. simpl in Hin.
    apply list_elem_of_fmap in Hin as (u0 & -> & _).
    unfold UserRepository.touch_last_login in *. simpl in *.
    destruct (Z.eqb_spec (u_id u0) (u_id row.1)) as [_ | Hne]; [reflexivity |].
    contradiction.
  - rewrite Htrace. by rewrite <- ?app_assoc.
Qed.

Transparent UserRepository.columns_with_hash UserRepository.columns_without_hash.

Lemma login_returns_identity_read_before_stamp_witness :
  let out := AuthService.login Demo.libs Demo.cfg (VStr "alice")
               (VStr "correct horse") Demo.world0 in
  exists l s,
    out.1 = Ok (VRef l)
    /\ own_props (w_heap out.2) (VRef l) =
         list_to_map [("user", VRef s); ("accessToken", VStr "access");
                      ("refreshToken", VStr "refresh")]
    /\ own_props (w_heap out.2) (VRef s) = public_identity (Demo.alice, Some Demo.viewer)
    /\ prop_of (own_props (w_heap out.2) (VRef s)) "last_login" = VNull
    /\ (exists u,
          u ∈ db_users (w_db out.2)
          /\ u_id u = 1
          /\ u_last_login u = VNum 100
          /\ u_username u = VStr "alice"
          /\ u_email u = VStr "alice@example.com"
          /\ u_password_hash u = VStr "$2b$correct horse"
          /\ u_is_active u = true
          /\ u_deleted_at u = None)
    /\ (forall u,
          u ∈ db_users (w_db out.2) -> u_id u = 1 -> u_last_login u = VNum 100)
    /\ w_db out.2 = touch_db (VNum 1) 100 Demo.db
    /\ w_trace out.2 =
         [] ++ lookup_events Demo.db (VStr "alice")
           ++ [EvCompare (VStr "correct horse") (VStr "$2b$correct horse");
               EvDb (OpUpdateLastLogin (VNum 1));
               EvSign (row_access_claims (Demo.alice, Some Demo.viewer))
                      (VStr "access-secret");
               EvSign (row_refresh_claims (Demo.alice, Some Demo.viewer))
                      (VStr "refresh-secret")].
Proof.
  apply (login_returns_identity_read_before_stamp Demo.libs Demo.cfg
           (VStr "alice") (VStr "correct horse") Demo.world0
           (Demo.alice, Some Demo.viewer) "access" "refresh");
    reflexivity.
Defined.

Opaque UserRepository.columns_with_hash UserRepository.columns_without_hash.

(** ** register, step by step *)

Lemma left_join_head d u :
  exists rest, UserRepository.left_join_roles d u = joined d u :: rest.
Proof.
  unfold UserRepository.left_join_roles, joined.
  destruct (List.filter _ (db_roles d)) as [| r rs]; simpl; by eexists.
Qed.

Lemma select_new_row d row :
  ids_ok d -> u_id row = db_next_id d -> u_deleted_at row = None ->
  exists rest,
    UserRepository.select_users (UserRepository.insert_user row d)
      (UserRepository.by_id (VNum (db_next_id d))) = joined d row :: rest.
Proof.
  intros [_ Hlt] Hid Hdel. unfold UserRepository.select_users. simpl.
  rewrite List.filter_app.
  assert (Hnone : List.filter (UserRepository.live
                     (UserRepository.by_id (VNum (db_next_id d)))) (db_users d) = []).
  { induction (db_users d) as [| u us IH]; [done |].
    inversion Hlt as [| ? ? Hu Hus]; subst. simpl.
    unfold UserRepository.live at 1, UserRepository.by_id at 1. simpl.
    destruct (Z.eqb_spec (u_id u) (db_next_id d)) as [E | _]; [lia |].
    simpl. by apply IH. }
  rewrite Hnone. simpl.
  unfold UserRepository.live, UserRepository.by_id, UserRepository.not_deleted.
  simpl. rewrite Hid, Z.eqb_refl, Hdel. simpl. rewrite app_nil_r.
  destruct (left_join_head d row) as [rest Hj].
  exists rest. rewrite <- Hj. reflexivity.
Qed.

Lemma create_exact lc w candidate :
  w_heap w !! lc = Some (CObj candidate) ->
  let row := created_row (w_db w) (w_now w) candidate in
  UserRepository.create (VRef lc) w =
    (Ok (VRef (fresh (dom (w_heap w)))),
     set_heap (<[fresh (dom (w_heap w)) := CObj (list_to_map (returning_columns row))]>
                 (w_heap w))
       (set_db (UserRepository.insert_user row (w_db w))
          (log_event (EvDb (OpCreate row)) w))).
Proof.
  intros H row. unfold UserRepository.create.
  rewrite !bind_get_prop_ref. unfold candidate_field. simpl. rewrite H.
  reflexivity.
Qed.

Lemma id_returning row :
  prop_of (list_to_map (returning_columns row)) "id" = VNum (u_id row).
Proof. reflexivity. Qed.

Lemma without_hash_sanitized row :
  delete "password_hash" (list_to_map (UserRepository.columns_without_hash row))
  = (list_to_map (UserRepository.columns_without_hash row) : gmap string value).
Proof. apply delete_id, password_hash_without_hash. Qed.

Opaque returning_columns.

Section RegisterFull.

Variable L : libraries.
Variable cfg : auth_config.

(** Everything [register] does once both existence checks have passed
    and the hasher has answered. *)
Lemma register_full userData w h :
  userData <> VUndefined -> userData <> VNull ->
  ids_ok (w_db w) ->
  let field := candidate_field w userData in
  taken (w_db w) (UserRepository.by_email (field "email")) = false ->
  taken (w_db w) (UserRepository.by_username (field "username")) = false ->
  bcrypt_hash L (field "password") (bcrypt_saltRounds cfg) (w_entropy w) = Ok h ->
  let out := AuthService.register L cfg userData w in
  let row := created_row (w_db w) (w_now w) (register_candidate w userData h) in
  let identity := joined (w_db w) row in
  let written :=
    [EvDb (OpEmailExists (field "email")); EvDb (OpUsernameExists (field "username"));
     EvHash (field "password"); EvDb (OpCreate row);
     EvDb (OpFindById (VNum (u_id row)));
     EvSign (row_access_claims identity) (jwt_accessSecret cfg)] in
  w_db out.2 = UserRepository.insert_user row (w_db w)
  /\ match jwt_sign L (row_access_claims identity) (jwt_accessSecret cfg)
             (jwt_accessExpiresIn cfg) (w_now w) with
     | Throw e => out.1 = Throw e /\ w_trace out.2 = w_trace w ++ written
     | Ok ta =>
         w_trace out.2 =
           w_trace w ++ written
             ++ [EvSign (row_refresh_claims identity) (jwt_refreshSecret cfg)]
         /\ match jwt_sign L (row_refresh_claims identity) (jwt_refreshSecret cfg)
                    (jwt_refreshExpiresIn cfg) (w_now w) with
            | Throw e => out.1 = Throw e
            | Ok tr =>
                exists l s,
                  out.1 = Ok (VRef l)
                  /\ own_props (w_heap out.2) (VRef l) =
                       list_to_map [("user", VRef s); ("accessToken", VStr ta);
                                    ("refreshToken", VStr tr)]
                  /\ own_props (w_heap out.2) (VRef s) =
                       list_to_map (UserRepository.columns_without_hash identity)
            end
     end.
Proof.
  intros Hu Hn Hids field Hte Htu Hh. simpl.
  assert (Hg : forall B k (f : value -> M B) w0,
             bind (get_prop userData k) f w0 = f (candidate_field w0 userData k) w0).
  { intros B k f w0. by destruct userData. }
  destruct (AuthService.register L cfg userData w) as [res w'] eqn:Hrun.
  unfold AuthService.register in Hrun.
  rewrite !Hg, bind_emailExists, bind_usernameExists in Hrun.
  simpl in Hrun. unfold candidate_field in Hrun. simpl in Hrun.
  unfold field, candidate_field in Hte, Htu, Hh.
  rewrite Hte, Htu, bind_hashPassword in Hrun. simpl in Hrun.
  rewrite Hh, bind_new_object in Hrun. simpl in Hrun.
  match type of Hrun with
  | bind (UserRepository.create (VRef ?lc)) ?k ?wc = _ =>
      rewrite (bind_ok _ _ _ _ _ (create_exact lc wc _ (lookup_insert_eq _ _ _))) in Hrun
  end.
  remember (created_row _ _ _) as row eqn:Hrow in Hrun.
  assert (Hrow' : row = created_row (w_db w) (w_now w) (register_candidate w userData h))
    by (subst row; reflexivity).
  clear Hrow. fold field. rewrite <- Hrow'.
  assert (Hid : u_id row = db_next_id (w_db w)) by (by subst row).
  assert (Hdel : u_deleted_at row = None) by (by subst row).
  clear Hrow'.
  destruct (select_new_row (w_db w) row Hids Hid Hdel) as [rest Hsel].
  unfold bind in Hrun. simpl in Hrun.
  rewrite lookup_insert_eq, id_returning, findById_run in Hrun. simpl in Hrun.
  rewrite Hid, Hsel in Hrun. simpl in Hrun.
  erewrite generateAccessToken_run in Hrun by (simpl; apply lookup_insert_eq).
  rewrite access_claims_without_hash in Hrun. simpl in Hrun.
  destruct (jwt_sign L (row_access_claims (joined (w_db w) row)) _ _ _) as [ta | e];
    simpl in Hrun;
    [| injection Hrun as <- <-; simpl; split; [done |]; split; [done |];
       by rewrite <- ?app_assoc].
  erewrite generateRefreshToken_run in Hrun by (simpl; heap_hit).
  rewrite refresh_claims_without_hash in Hrun. simpl in Hrun.
  destruct (jwt_sign L (row_refresh_claims (joined (w_db w) row)) _ _ _) as [tr | e];
    simpl in Hrun;
    [| injection Hrun as <- <-; simpl; split; [done |]; split; [| done];
       by rewrite <- ?app_assoc].
  rewrite sanitizeUser_run in Hrun. simpl in Hrun.
  injection Hrun as <- <-. simpl.
  split; [done |]. split; [by rewrite <- ?app_assoc |].
  eexists _, _. split; [reflexivity |].
  rewrite lookup_insert_eq. split; [reflexivity |].
  heap_lookups. apply without_hash_sanitized.
Qed.

End RegisterFull.

Lemma inserted_email_taken d row email :
  email <> VNull -> email <> VUndefined ->
  u_email row = UserRepository.sql_param email -> u_deleted_at row = None ->
  taken (UserRepository.insert_user row d) (UserRepository.by_email email) = true.
Proof.
  intros Hn Hu He Hd. apply stored_taken. exists row.
  split; [simpl; apply elem_of_app; right; by left |].
  split; [| done].
  unfold UserRepository.by_email. rewrite He.
  destruct email; try done; simpl.
  - by destruct b.
  - apply Z.eqb_refl.
  - apply String.eqb_refl.
  - apply Nat.eqb_refl.
Qed.

(** X5. A registration that passes both existence checks stores one new,
    active row under the next free id, holding the hasher's digest in
    place of the password, and answers with the two tokens and that row
    as [findById] reads it back, joined with its role and without any
    password hash. *)
Theorem register_creates_and_returns_new_identity (L : libraries) (cfg : auth_config)
    (userData : value) (w : world) (h ta tr : string) :
  userData <> VUndefined -> userData <> VNull ->
  ids_ok (w_db w) ->
  let field := candidate_field w userData in
  taken (w_db w) (UserRepository.by_email (field "email")) = false ->
  taken (w_db w) (UserRepository.by_username (field "username")) = false ->
  bcrypt_hash L (field "password") (bcrypt_saltRounds cfg) (w_entropy w) = Ok h ->
  let row := created_row (w_db w) (w_now w) (register_candidate w userData h) in
  let identity := joined (w_db w) row in
  jwt_sign L (row_access_claims identity) (jwt_accessSecret cfg)
           (jwt_accessExpiresIn cfg) (w_now w) = Ok ta ->
  jwt_sign L (row_refresh_claims identity) (jwt_refreshSecret cfg)
           (jwt_refreshExpiresIn cfg) (w_now w) = Ok tr ->
  let out := AuthService.register L cfg userData w in
  (exists l s,
      out.1 = Ok (VRef l)
      /\ own_props (w_heap out.2) (VRef l) =
           list_to_map [("user", VRef s); ("accessToken", VStr ta);
                        ("refreshToken", VStr tr)]
      /\ own_props (w_heap out.2) (VRef s) =
           list_to_map (UserRepository.columns_without_hash identity))
  /\ db_users (w_db out.2) = db_users (w_db w) ++ [row]
  /\ db_next_id (w_db out.2) = db_next_id (w_db w) + 1
  /\ u_id row = db_next_id (w_db w)
  /\ u_password_hash row = VStr h
  /\ u_is_active row = true
  /\ u_deleted_at row = None
  /\ u_username row = UserRepository.sql_param (field "username")
  /\ u_email row = UserRepository.sql_param (field "email").
Proof.
  intros Hu Hn Hids field Hte Htu Hh row identity Hta Htr. simpl.
  pose proof (register_full L cfg userData w h Hu Hn Hids Hte Htu Hh) as H.
  simpl in H. fold field row identity in H. rewrite Hta, Htr in H.
  destruct H as (Hdb & _ & Hres).
  split; [exact Hres |]. rewrite Hdb. by repeat split.
Qed.

Transparent UserRepository.columns_with_hash UserRepository.columns_without_hash.

Lemma register_creates_and_returns_new_identity_witness :
  let w := Demo.world_with_body
             [("username", VStr "carol"); ("email", VStr "carol@example.com");
              ("password", VStr "s3cret-pass")] in
  let out := AuthService.register Demo.libs Demo.cfg (VRef 0%nat) w in
  let row := created_row Demo.db 100
               (register_candidate w (VRef 0%nat) "$2b$s3cret-pass") in
  (exists l s,
      out.1 = Ok (VRef l)
      /\ own_props (w_heap out.2) (VRef l) =
           list_to_map [("user", VRef s); ("accessToken", VStr "access");
                        ("refreshToken", VStr "refresh")]
      /\ own_props (w_heap out.2) (VRef s) =
           list_to_map (UserRepository.columns_without_hash (joined Demo.db row)))
  /\ db_users (w_db out.2) = db_users Demo.db ++ [row]
  /\ db_next_id (w_db out.2) = 3 + 1
  /\ u_id row = 3
  /\ u_password_hash row = VStr "$2b$s3cret-pass"
  /\ u_is_active row = true
  /\ u_deleted_at row = None
  /\ u_username row = UserRepository.sql_param (VStr "carol")
  /\ u_email row = UserRepository.sql_param (VStr "carol@example.com").
Proof.
  apply (register_creates_and_returns_new_identity Demo.libs Demo.cfg (VRef 0%nat)
           (Demo.world_with_body
              [("username", VStr "carol"); ("email", VStr "carol@example.com");
               ("password", VStr "s3cret-pass")])
           "$2b$s3cret-pass" "access" "refresh");
    first [discriminate | exact (proj1 demo_directory_ok) | reflexivity].
Defined.

Opaque UserRepository.columns_with_hash UserRepository.columns_without_hash.

(** X6. [register] is not atomic.  When signing a token fails after the
    row has been written, [register] throws, yet the account exists: a
    later registration under the same email is refused as a duplicate
    and writes nothing. *)
Theorem register_failure_after_create_keeps_the_account (L : libraries)
    (cfg : auth_config) (userData : value) (w : world) (h : string) (e : js_error) :
  userData <> VUndefined -> userData <> VNull ->
  ids_ok (w_db w) ->
  let field := candidate_field w userData in
  field "email" <> VNull -> field "email" <> VUndefined ->
  taken (w_db w) (UserRepository.by_email (field "email")) = false ->
  taken (w_db w) (UserRepository.by_username (field "username")) = false ->
  bcrypt_hash L (field "password") (bcrypt_saltRounds cfg) (w_entropy w) = Ok h ->
  let row := created_row (w_db w) (w_now w) (register_candidate w userData h) in
  jwt_sign L (row_access_claims (joined (w_db w) row)) (jwt_accessSecret cfg)
           (jwt_accessExpiresIn cfg) (w_now w) = Throw e ->
  let out := AuthService.register L cfg userData w in
  out.1 = Throw e
  /\ row ∈ db_users (w_db out.2)
  /\ forall userData' w',
       userData' <> VUndefined -> userData' <> VNull ->
       w_db w' = w_db out.2 ->
       candidate_field w' userData' "email" = field "email" ->
       let again := AuthService.register L cfg userData' w' in
       again.1 = Throw (Error "Email already registered")
       /\ w_db again.2 = w_db w'.
Proof.
  intros Hu Hn Hids field Hen Heu Hte Htu Hh row Hta. simpl.
  pose proof (register_full L cfg userData w h Hu Hn Hids Hte Htu Hh) as H.
  simpl in H. fold field row in H. rewrite Hta in H.
  destruct H as (Hdb & Hres & _).
  split; [exact Hres |]. split.
  { rewrite Hdb. simpl. apply elem_of_app. right. by left. }
  intros userData' w' Hu' Hn' Hw' He'.
  pose proof (register_run_value L cfg userData' w' Hu' Hn') as H'. simpl in H'.
  rewrite He', Hw', Hdb in H'.
  rewrite (inserted_email_taken (w_db w) row (field "email") Hen Heu) in H';
    [| reflexivity | reflexivity].
  destruct H' as (Hthrow & Hsame & _). split; [exact Hthrow |].
  by rewrite Hsame, Hw', Hdb.
Qed.

Lemma register_failure_after_create_keeps_the_account_witness :
  let w := Demo.world_with_body
             [("username", VStr "carol"); ("email", VStr "carol@example.com");
              ("password", VStr "s3cret-pass")] in
  let out := AuthService.register libs_without_secret Demo.cfg (VRef 0%nat) w in
  out.1 = Throw (Error "secretOrPrivateKey must have a value")
  /\ created_row Demo.db 100 (register_candidate w (VRef 0%nat) "$2b$s3cret-pass")
       ∈ db_users (w_db out.2)
  /\ forall userData' w',
       userData' <> VUndefined -> userData' <> VNull ->
       w_db w' = w_db out.2 ->
       candidate_field w' userData' "email" = VStr "carol@example.com" ->
       let again := AuthService.register libs_without_secret Demo.cfg userData' w' in
       again.1 = Throw (Error "Email already registered")
       /\ w_db again.2 = w_db w'.
Proof.
  apply (register_failure_after_create_keeps_the_account libs_without_secret Demo.cfg
           (VRef 0%nat)
           (Demo.world_with_body
              [("username", VStr "carol"); ("email", VStr "carol@example.com");
               ("password", VStr "s3cret-pass")])
           "$2b$s3cret-pass" (Error "secretOrPrivateKey must have a value"));
    first [discriminate | exact (proj1 demo_directory_ok) | reflexivity].
Defined.

(** ** Two registrations at once *)

(** The two halves, one after the other, are [register]. *)
Lemma register_in_two_steps L cfg userData w :
  AuthService.register L cfg userData w
  = bind (register_until_checked userData) (register_once_checked L cfg) w.
Proof. destruct userData; reflexivity. Qed.

Lemma register_until_checked_run userData w :
  userData <> VUndefined -> userData <> VNull ->
  let field := candidate_field w userData in
  register_until_checked userData w =
    (Ok (PendingRegistration (field "username") (field "email") (field "password")
           (field "roleId") (field "municipalityId") (field "firstName")
           (field "lastName") (field "phone")
           (taken (w_db w) (UserRepository.by_email (field "email")))
           (taken (w_db w) (UserRepository.by_username (field "username")))),
     log_event (EvDb (OpUsernameExists (field "username")))
       (log_event (EvDb (OpEmailExists (field "email"))) w)).
Proof. intros Hu Hn. by destruct userData. Qed.

Lemma register_once_checked_writes L cfg p w :
  pr_emailExists p = false -> pr_usernameExists p = false ->
  (exists h, bcrypt_hash L (pr_password p) (bcrypt_saltRounds cfg) (w_entropy w) = Ok h) ->
  exists row,
    w_db (register_once_checked L cfg p w).2 = UserRepository.insert_user row (w_db w)
    /\ u_id row = db_next_id (w_db w)
    /\ u_email row = UserRepository.sql_param (pr_email p)
    /\ u_username row = UserRepository.sql_param (pr_username p)
    /\ u_deleted_at row = None.
Proof.
  intros He Hu [h Hh].
  destruct (register_once_checked L cfg p w) as [res w'] eqn:Hrun.
  unfold register_once_checked in Hrun. rewrite He, Hu in Hrun.
  rewrite bind_hashPassword, Hh, bind_new_object in Hrun. simpl in Hrun.
  match type of Hrun with
  | bind (UserRepository.create (VRef ?lc)) ?k ?wc = _ =>
      destruct (create_run lc wc _ (lookup_insert_eq _ _ _))
        as (v & w1 & Hcreate & Hdb & Htr);
      rewrite (bind_ok _ _ _ _ _ Hcreate) in Hrun;
      assert (Hframe : appends_only (k v)) by frame_steps;
      destruct (Hframe w1) as (Hdb' & _)
  end.
  rewrite Hrun in Hdb'. simpl in *.
  eexists. split; [by rewrite Hdb', Hdb |]. by repeat split.
Qed.

Lemma sql_eq_refl v :
  v <> VNull -> v <> VUndefined -> UserRepository.sql_eq v v = true.
Proof.
  intros Hn Hu. destruct v; try done; simpl.
  - by destruct b.
  - apply Z.eqb_refl.
  - apply String.eqb_refl.
  - apply Nat.eqb_refl.
Qed.

Lemma unique_live_clash key l u v :
  clash key u v = true -> unique_live key (l ++ [u; v]) = false.
Proof.
  intros H. induction l as [| x l IH]; simpl.
  - by rewrite H.
  - rewrite IH. apply andb_false_r.
Qed.

(** X2. The existence checks do not make registration exclusive.  When
    two requests for the same free email are both suspended on their
    checks before either is resumed, as the [await] in [register] allows,
    both go on to insert: the directory ends with two non-deleted rows
    holding that email, under consecutive ids, and is no longer well
    formed.  (One after the other, the second is refused.) *)
Theorem existence_checks_admit_concurrent_duplicates (L : libraries)
    (cfg : auth_config) (a b : value) (w : world) :
  a <> VUndefined -> a <> VNull -> b <> VUndefined -> b <> VNull ->
  let email := candidate_field w a "email" in
  candidate_field w b "email" = email ->
  email <> VNull -> email <> VUndefined ->
  taken (w_db w) (UserRepository.by_email email) = false ->
  taken (w_db w) (UserRepository.by_username (candidate_field w a "username")) = false ->
  taken (w_db w) (UserRepository.by_username (candidate_field w b "username")) = false ->
  (forall n, exists h,
      bcrypt_hash L (candidate_field w a "password") (bcrypt_saltRounds cfg) n = Ok h) ->
  (forall n, exists h,
      bcrypt_hash L (candidate_field w b "password") (bcrypt_saltRounds cfg) n = Ok h) ->
  let out := two_registrations_racing L cfg a b w in
  (forall userData w0,
      AuthService.register L cfg userData w0
      = bind (register_until_checked userData) (register_once_checked L cfg) w0)
  /\ exists rowA rowB,
       db_users (w_db out.2) = db_users (w_db w) ++ [rowA; rowB]
       /\ u_email rowA = email /\ u_email rowB = email
       /\ u_deleted_at rowA = None /\ u_deleted_at rowB = None
       /\ u_id rowA = db_next_id (w_db w) /\ u_id rowB = db_next_id (w_db w) + 1
       /\ unique_live u_email (db_users (w_db out.2)) = false
       /\ ~ directory_ok (w_db out.2).
Proof.
  intros Hau Han Hbu Hbn email Hsame Hen Heu Hfree Hfa Hfb Hha Hhb out.
  split; [apply register_in_two_steps |].
  subst out. unfold two_registrations_racing.
  rewrite (register_until_checked_run a w Hau Han). cbv zeta.
  rewrite (register_until_checked_run b _ Hbu Hbn). cbv zeta.
  change (candidate_field (log_event _ (log_event _ w)) b) with (candidate_field w b).
  change (w_db (log_event _ (log_event _ w))) with (w_db w).
  fold email. rewrite Hsame, Hfree, Hfa, Hfb. unfold resumed.
  match goal with
  | |- context [register_once_checked L cfg ?p ?w2] =>
      destruct (register_once_checked_writes L cfg p w2 eq_refl eq_refl (Hha _))
        as (rowA & HdbA & HidA & HeA & _ & HdA);
      destruct (register_once_checked L cfg p w2) as [ra w3] eqn:HrunA
  end.
  match goal with
  | |- context [register_once_checked L cfg ?p w3] =>
      destruct (register_once_checked_writes L cfg p w3 eq_refl eq_refl (Hhb _))
        as (rowB & HdbB & HidB & HeB & _ & HdB);
      destruct (register_once_checked L cfg p w3) as [rb w4] eqn:HrunB
  end.
  simpl in *.
  assert (Hparam : UserRepository.sql_param email = email) by (by destruct email).
  rewrite Hparam in HeA, HeB.
  assert (Husers : db_users (w_db w4) = db_users (w_db w) ++ [rowA; rowB]).
  { rewrite HdbB, HdbA. simpl. by rewrite <- app_assoc. }
  assert (Hdup : unique_live u_email (db_users (w_db w4)) = false).
  { rewrite Husers. apply unique_live_clash. unfold clash, UserRepository.not_deleted.
    rewrite HdA, HdB, HeA, HeB. simpl. by apply sql_eq_refl. }
  exists rowA, rowB. split; [exact Husers |].
  do 4 (split; [done |]). split; [exact HidA |].
  split; [by rewrite HidB, HdbA |]. split; [exact Hdup |].
  intros (_ & Hu & _). congruence.
Qed.

Lemma existence_checks_admit_concurrent_duplicates_witness :
  let w := {| w_heap :=
                {[ 0%nat := CObj (list_to_map
                                    [("username", VStr "carol");
                                     ("email", VStr "carol@example.com");
                                     ("password", VStr "s3cret-pass")]);
                   1%nat := CObj (list_to_map
                                    [("username", VStr "caroline");
                                     ("email", VStr "carol@example.com");
                                     ("password", VStr "0ther-pass")]) ]};
              w_db := Demo.db; w_trace := []; w_now := 100; w_entropy := 0 |} in
  let out := two_registrations_racing Demo.libs Demo.cfg (VRef 0%nat) (VRef 1%nat) w in
  (forall userData w0,
      AuthService.register Demo.libs Demo.cfg userData w0
      = bind (register_until_checked userData)
             (register_once_checked Demo.libs Demo.cfg) w0)
  /\ exists rowA rowB,
       db_users (w_db out.2) = db_users Demo.db ++ [rowA; rowB]
       /\ u_email rowA = VStr "carol@example.com"
       /\ u_email rowB = VStr "carol@example.com"
       /\ u_deleted_at rowA = None /\ u_deleted_at rowB = None
       /\ u_id rowA = 3 /\ u_id rowB = 3 + 1
       /\ unique_live u_email (db_users (w_db out.2)) = false
       /\ ~ directory_ok (w_db out.2).
Proof.
  exact (existence_checks_admit_concurrent_duplicates Demo.libs Demo.cfg
           (VRef 0%nat) (VRef 1%nat)
           {| w_heap :=
                {[ 0%nat := CObj (list_to_map
                                    [("username", VStr "carol");
                                     ("email", VStr "carol@example.com");
                                     ("password", VStr "s3cret-pass")]);
                   1%nat := CObj (list_to_map
                                    [("username", VStr "caroline");
                                     ("email", VStr "carol@example.com");
                                     ("password", VStr "0ther-pass")]) ]};
              w_db := Demo.db; w_trace := []; w_now := 100; w_entropy := 0 |}
           ltac:(discriminate) ltac:(discriminate)
           ltac:(discriminate) ltac:(discriminate)
           eq_refl
           ltac:(vm_compute; discriminate) ltac:(vm_compute; discriminate)
           eq_refl eq_refl eq_refl
           (fun n => ex_intro _ _ eq_refl) (fun n => ex_intro _ _ eq_refl)).
Defined.

(** ** Soft-deleted rows *)

Lemma filter_live_purge cond d :
  List.filter (UserRepository.live cond) (db_users (purge d))
  = List.filter (UserRepository.live cond) (db_users d).
Proof.
  simpl. induction (db_users d) as [| u us IH]; [done |]. simpl.
  unfold UserRepository.live at 2.
  destruct (UserRepository.not_deleted u) eqn:E; simpl.
  - unfold UserRepository.live at 1. rewrite E. by rewrite IH.
  - by rewrite andb_false_r.
Qed.

Lemma select_purge cond d :
  UserRepository.select_users (purge d) cond = UserRepository.select_users d cond.
Proof.
  unfold UserRepository.select_users. rewrite filter_live_purge. reflexivity.
Qed.

Lemma taken_purge cond d : taken (purge d) cond = taken d cond.
Proof. unfold taken. by rewrite filter_live_purge. Qed.

Lemma insert_purge row d :
  u_deleted_at row = None ->
  UserRepository.insert_user row (purge d) = purge (UserRepository.insert_user row d).
Proof.
  intros H. unfold UserRepository.insert_user, purge. simpl.
  rewrite List.filter_app. simpl.
  unfold UserRepository.not_deleted at 3. by rewrite H.
Qed.

Lemma touch_purge id now d : touch_db id now (purge d) = purge (touch_db id now d).
Proof.
  unfold touch_db, purge. simpl. f_equal.
  induction (db_users d) as [| u us IH]; [done |]. simpl.
  assert (Hd : UserRepository.not_deleted (UserRepository.touch_last_login id now u)
               = UserRepository.not_deleted u).
  { unfold UserRepository.touch_last_login. by destruct (UserRepository.sql_eq _ _). }
  rewrite Hd. destruct (UserRepository.not_deleted u); simpl; by rewrite IH.
Qed.


Lemma blind_ret {A} (a : A) : blind_to_deleted (ret a).
Proof. by intros w. Qed.

Lemma blind_throw {A} e : blind_to_deleted (@throw A e).
Proof. by intros w. Qed.

Lemma blind_lift {A} (r : result A) : blind_to_deleted (lift r).
Proof. by intros w. Qed.

Lemma blind_get_prop v k : blind_to_deleted (get_prop v k).
Proof. intros w. by destruct v. Qed.

Lemma blind_alloc c : blind_to_deleted (alloc c).
Proof. by intros w. Qed.

Lemma blind_emit e : blind_to_deleted (emit e).
Proof. by intros w. Qed.

Lemma blind_bind {A B} (m : M A) (k : A -> M B) :
  blind_to_deleted m -> (forall a, blind_to_deleted (k a)) ->
  blind_to_deleted (bind m k).
Proof.
  intros Hm Hk w. unfold bind. rewrite Hm.
  destruct (m w) as [[a | e] w1]; simpl; [apply Hk | done].
Qed.

Lemma blind_try_catch {A} (m : M A) (h : js_error -> M A) :
  blind_to_deleted m -> (forall e, blind_to_deleted (h e)) ->
  blind_to_deleted (try_catch m h).
Proof.
  intros Hm Hh w. unfold try_catch. rewrite Hm.
  destruct (m w) as [[a | e] w1]; simpl; [done | apply Hh].
Qed.

Lemma blind_get_world_bind {B} (k : world -> M B) :
  (forall w, k (purged w) = k w) -> (forall w, blind_to_deleted (k w)) ->
  blind_to_deleted (bind get_world k).
Proof.
  intros Hk Hb w. unfold bind, get_world. simpl. rewrite Hk. apply Hb.
Qed.

Lemma blind_run_db f :
  (forall d, f (purge d) = purge (f d)) -> blind_to_deleted (UserRepository.run_db f).
Proof.
  intros H w. unfold UserRepository.run_db, purged, set_db. simpl. by rewrite H.
Qed.

Lemma blind_respond {A} (wrap : response -> A) status props :
  blind_to_deleted (respond wrap status props).
Proof. by intros w. Qed.


Ltac blind_walk :=
  repeat
    lazymatch goal with
    | |- blind_to_deleted (bind get_world _) =>
        apply blind_get_world_bind; [intros; try reflexivity |]
    | |- blind_to_deleted (UserRepository.run_db _) => apply blind_run_db
    | |- blind_to_deleted (bind _ _) => apply blind_bind
    | |- blind_to_deleted (try_catch _ _) => apply blind_try_catch
    | |- blind_to_deleted (ret _) => apply blind_ret
    | |- blind_to_deleted (throw _) => apply blind_throw
    | |- blind_to_deleted (lift _) => apply blind_lift
    | |- blind_to_deleted (get_prop _ _) => apply blind_get_prop
    | |- blind_to_deleted (alloc _) => apply blind_alloc
    | |- blind_to_deleted (new_object _) => apply blind_alloc
    | |- blind_to_deleted (new_array _) => apply blind_alloc
    | |- blind_to_deleted (respond _ _ _) => apply blind_respond
    | |- blind_to_deleted (emit _) => apply blind_emit
    | |- blind_to_deleted (if ?c then _ else _) => destruct c
    | |- blind_to_deleted (match ?x with _ => _ end) => destruct x
    | |- blind_to_deleted _ => fail
    | |- _ => progress (intros; cbv beta)
    end.

Section BlindCalls.

Variable L : libraries.
Variable cfg : auth_config.

Lemma blind_findById id : blind_to_deleted (UserRepository.findById id).
Proof.
  intros w. rewrite !findById_run. simpl. rewrite select_purge.
  by destruct (UserRepository.select_users _ _).
Qed.

Lemma blind_findByEmail email : blind_to_deleted (UserRepository.findByEmail email).
Proof.
  intros w. rewrite !findByEmail_run. simpl. rewrite select_purge.
  by destruct (UserRepository.select_users _ _).
Qed.

Lemma blind_findByUsername username :
  blind_to_deleted (UserRepository.findByUsername username).
Proof.
  intros w. rewrite !findByUsername_run. simpl. rewrite select_purge.
  by destruct (UserRepository.select_users _ _).
Qed.

Lemma blind_emailExists email : blind_to_deleted (UserRepository.emailExists email).
Proof.
  intros w. unfold UserRepository.emailExists, bind. simpl.
  by rewrite (filter_live_purge _ (w_db w)).
Qed.

Lemma blind_usernameExists username :
  blind_to_deleted (UserRepository.usernameExists username).
Proof.
  intros w. unfold UserRepository.usernameExists, bind. simpl.
  by rewrite (filter_live_purge _ (w_db w)).
Qed.

Lemma blind_updateLastLogin id : blind_to_deleted (UserRepository.updateLastLogin id).
Proof.
  unfold UserRepository.updateLastLogin. blind_walk.
  apply (touch_purge id (w_now w) d).
Qed.

Lemma blind_create userData : blind_to_deleted (UserRepository.create userData).
Proof.
  unfold UserRepository.create. blind_walk.
  by apply insert_purge.
Qed.

Lemma blind_hashPassword password :
  blind_to_deleted (AuthService.hashPassword L cfg password).
Proof.
  intros w. unfold AuthService.hashPassword, bind. simpl.
  by destruct (bcrypt_hash L _ _ _).
Qed.

Lemma blind_comparePassword password hash :
  blind_to_deleted (AuthService.comparePassword L password hash).
Proof. unfold AuthService.comparePassword. blind_walk. Qed.

Lemma blind_sign payload secret expiresIn :
  blind_to_deleted (AuthService.sign L payload secret expiresIn).
Proof.
  intros w. unfold AuthService.sign, bind. simpl.
  by destruct (jwt_sign L _ _ _ _).
Qed.

Lemma blind_verify token secret : blind_to_deleted (AuthService.verify L token secret).
Proof.
  intros w. unfold AuthService.verify, bind. simpl.
  by destruct (jwt_verify L _ _ _) as [[o | s] | e].
Qed.

Lemma blind_sanitizeUser user : blind_to_deleted (AuthService.sanitizeUser user).
Proof. intros w. by rewrite !sanitizeUser_run. Qed.

Lemma blind_generateAccessToken user :
  blind_to_deleted (AuthService.generateAccessToken L cfg user).
Proof.
  unfold AuthService.generateAccessToken. blind_walk. apply blind_sign.
Qed.

Lemma blind_generateRefreshToken user :
  blind_to_deleted (AuthService.generateRefreshToken L cfg user).
Proof.
  unfold AuthService.generateRefreshToken. blind_walk. apply blind_sign.
Qed.

Lemma blind_isValidPassword password :
  blind_to_deleted (Validation.isValidPassword password).
Proof. unfold Validation.isValidPassword. blind_walk. Qed.

End BlindCalls.

Ltac blind_calls :=
  repeat first
    [ progress blind_walk
    | lazymatch goal with
      | |- blind_to_deleted (UserRepository.findById _) => apply blind_findById
      | |- blind_to_deleted (UserRepository.findByEmail _) => apply blind_findByEmail
      | |- blind_to_deleted (UserRepository.findByUsername _) =>
          apply blind_findByUsername
      | |- blind_to_deleted (UserRepository.emailExists _) => apply blind_emailExists
      | |- blind_to_deleted (UserRepository.usernameExists _) =>
          apply blind_usernameExists
      | |- blind_to_deleted (UserRepository.updateLastLogin _) =>
          apply blind_updateLastLogin
      | |- blind_to_deleted (UserRepository.create _) => apply blind_create
      | |- blind_to_deleted (AuthService.hashPassword _ _ _) =>
          apply blind_hashPassword
      | |- blind_to_deleted (AuthService.comparePassword _ _ _) =>
          apply blind_comparePassword
      | |- blind_to_deleted (AuthService.verifyRefreshToken _ _ _) => apply blind_verify
      | |- blind_to_deleted (AuthService.sanitizeUser _) => apply blind_sanitizeUser
      | |- blind_to_deleted (AuthService.generateAccessToken _ _ _) =>
          apply blind_generateAccessToken
      | |- blind_to_deleted (AuthService.generateRefreshToken _ _ _) =>
          apply blind_generateRefreshToken
      | |- blind_to_deleted (Validation.isValidPassword _) =>
          apply blind_isValidPassword
      end ].

Section BlindServices.

Variable L : libraries.
Variable cfg : auth_config.

Lemma blind_register userData :
  blind_to_deleted (AuthService.register L cfg userData).
Proof. unfold AuthService.register. blind_calls. Qed.

Lemma blind_login login password :
  blind_to_deleted (AuthService.login L cfg login password).
Proof. unfold AuthService.login. blind_calls. Qed.

Lemma blind_refreshToken token :
  blind_to_deleted (AuthService.refreshToken L cfg token).
Proof. unfold AuthService.refreshToken. blind_calls. Qed.

End BlindServices.

(** X7. Soft-deleted rows are invisible to the whole authentication
    surface.  Each service call and each endpoint, run on the directory
    with its soft-deleted rows removed, gives the same result, the same
    store of objects and the same events as on the full directory, and
    leaves the directory it would have left, soft-deleted rows removed. *)
Theorem soft_deleted_rows_are_invisible (L : libraries) (cfg : auth_config) :
  (forall userData, blind_to_deleted (AuthService.register L cfg userData))
  /\ (forall login password, blind_to_deleted (AuthService.login L cfg login password))
  /\ (forall token, blind_to_deleted (AuthService.refreshToken L cfg token))
  /\ (forall req, blind_to_deleted (AuthController.register L cfg req))
  /\ (forall req, blind_to_deleted (AuthController.login L cfg req))
  /\ (forall req, blind_to_deleted (AuthController.me req))
  /\ (forall req, blind_to_deleted (AuthController.refresh L cfg req)).
Proof.
  repeat split.
  - apply blind_register.
  - apply blind_login.
  - apply blind_refreshToken.
  - intros req. unfold AuthController.register. blind_calls. apply blind_register.
  - intros req. unfold AuthController.login. blind_calls. apply blind_login.
  - intros req. unfold AuthController.me. blind_calls.
  - intros req. unfold AuthController.refresh. blind_calls. apply blind_refreshToken.
Qed.

(** ** From login to the gate *)

Lemma prop_of_weaken (claims o : gmap string value) k v :
  claims ⊆ o -> claims !! k = Some v -> prop_of o k = v.
Proof.
  intros Hsub Hk. unfold prop_of. by rewrite (lookup_weaken _ _ _ _ Hk Hsub).
Qed.

Lemma gate_accepts_signed_claims L cfg req w tok row o :
  req_authorization req = VStr ("Bearer " ++ tok) ->
  jwt_verify L (VStr tok) (jwt_accessSecret cfg) (w_now w) = Ok (PayloadObj o) ->
  row_access_claims row ⊆ o ->
  gate_view (authenticate L cfg req w) = Some (inl (row_identity row)).
Proof.
  intros Hh Hv Hsub. rewrite gate_view_decision, Hh. unfold gate_decision.
  rewrite (bearer_truthy _ (bearer_prefix tok)), bearer_prefix. simpl negb. cbv iota.
  change (js_substring_from 7 ("Bearer " ++ tok)) with tok.
  rewrite Hv. unfold payload_claim.
  rewrite (prop_of_weaken _ o "type" (VStr "access") Hsub) by reflexivity.
  rewrite (prop_of_weaken _ o "userId" (VNum (u_id row.1)) Hsub) by reflexivity.
  rewrite (prop_of_weaken _ o "username" (u_username row.1) Hsub) by reflexivity.
  rewrite (prop_of_weaken _ o "email" (u_email row.1) Hsub) by reflexivity.
  rewrite (prop_of_weaken _ o "roleId" (u_role_id row.1) Hsub) by reflexivity.
  rewrite (prop_of_weaken _ o "roleName" (role_name_of row.2) Hsub) by reflexivity.
  rewrite (prop_of_weaken _ o "municipalityId" (u_municipality_id row.1) Hsub)
    by reflexivity.
  reflexivity.
Qed.

(** X8. The access token a successful [login] hands out, presented as a
    bearer credential while the codec still decodes it to what was
    signed, passes the authentication gate, which attaches exactly the
    id, username, email, role id, role name and municipality id the
    directory held at login, whatever the directory holds by then. *)
Theorem login_token_passes_the_gate (L : libraries) (cfg : auth_config)
    (login password : value) (w : world) (row : user_row * option role_row)
    (ta tr : string) (req : request) (w' : world) :
  resolve_login (w_db w) login = Some row ->
  u_is_active row.1 = true ->
  bcrypt_compare L password (u_password_hash row.1) = Ok true ->
  jwt_sign L (row_access_claims row) (jwt_accessSecret cfg)
           (jwt_accessExpiresIn cfg) (w_now w) = Ok ta ->
  jwt_sign L (row_refresh_claims row) (jwt_refreshSecret cfg)
           (jwt_refreshExpiresIn cfg) (w_now w) = Ok tr ->
  decodes_what_was_signed L cfg ta (w_now w) (w_now w') ->
  req_authorization req = VStr ("Bearer " ++ ta) ->
  let out := AuthService.login L cfg login password w in
  (exists l, out.1 = Ok (VRef l)
             /\ prop_of (own_props (w_heap out.2) (VRef l)) "accessToken" = VStr ta)
  /\ gate_view (authenticate L cfg req w') = Some (inl (row_identity row)).
Proof.
  intros Hrow Ha Hc Hta Htr Hcodec Hh. simpl. split.
  - pose proof (login_full L cfg login password w) as H. simpl in H.
    rewrite Hrow, Ha, Hc, Hta, Htr in H.
    destruct H as (_ & _ & l & s & Hres & Hl & _).
    exists l. split; [exact Hres |]. by rewrite Hl.
  - destruct (Hcodec _ Hta) as (o & Hv & Hsub).
    by eapply gate_accepts_signed_claims.
Qed.

Lemma alice_codec_decodes : decodes_what_was_signed alice_codec Demo.cfg "alice.access" 100 200.
Proof.
  intros claims Hs. unfold alice_codec in Hs. cbn [jwt_sign] in Hs.
  case_bool_decide as E.
  - subst claims. eexists. split; [reflexivity |].
    etrans; [| apply insert_subseteq; reflexivity].
    apply insert_subseteq. reflexivity.
  - case_bool_decide; discriminate.
Qed.

Lemma login_token_passes_the_gate_witness :
  let later := {| w_heap := ∅; w_db := w_db (Demo.world_with [Demo.alice_deactivated]);
                  w_trace := []; w_now := 200; w_entropy := 0 |} in
  let out := AuthService.login alice_codec Demo.cfg (VStr "alice")
               (VStr "correct horse") Demo.world0 in
  (exists l, out.1 = Ok (VRef l)
             /\ prop_of (own_props (w_heap out.2) (VRef l)) "accessToken"
                = VStr "alice.access")
  /\ gate_view (authenticate alice_codec Demo.cfg (Demo.bearer "alice.access") later)
     = Some (inl (row_identity (Demo.alice, Some Demo.viewer))).
Proof.
  apply (login_token_passes_the_gate alice_codec Demo.cfg (VStr "alice")
           (VStr "correct horse") Demo.world0 (Demo.alice, Some Demo.viewer)
           "alice.access" "alice.refresh" (Demo.bearer "alice.access")
           {| w_heap := ∅; w_db := w_db (Demo.world_with [Demo.alice_deactivated]);
              w_trace := []; w_now := 200; w_entropy := 0 |});
    first [exact alice_codec_decodes | reflexivity | vm_compute; reflexivity].
Defined.

(** ** What the endpoints answer *)

Lemma hoare_respond_table (P : world -> Prop) table status props :
  (status, prop_of (list_to_map props) "code") ∈ table ->
  hoare P (respond id status props) (answers_within table).
Proof.
  intros Hin w r w' _ [= <- <-]. unfold answers_within, outcome, body_of. simpl.
  by rewrite lookup_insert_eq.
Qed.

Ltac in_table :=
  solve [repeat first [apply list_elem_of_here | apply list_elem_of_further]].

Ltac table_walk :=
  repeat
    lazymatch goal with
    | |- hoare _ (try_catch _ _) _ => apply hoare_try_catch
    | |- hoare _ (respond id _ _) _ => apply hoare_respond_table; in_table
    | |- hoare _ (bind _ _) _ => eapply hoare_bind; [apply hoare_any | intros ?; cbv beta]
    | |- hoare _ (if ?c then _ else _) _ => destruct c
    | |- hoare _ _ _ => fail
    | |- _ => progress (intros; cbv beta)
    end.

Lemma endpoint_refresh_responds L cfg req w :
  exists r w', AuthController.refresh L cfg req w = (Ok r, w').
Proof. unfold AuthController.refresh. apply try_catch_responds. handler_responds. Qed.

Lemma logout_run req w :
  AuthController.logout req w =
    (Ok (Response 200 (VRef (fresh (dom (w_heap w))))),
     set_heap (<[fresh (dom (w_heap w)) :=
                 CObj (list_to_map [("status", VStr "success");
                                    ("message", VStr "Logout successful")])]>
                 (w_heap w)) w).
Proof. reflexivity. Qed.

(** X9. Every endpoint always answers, and with a status and error code
    from a fixed table of its own; no exception and no other status or
    code leaves a handler, whatever the request, the libraries and the
    directory do. *)
Theorem endpoints_answer_from_fixed_tables (L : libraries) (cfg : auth_config)
    (req : request) (w : world) :
  (exists r w', AuthController.register L cfg req w = (Ok r, w')
                /\ answers_within register_answers r w')
  /\ (exists r w', AuthController.login L cfg req w = (Ok r, w')
                   /\ answers_within login_answers r w')
  /\ (exists r w', AuthController.me req w = (Ok r, w')
                   /\ answers_within me_answers r w')
  /\ (exists r w', AuthController.refresh L cfg req w = (Ok r, w')
                   /\ answers_within refresh_answers r w')
  /\ (exists r w', AuthController.logout req w = (Ok r, w')
                   /\ answers_within [(200, VUndefined)] r w').
Proof.
  split; [| split; [| split; [| split]]].
  - destruct (endpoint_register_responds L cfg req w) as (r & w' & Hrun).
    exists r, w'. split; [exact Hrun |].
    assert (H : hoare (fun _ => True) (AuthController.register L cfg req)
                      (answers_within register_answers))
      by (unfold AuthController.register; table_walk).
    by apply (H w r w' I).
  - destruct (endpoint_login_responds L cfg req w) as (r & w' & Hrun).
    exists r, w'. split; [exact Hrun |].
    assert (H : hoare (fun _ => True) (AuthController.login L cfg req)
                      (answers_within login_answers))
      by (unfold AuthController.login; table_walk).
    by apply (H w r w' I).
  - destruct (endpoint_me_responds req w) as (r & w' & Hrun).
    exists r, w'. split; [exact Hrun |].
    assert (H : hoare (fun _ => True) (AuthController.me req)
                      (answers_within me_answers))
      by (unfold AuthController.me; table_walk).
    by apply (H w r w' I).
  - destruct (endpoint_refresh_responds L cfg req w) as (r & w' & Hrun).
    exists r, w'. split; [exact Hrun |].
    assert (H : hoare (fun _ => True) (AuthController.refresh L cfg req)
                      (answers_within refresh_answers))
      by (unfold AuthController.refresh; table_walk).
    by apply (H w r w' I).
  - eexists _, _. split; [apply logout_run |].
    unfold answers_within, outcome, body_of. simpl. rewrite lookup_insert_eq.
    apply list_elem_of_here.
Qed.

(** X10. Logging out revokes nothing.  The endpoint answers 200 without a
    directory or library call, and every bearer credential is treated by
    the authentication gate after the logout exactly as before it. *)
Theorem logout_revokes_nothing (L : libraries) (cfg : auth_config)
    (req presented : request) (w : world) :
  let out := AuthController.logout req w in
  (exists r, out.1 = Ok r /\ res_status r = 200
             /\ body_of out.2 r =
                  list_to_map [("status", VStr "success");
                               ("message", VStr "Logout successful")])
  /\ w_db out.2 = w_db w
  /\ w_trace out.2 = w_trace w
  /\ gate_view (authenticate L cfg presented out.2)
     = gate_view (authenticate L cfg presented w).
Proof.
  cbv zeta. rewrite logout_run. simpl. split; [| split; [done | split; [done |]]].
  - eexists. split; [reflexivity |]. split; [reflexivity |].
    unfold body_of. simpl. by rewrite lookup_insert_eq.
  - by rewrite !gate_view_decision.
Qed.

Opaque UserRepository.columns_with_hash UserRepository.columns_without_hash.

(** ** The refresh, me and register endpoints *)

(** Runs the refresh endpoint up to the catch block, given a service
    run [Hrun] that threw. *)
Ltac refresh_catch Ht Hrun :=
  unfold answers, AuthController.refresh, try_catch, bind;
  rewrite !(body_field_truthy _ _ _ Ht); rewrite Ht; simpl;
  rewrite Hrun; simpl.

Ltac answered :=
  eexists; split; [reflexivity |]; split; [reflexivity |];
  unfold body_of; simpl; by rewrite lookup_insert_eq.

(** X11. How the refresh endpoint answers a request that carries a token:
    401 TOKEN_EXPIRED or INVALID_TOKEN as the codec's error is named,
    401 INVALID_TOKEN for a verified token of another kind, 401
    REFRESH_FAILED with the service's message when the identity is gone
    or deactivated, and on success 200 with a [data] object holding the
    new access token and nothing else. *)
Theorem refresh_endpoint_outcomes (L : libraries) (cfg : auth_config)
    (req : request) (w : world) :
  let token := body_field w req "refreshToken" in
  let out := AuthController.refresh L cfg req w in
  let verified := jwt_verify L token (jwt_refreshSecret cfg) (w_now w) in
  truthy token = true ->
  (forall e, verified = Throw e -> err_name e = "TokenExpiredError" ->
     answers out 401 (AuthController.error_body "Refresh token expired" "TOKEN_EXPIRED"))
  /\ (forall e, verified = Throw e -> err_name e = "JsonWebTokenError" ->
        answers out 401 (AuthController.error_body "Invalid refresh token" "INVALID_TOKEN"))
  /\ (forall p, verified = Ok p -> payload_claim p "type" <> VStr "refresh" ->
        answers out 401 (AuthController.error_body "Invalid refresh token" "INVALID_TOKEN"))
  /\ (forall claims,
        verified = Ok (PayloadObj claims) -> claims !! "type" = Some (VStr "refresh") ->
        match UserRepository.select_users (w_db w)
                (UserRepository.by_id (prop_of claims "userId")) with
        | [] =>
            answers out 401 [("status", VStr "error"); ("message", VStr "User not found");
                             ("code", VStr "REFRESH_FAILED")]
        | row :: _ =>
            if u_is_active row.1 then
              forall t,
                jwt_sign L (row_access_claims row) (jwt_accessSecret cfg)
                         (jwt_accessExpiresIn cfg) (w_now w) = Ok t ->
                answers_data out [("message", VStr "Token refreshed successfully")]
                             {[ "accessToken" := VStr t ]}
            else
              answers out 401 [("status", VStr "error");
                               ("message", VStr "Account is inactive");
                               ("code", VStr "REFRESH_FAILED")]
        end).
Proof.
  intros token out verified Ht. subst out verified token.
  split; [| split; [| split]].
  - intros e Hv Hname.
    pose proof (refreshToken_verify_fails L cfg _ w e Hv) as Hrun.
    refresh_catch Ht Hrun. unfold AuthController.name_is. rewrite Hname. simpl.
    answered.
  - intros e Hv Hname.
    pose proof (refreshToken_verify_fails L cfg _ w e Hv) as Hrun.
    refresh_catch Ht Hrun. unfold AuthController.name_is. rewrite Hname. simpl.
    answered.
  - intros p Hv Hkind.
    destruct (refreshToken_wrong_kind L cfg _ w p Hv Hkind) as (w1 & Hrun & _).
    refresh_catch Ht Hrun. answered.
  - intros claims Hv Hkind.
    pose proof (refreshToken_verified L cfg _ w claims Hv Hkind) as H.
    simpl in H. destruct H as [_ H].
    destruct (UserRepository.select_users _ _) as [| row rest].
    + destruct H as [Hres _].
      destruct (AuthService.refreshToken L cfg _ w) as [res w1] eqn:Hrun.
      simpl in Hres. subst res.
      refresh_catch Ht Hrun. answered.
    + destruct (u_is_active row.1).
      * intros t Hsign. rewrite Hsign in H. destruct H as (_ & l & Hres & Hl).
        destruct (AuthService.refreshToken L cfg _ w) as [res w1] eqn:Hrun.
        simpl in Hres, Hl. subst res.
        unfold answers_data, AuthController.refresh, try_catch, bind.
        rewrite !(body_field_truthy _ _ _ Ht). rewrite Ht. simpl.
        rewrite Hrun. simpl.
        destruct (w_heap w1 !! l) as [[o | a] |] eqn:Hcell; try done.
        subst o. simpl.
        eexists _, _. split; [reflexivity |]. split; [reflexivity |].
        unfold body_of. simpl. rewrite lookup_insert_eq. split; [reflexivity |].
        unfold own_props. heap_lookups. unfold prop_of.
        rewrite lookup_singleton_eq. simpl. by rewrite insert_empty.
      * destruct H as [Hres _].
        destruct (AuthService.refreshToken L cfg _ w) as [res w1] eqn:Hrun.
        simpl in Hres. subst res.
        refresh_catch Ht Hrun. answered.
Qed.

Transparent UserRepository.columns_with_hash UserRepository.columns_without_hash.

Lemma refresh_endpoint_outcomes_witness :
  answers_data
    (AuthController.refresh Demo.libs Demo.cfg Demo.body_request
       (Demo.world_with_body [("refreshToken", VStr "refresh")]))
    [("message", VStr "Token refreshed successfully")]
    {[ "accessToken" := VStr "access" ]}.
Proof.
  exact (proj2 (proj2 (proj2
           (refresh_endpoint_outcomes Demo.libs Demo.cfg Demo.body_request
              (Demo.world_with_body [("refreshToken", VStr "refresh")]) eq_refl)))
           (list_to_map [("userId", VNum 1); ("type", VStr "refresh")])
           eq_refl eq_refl "access" eq_refl).
Defined.

Opaque UserRepository.columns_with_hash UserRepository.columns_without_hash.

Lemma me_run_found req w l o row rest :
  req_user req = VRef l -> w_heap w !! l = Some (CObj o) ->
  UserRepository.select_users (w_db w) (UserRepository.by_id (prop_of o "userId"))
    = row :: rest ->
  exists r d s,
    (AuthController.me req w).1 = Ok r /\ res_status r = 200
    /\ body_of (AuthController.me req w).2 r =
         list_to_map [("status", VStr "success"); ("data", d)]
    /\ own_props (w_heap (AuthController.me req w).2) d = {[ "user" := s ]}
    /\ own_props (w_heap (AuthController.me req w).2) s =
         list_to_map (UserRepository.columns_without_hash row).
Proof.
  intros Hu Hl Hsel.
  destruct (AuthController.me req w) as [res w'] eqn:Hrun.
  unfold AuthController.me, try_catch, bind in Hrun.
  rewrite Hu in Hrun. simpl in Hrun. rewrite Hl, findById_run in Hrun.
  simpl in Hrun. rewrite Hsel in Hrun. simpl in Hrun.
  rewrite sanitizeUser_run in Hrun. simpl in Hrun.
  rewrite lookup_insert_eq in Hrun.
  injection Hrun as <- <-. simpl.
  eexists _, _, _. split; [reflexivity |]. split; [reflexivity |].
  unfold body_of. simpl. rewrite lookup_insert_eq. split; [reflexivity |].
  unfold own_props. heap_lookups. split; [by rewrite insert_empty |].
  cbv beta iota. heap_lookups. apply without_hash_sanitized.
Qed.

(** X12. The me endpoint reads and never writes.  Without an attached
    identity it answers 500 GET_USER_ERROR; when the attached id has no
    live row it answers 404 USER_NOT_FOUND; otherwise it answers 200 with
    the row as [findById] reads it, whether or not the account is still
    active. *)
Theorem me_endpoint_outcomes (req : request) (w : world) :
  let out := AuthController.me req w in
  w_db out.2 = w_db w
  /\ (exists evs, w_trace out.2 = w_trace w ++ evs
                  /\ forallb is_read_or_log evs = true)
  /\ (req_user req = VUndefined \/ req_user req = VNull ->
      answers out 500
        (AuthController.error_body "Failed to retrieve user information" "GET_USER_ERROR"))
  /\ (forall l o,
        req_user req = VRef l -> w_heap w !! l = Some (CObj o) ->
        match UserRepository.select_users (w_db w)
                (UserRepository.by_id (prop_of o "userId")) with
        | [] => answers out 404 (AuthController.error_body "User not found" "USER_NOT_FOUND")
        | row :: _ =>
            exists r d s,
              out.1 = Ok r /\ res_status r = 200
              /\ body_of out.2 r = list_to_map [("status", VStr "success"); ("data", d)]
              /\ own_props (w_heap out.2) d = {[ "user" := s ]}
              /\ own_props (w_heap out.2) s =
                   list_to_map (UserRepository.columns_without_hash row)
        end).
Proof.
  cbv zeta. split; [| split; [| split]].
  - symmetry. apply (proj1 (confined_endpoint_me req w)).
  - apply (proj2 (confined_endpoint_me req w)).
  - intros [Hu | Hu]; unfold answers, AuthController.me, try_catch, bind;
      rewrite Hu; simpl; answered.
  - intros l o Hu Hl.
    destruct (UserRepository.select_users _ _) as [| row rest] eqn:Hsel.
    + unfold answers, AuthController.me, try_catch, bind.
      rewrite Hu. simpl. rewrite Hl, findById_run. simpl. rewrite Hsel. simpl.
      answered.
    + by eapply me_run_found.
Qed.

Transparent UserRepository.columns_with_hash UserRepository.columns_without_hash.

Lemma me_endpoint_outcomes_witness :
  let w := {| w_heap := {[ 0%nat := CObj (Demo.identity 5 "viewer") ]};
              w_db := w_db (Demo.world_with [Demo.alice_deactivated]);
              w_trace := []; w_now := 100; w_entropy := 0 |} in
  let out := AuthController.me (Demo.request_of (VRef 0%nat)) w in
  exists r d s,
    out.1 = Ok r /\ res_status r = 200
    /\ body_of out.2 r = list_to_map [("status", VStr "success"); ("data", d)]
    /\ own_props (w_heap out.2) d = {[ "user" := s ]}
    /\ own_props (w_heap out.2) s =
         list_to_map (UserRepository.columns_without_hash
                        (Demo.alice_deactivated, Some Demo.viewer)).
Proof.
  exact (proj2 (proj2 (proj2
           (me_endpoint_outcomes (Demo.request_of (VRef 0%nat))
              {| w_heap := {[ 0%nat := CObj (Demo.identity 5 "viewer") ]};
                 w_db := w_db (Demo.world_with [Demo.alice_deactivated]);
                 w_trace := []; w_now := 100; w_entropy := 0 |})))
           0%nat (Demo.identity 5 "viewer") eq_refl eq_refl).
Defined.

Opaque UserRepository.columns_with_hash UserRepository.columns_without_hash.

Lemma body_field_get req w k :
  req_body req <> VUndefined -> req_body req <> VNull ->
  get_prop (req_body req) k w = (Ok (body_field w req k), w).
Proof. intros Hu Hn. unfold body_field. by destruct (req_body req). Qed.

(** Reads a property of the literal object [isValidPassword] returned. *)
Ltac read_verdict H :=
  repeat match type of H with
         | context [prop_of (<[?k0 := ?v0]> ?m) ?k] =>
             let v := eval vm_compute in (prop_of (<[k0 := v0]> m) k) in
             change (prop_of (<[k0 := v0]> m) k) with v in H
         end.

Ltac answered_missing :=
  eexists _, _; split; [reflexivity |]; split; [reflexivity |];
  unfold body_of; simpl; rewrite lookup_insert_eq; split; [reflexivity |];
  unfold array_items; by heap_lookups.

(** The validation steps of the register endpoint, in the order they
    are taken. *)
Lemma register_endpoint_validation (L : libraries) (cfg : auth_config)
    (req : request) (w : world) :
  req_body req <> VUndefined -> req_body req <> VNull ->
  let field := body_field w req in
  let out := AuthController.register L cfg req w in
  if negb (truthy (field "username") && truthy (field "email")
           && truthy (field "password")) then
    answers_missing out [VStr "username"; VStr "email"; VStr "password"]
    /\ untouched w out
  else if negb (Validation.isValidEmail L (Validation.sanitizeInput L (field "email"))) then
    answers out 400 (AuthController.error_body "Invalid email format" "INVALID_EMAIL")
    /\ untouched w out
  else if negb (Validation.isValidUsername L
                  (Validation.sanitizeInput L (field "username"))) then
    answers out 400
      (AuthController.error_body
         "Invalid username. Must be 3-100 characters, alphanumeric with underscore or hyphen."
         "INVALID_USERNAME")
    /\ untouched w out
  else if negb (long_enough (field "password")) then
    answers out 400
      [("status", VStr "error");
       ("message", VStr (if is_string (field "password")
                         then "Password must be at least 8 characters long"
                         else "Password is required"));
       ("code", VStr "INVALID_PASSWORD")]
    /\ untouched w out
  else True.
Proof.
  intros Hu Hn. cbv zeta.
  destruct (AuthController.register L cfg req w) as [res w'] eqn:Hrun.
  unfold AuthController.register, try_catch, bind in Hrun.
  rewrite !(body_field_get _ _ _ Hu Hn) in Hrun.
  destruct (truthy (body_field w req "username")); simpl in Hrun |- *;
    [| injection Hrun as <- <-; split; [answered_missing | done]].
  destruct (truthy (body_field w req "email")); simpl in Hrun |- *;
    [| injection Hrun as <- <-; split; [answered_missing | done]].
  destruct (truthy (body_field w req "password")) eqn:Hp; simpl in Hrun |- *;
    [| injection Hrun as <- <-; split; [answered_missing | done]].
  destruct (Validation.isValidEmail L _); simpl in Hrun |- *;
    [| injection Hrun as <- <-; split; [answered | done]].
  destruct (Validation.isValidUsername L _); simpl in Hrun |- *;
    [| injection Hrun as <- <-; split; [answered | done]].
  destruct (body_field w req "password") as [| | b | n | s | l]; try discriminate;
    simpl in Hrun, Hp |- *.
  1, 2, 4: rewrite lookup_insert_eq in Hrun; read_verdict Hrun; simpl in Hrun;
           rewrite ?lookup_insert_eq in Hrun; read_verdict Hrun; simpl in Hrun;
           injection Hrun as <- <-; split; [answered | done].
  rewrite Hp in Hrun. simpl in Hrun.
  destruct (Z.ltb (Z.of_nat (js_length s)) 8); simpl in Hrun |- *; [| exact I].
  rewrite lookup_insert_eq in Hrun; read_verdict Hrun; simpl in Hrun.
  rewrite ?lookup_insert_eq in Hrun; read_verdict Hrun; simpl in Hrun.
  injection Hrun as <- <-. split; [answered | done].
Qed.

(** X13. The register endpoint validates before it calls anything.  A
    body lacking username, email or password, an email or username the
    validators refuse after trimming, and a password that is not a string
    of length at least eight (as [length] counts: UTF-16 code units) are
    answered 400 with the code of the first failing check, and neither
    the directory nor any library has been called. *)
Theorem register_endpoint_validates_before_any_call (L : libraries) (cfg : auth_config)
    (req : request) (w : world) :
  req_body req <> VUndefined -> req_body req <> VNull ->
  let field := body_field w req in
  let out := AuthController.register L cfg req w in
  let present :=
    truthy (field "username") && truthy (field "email") && truthy (field "password") in
  let email_ok := Validation.isValidEmail L (Validation.sanitizeInput L (field "email")) in
  let username_ok :=
    Validation.isValidUsername L (Validation.sanitizeInput L (field "username")) in
  (present = false ->
   answers_missing out [VStr "username"; VStr "email"; VStr "password"]
   /\ untouched w out)
  /\ (present = true -> email_ok = false ->
      answers out 400 (AuthController.error_body "Invalid email format" "INVALID_EMAIL")
      /\ untouched w out)
  /\ (present = true -> email_ok = true -> username_ok = false ->
      answers out 400
        (AuthController.error_body
           "Invalid username. Must be 3-100 characters, alphanumeric with underscore or hyphen."
           "INVALID_USERNAME")
      /\ untouched w out)
  /\ (present = true -> email_ok = true -> username_ok = true ->
      long_enough (field "password") = false ->
      answers out 400
        [("status", VStr "error");
         ("message", VStr (if is_string (field "password")
                           then "Password must be at least 8 characters long"
                           else "Password is required"));
         ("code", VStr "INVALID_PASSWORD")]
      /\ untouched w out).
Proof.
  intros Hu Hn field out present email_ok username_ok.
  pose proof (register_endpoint_validation L cfg req w Hu Hn) as H. cbv zeta in H.
  fold field out present email_ok username_ok in H.
  split; [| split; [| split]].
  - intros Hp. by rewrite Hp in H.
  - intros Hp He. by rewrite Hp, He in H.
  - intros Hp He Hn'. by rewrite Hp, He, Hn' in H.
  - intros Hp He Hn' Hl. by rewrite Hp, He, Hn', Hl in H.
Qed.

Lemma register_endpoint_validates_before_any_call_witness :
  let short := Demo.world_with_body
                 [("username", VStr "carol"); ("email", VStr "carol@example.com");
                  ("password", VStr "short")] in
  let cyrillic := Demo.world_with_body
                    [("username", VStr "carol"); ("email", VStr "carol@example.com");
                     ("password", VStr "пароль")] in
  let refused w :=
    answers (AuthController.register Demo.libs Demo.cfg Demo.body_request w) 400
      [("status", VStr "error");
       ("message", VStr "Password must be at least 8 characters long");
       ("code", VStr "INVALID_PASSWORD")]
    /\ untouched w (AuthController.register Demo.libs Demo.cfg Demo.body_request w) in
  refused short /\ refused cyrillic.
Proof.
  split.
  - exact (proj2 (proj2 (proj2
             (register_endpoint_validates_before_any_call Demo.libs Demo.cfg
                Demo.body_request
                (Demo.world_with_body
                   [("username", VStr "carol"); ("email", VStr "carol@example.com");
                    ("password", VStr "short")])
                ltac:(discriminate) ltac:(discriminate))))
             eq_refl eq_refl eq_refl eq_refl).
  - exact (proj2 (proj2 (proj2
             (register_endpoint_validates_before_any_call Demo.libs Demo.cfg
                Demo.body_request
                (Demo.world_with_body
                   [("username", VStr "carol"); ("email", VStr "carol@example.com");
                    ("password", VStr "пароль")])
                ltac:(discriminate) ltac:(discriminate))))
             eq_refl eq_refl eq_refl eq_refl).
Defined.

(** ** A refresh only reads; a taken username *)

(** X14. A token refresh only reads.  Neither the service nor the endpoint
    writes to the directory, hashes or compares a password, or signs
    anything under another secret than the access secret: the refresh
    token is never rotated. *)
Theorem refresh_reads_only_and_never_rotates (L : libraries) (cfg : auth_config)
    (token : value) (req : request) (w : world) :
  (w_db (AuthService.refreshToken L cfg token w).2 = w_db w
   /\ exists evs,
        w_trace (AuthService.refreshToken L cfg token w).2 = w_trace w ++ evs
        /\ forallb (renewal_event cfg) evs = true)
  /\ (w_db (AuthController.refresh L cfg req w).2 = w_db w
      /\ exists evs,
           w_trace (AuthController.refresh L cfg req w).2 = w_trace w ++ evs
           /\ forallb (renewal_event cfg) evs = true).
Proof.
  split.
  - destruct (confined_renewal_service L cfg token w) as [Hdb Htr]. by split.
  - destruct (confined_renewal_endpoint L cfg req w) as [Hdb Htr]. by split.
Qed.

(** X15. A registration whose email is free but whose username belongs to
    a stored, non-deleted row fails with "Username already taken" after
    the two existence queries and nothing else: nothing is hashed and
    nothing is written. *)
Theorem register_rejects_taken_username_before_writing (L : libraries)
    (cfg : auth_config) (userData : value) (w : world) :
  userData <> VUndefined -> userData <> VNull ->
  let field := candidate_field w userData in
  taken (w_db w) (UserRepository.by_email (field "email")) = false ->
  stored (w_db w) (UserRepository.by_username (field "username")) ->
  let out := AuthService.register L cfg userData w in
  out.1 = Throw (Error "Username already taken")
  /\ w_db out.2 = w_db w
  /\ w_trace out.2 =
       w_trace w ++ [EvDb (OpEmailExists (field "email"));
                     EvDb (OpUsernameExists (field "username"))].
Proof.
  intros Hu Hn field Hfree Htaken. cbv zeta.
  pose proof (register_run_value L cfg userData w Hu Hn) as H. cbv zeta in H.
  fold field in H. apply stored_taken in Htaken. by rewrite Hfree, Htaken in H.
Qed.

Lemma register_rejects_taken_username_before_writing_witness :
  let w := Demo.world_with_body
             [("username", VStr "alice"); ("email", VStr "alice@elsewhere.org");
              ("password", VStr "s3cret-pass")] in
  let out := AuthService.register Demo.libs Demo.cfg (VRef 0%nat) w in
  out.1 = Throw (Error "Username already taken")
  /\ w_db out.2 = Demo.db
  /\ w_trace out.2 =
       [] ++ [EvDb (OpEmailExists (VStr "alice@elsewhere.org"));
              EvDb (OpUsernameExists (VStr "alice"))].
Proof.
  apply (register_rejects_taken_username_before_writing Demo.libs Demo.cfg (VRef 0%nat)
           (Demo.world_with_body
              [("username", VStr "alice"); ("email", VStr "alice@elsewhere.org");
               ("password", VStr "s3cret-pass")]));
    first [discriminate | reflexivity | apply stored_taken; reflexivity].
Defined.
